(** * irctest: the message exchange and synchronisation helpers of [cases.py]

  A shallow embedding of [src/irctest/cases.py]: the line transport
  ([getLine], [sendLine], [getMessage]), the capability negotiation
  helper ([readCapLs], [userNickPredicate], [negotiateCapabilities]) and
  the assertion helpers ([assertMessageEqual], [assertDisconnected]).

  Python text is modelled by [string]; a character is a code point below
  256, so every literal of the source ("CAP", "REQ", CR, LF, ...) is
  represented exactly. *)

From Stdlib Require Import String Ascii List ZArith Lia Bool.
From stdpp Require Import base gmap sets list strings.

Open Scope string_scope.
Open Scope list_scope.

(** ** Python [str] operations used by the helpers *)

Module PyStr.

Definition CR : ascii := ascii_of_nat 13.
Definition LF : ascii := ascii_of_nat 10.

(** The line terminator ['\r\n']. *)
Definition CRLF : string := String CR (String LF EmptyString).

(** [str.isspace] on one character, for code points below 256:
    U+0009..U+000D, U+001C..U+0020, U+0085 and U+00A0. *)
Definition is_space (c : ascii) : bool :=
  let n := nat_of_ascii c in
  (((9 <=? n) && (n <=? 13)) || ((28 <=? n) && (n <=? 32))
   || (n =? 133) || (n =? 160))%nat.

(** [s.endswith(suf)] *)
Fixpoint endswith (s suf : string) : bool :=
  String.eqb s suf ||
  match s with
  | EmptyString => false
  | String _ s' => endswith s' suf
  end.

(** [s.startswith(pre)] *)
Fixpoint startswith (s pre : string) : bool :=
  match pre, s with
  | EmptyString, _ => true
  | String p pre', String c s' => Ascii.eqb p c && startswith s' pre'
  | String _ _, EmptyString => false
  end.

(** [s[0:n]] *)
Fixpoint take (n : nat) (s : string) : string :=
  match n, s with
  | S n', String c s' => String c (take n' s')
  | _, _ => EmptyString
  end.

Definition flush (cur : option string) : list string :=
  match cur with Some w => [w] | None => [] end.

Definition push (cur : option string) (c : ascii) : option string :=
  match cur with
  | Some w => Some (w +:+ String c EmptyString)
  | None => Some (String c EmptyString)
  end.

(** [s.split()] with no argument: the maximal runs of characters that
    are not whitespace, in order. [cur] is the run being read. *)
Fixpoint split_from (cur : option string) (s : string) : list string :=
  match s with
  | EmptyString => flush cur
  | String c s' =>
      if is_space c then flush cur ++ split_from None s'
      else split_from (push cur c) s'
  end.

Definition split (s : string) : list string := split_from None s.

(** [s.lstrip()], [s.rstrip()] and [s.strip()] with no argument. *)
Fixpoint lstrip (s : string) : string :=
  match s with
  | String c s' => if is_space c then lstrip s' else s
  | EmptyString => EmptyString
  end.

Fixpoint rstrip (s : string) : string :=
  match s with
  | EmptyString => EmptyString
  | String c s' =>
      match rstrip s' with
      | EmptyString => if is_space c then EmptyString else String c EmptyString
      | r => String c r
      end
  end.

Definition strip (s : string) : string := rstrip (lstrip s).

(** [sep.join(l)] *)
Fixpoint join (sep : string) (l : list string) : string :=
  match l with
  | [] => EmptyString
  | [x] => x
  | x :: l' => x +:+ sep +:+ join sep l'
  end.

(** [s.encode()]: UTF-8. A code point below 128 is one byte, one in
    128..255 is the two bytes [0xC0 + c / 64] and [0x80 + c mod 64]. *)
Definition encode_char (c : ascii) : list Byte.byte :=
  let n := nat_of_ascii c in
  if (n <? 128)%nat then [byte_of_ascii c]
  else [byte_of_ascii (ascii_of_nat (192 + n / 64));
        byte_of_ascii (ascii_of_nat (128 + n mod 64))].

Fixpoint encode (s : string) : list Byte.byte :=
  match s with
  | EmptyString => []
  | String c s' => encode_char c ++ encode s'
  end.

(** [sub in s] *)
Fixpoint contains (s sub : string) : bool :=
  startswith s sub ||
  match s with
  | EmptyString => false
  | String _ s' => contains s' sub
  end.

(** [s[:-len(suf)]] when [s] ends with [suf], else [s]. *)
Definition chop (suf s : string) : string :=
  if endswith s suf then take (String.length s - String.length suf) s else s.

(** The bytes literal [b'\r\n']. *)
Definition bCRLF : list Byte.byte := [byte_of_ascii CR; byte_of_ascii LF].

End PyStr.


(** ** Messages and Python values *)

(** [message_parser.Message]: a tuple with the four fields [tags],
    [prefix], [command] and [params]. *)
Record Message := mkMessage {
  tags : gmap string string;
  prefix : option string;
  command : string;
  params : list string
}.

#[global] Instance Message_eq_dec : EqDecision Message.
Proof. solve_decision. Defined.

(** The Python values that reach the assertion helpers. Values of
    different shapes are never equal, as in Python. [VObject] stands for
    an object that is only known by the name it is bound to (a module, a
    class). *)
Inductive pyval :=
| VNone
| VInt (n : Z)
| VStr (s : string)
| VList (l : list string)
| VTags (t : gmap string string)
| VMsg (m : Message)
| VObject (name : string).

#[global] Instance pyval_eq_dec : EqDecision pyval.
Proof. solve_decision. Defined.

Definition VOptStr (o : option string) : pyval :=
  match o with Some s => VStr s | None => VNone end.

(** What an assertion of [unittest] reports when it fails. [umsg] is the
    message argument handed to [unittest]. *)
Inductive failure :=
| NotEqual (got expects : pyval) (umsg : pyval)
| NotGreater (a b : Z) (umsg : pyval)
| UnexpectedlyEqual (a b : pyval) (umsg : pyval)
| Raised (text : string) (arg : pyval).

Inductive exn :=
| AssertionError (f : failure)
| SocketError
| AttributeError (name : string)
| NameError (name : string)
| KeyError (key : string)
| IndexError
| ParseError
| OtherError (what : string).

#[global] Instance failure_eq_dec : EqDecision failure.
Proof. solve_decision. Defined.

#[global] Instance exn_eq_dec : EqDecision exn.
Proof. solve_decision. Defined.

(** ** A state and exception monad for test methods

    A method either returns, raises, blocks for ever on a read from a
    silent peer, or (for the loops of the model only) runs out of fuel. *)
Inductive outcome (A : Type) :=
| Ret (a : A)
| Exc (e : exn)
| Blocked
| OutOfFuel.

Arguments Ret {A} a.
Arguments Exc {A} e.
Arguments Blocked {A}.
Arguments OutOfFuel {A}.

Definition M (St A : Type) : Type := St -> outcome A * St.

Definition ret {St A} (a : A) : M St A := fun s => (Ret a, s).

Definition raise {St A} (e : exn) : M St A := fun s => (Exc e, s).

Definition bind {St A B} (c : M St A) (k : A -> M St B) : M St B :=
  fun s =>
    match c s with
    | (Ret a, s') => k a s'
    | (Exc e, s') => (Exc e, s')
    | (Blocked, s') => (Blocked, s')
    | (OutOfFuel, s') => (OutOfFuel, s')
    end.

Notation "x <- c1 ;; c2" := (bind c1 (fun x => c2))
  (at level 100, c1 at next level, c2 at level 200, right associativity).
Notation "c1 ;; c2" := (bind c1 (fun _ => c2))
  (at level 100, c2 at level 200, right associativity).

(** What follows a call: the continuation runs when the call returned,
    any other outcome is passed on. *)
Definition propagate {St A B} (r : outcome A * St)
    (k : A -> St -> outcome B * St) : outcome B * St :=
  match r with
  | (Ret a, s') => k a s'
  | (Exc e, s') => (Exc e, s')
  | (Blocked, s') => (Blocked, s')
  | (OutOfFuel, s') => (OutOfFuel, s')
  end.

Definition get {St} : M St St := fun s => (Ret s, s).

Definition modify {St} (f : St -> St) : M St unit := fun s => (Ret tt, f s).

(** The result of a call that returns or raises without touching the
    test case. *)
Definition lift {St A} (r : exn + A) : M St A :=
  match r with
  | inl e => raise e
  | inr a => ret a
  end.

(** [for x in l: body(x)] *)
Fixpoint for_each {St A} (l : list A) (body : A -> M St unit) : M St unit :=
  match l with
  | [] => ret tt
  | x :: l' => body x ;; for_each l' body
  end.

(** [l[i]] *)
Definition getitem {St} (l : list string) (i : nat) : M St string :=
  match l !! i with
  | Some x => ret x
  | None => raise IndexError
  end.

(** ** The connection of a client test case *)

(** How the stream from the peer ends once its data is read: the peer
    closed the connection ([EOF]), the read fails with a transport error
    ([Reset]), or the peer stays silent ([Silent]). *)
Inductive stream_end := EOF | Reset | Silent.

(** [self.conn] and [self.conn_file] after [acceptClient]: the text the
    peer sends, how its stream ends, whether writing fails, and the
    arguments of the [sendall] calls made so far. *)
Record Conn := mkConn {
  inbound : string;
  closing : stream_end;
  broken : bool;
  sent : list (list Byte.byte)
}.

(** [BaseClientTestCase] with [ClientNegociationHelper] mixed in. *)
Record ClientCase := mkClientCase {
  show_io : bool;
  stdout : list string;
  conn : Conn;
  nick : option string;
  user : option (list string);
  protocol_version : option Z;
  acked_capabilities : gset string
}.

Definition set_conn (c : Conn) (s : ClientCase) : ClientCase :=
  mkClientCase (show_io s) (stdout s) c (nick s) (user s)
    (protocol_version s) (acked_capabilities s).

Definition set_stdout (o : list string) (s : ClientCase) : ClientCase :=
  mkClientCase (show_io s) o (conn s) (nick s) (user s)
    (protocol_version s) (acked_capabilities s).

Definition set_nick (n : option string) (s : ClientCase) : ClientCase :=
  mkClientCase (show_io s) (stdout s) (conn s) n (user s)
    (protocol_version s) (acked_capabilities s).

Definition set_user (u : option (list string)) (s : ClientCase) : ClientCase :=
  mkClientCase (show_io s) (stdout s) (conn s) (nick s) u
    (protocol_version s) (acked_capabilities s).

Definition set_protocol_version (v : option Z) (s : ClientCase) : ClientCase :=
  mkClientCase (show_io s) (stdout s) (conn s) (nick s) (user s)
    v (acked_capabilities s).

Definition set_acked_capabilities (a : gset string) (s : ClientCase) : ClientCase :=
  mkClientCase (show_io s) (stdout s) (conn s) (nick s) (user s)
    (protocol_version s) a.

(** The first line of [s] for a text stream opened with [newline='\r\n']:
    the text up to and with the first CR LF, and what follows it; [None]
    when [s] holds no CR LF. *)
Fixpoint readline_split (s : string) : option (string * string) :=
  match s with
  | EmptyString => None
  | String c s' =>
      match s' with
      | String d r =>
          if Ascii.eqb c PyStr.CR && Ascii.eqb d PyStr.LF
          then Some (PyStr.CRLF, r)
          else match readline_split s' with
               | Some (l, r') => Some (String c l, r')
               | None => None
               end
      | EmptyString => None
      end
  end.

(** [self.conn_file.readline()]. Only CR LF ends a line and the line is
    returned with it; at the end of the stream the text left, which may
    be empty, is returned. *)
Definition readline : M ClientCase string :=
  fun s =>
    let c := conn s in
    match readline_split (inbound c) with
    | Some (l, r) =>
        (Ret l, set_conn (mkConn r (closing c) (broken c) (sent c)) s)
    | None =>
        match closing c with
        | EOF =>
            (Ret (inbound c),
             set_conn (mkConn EmptyString EOF (broken c) (sent c)) s)
        | Reset => (Exc SocketError, s)
        | Silent => (Blocked, s)
        end
    end.

(** [self.conn.sendall(data)] *)
Definition sendall (data : list Byte.byte) : M ClientCase unit :=
  fun s =>
    let c := conn s in
    if broken c then (Exc SocketError, s)
    else (Ret tt,
          set_conn (mkConn (inbound c) (closing c) (broken c) (sent c ++ [data])) s).

(** [print('{:.3f} X: {}'.format(time.time(), text))], the time left out. *)
Definition print (dir text : string) : M ClientCase unit :=
  modify (fun s => set_stdout (stdout s ++ [dir +:+ ": " +:+ text]) s).

(** [BaseClientTestCase.getLine]: the line read is returned as it is; it
    is stripped for the echo only. *)
Definition getLine : M ClientCase string :=
  line <- readline ;;
  s <- get ;;
  (if show_io s then print "C" (PyStr.strip line) else ret tt) ;;
  ret line.

(** [BaseClientTestCase.sendLine]. [sendall] returns [None] or raises, so
    the two [assert ret is None] always hold. *)
Definition sendLine (line : string) : M ClientCase unit :=
  sendall (PyStr.encode line) ;;
  (if negb (PyStr.endswith line PyStr.CRLF) then sendall PyStr.bCRLF
   else ret tt) ;;
  s <- get ;;
  (if show_io s then print "S" (PyStr.strip line) else ret tt).

(** ** The helpers of [cases.py] on the client side *)

Section ClientHelpers.

(** [message_parser.parse_message], [str.format] on a failure message
    (called with the keywords [got], [expects] and [msg]) and
    [capabilities.cap_list_to_dict] are not part of [cases.py]; the helpers
    are modelled for any behaviour of them. *)
Variable parse_message : string -> exn + Message.
Variable str_format : string -> pyval -> pyval -> pyval -> exn + string.
Variable cap_list_to_dict : list string -> gmap string (option string).

(** [_IrcTestCase.assertEqual], which formats [fail_msg] when it is given
    and not empty, and hands the result to [unittest]'s [assertEqual]. *)
Definition assertEqual {St} (got expects msg : pyval)
    (fail_msg : option string) : M St unit :=
  umsg <- match fail_msg with
          | Some f =>
              if String.eqb f EmptyString then ret (VStr f)
              else (t <- lift (str_format f got expects msg) ;; ret (VStr t))
          | None => ret VNone
          end ;;
  if decide (got = expects) then ret tt
  else raise (AssertionError (NotEqual got expects umsg)).

(** The exception that [assertEqual] ends with, if any; the test case
    plays no part in it. *)
Definition assertEqual_failure (got expects msg : pyval)
    (fail_msg : option string) : option exn :=
  match fst (assertEqual (St := unit) got expects msg fail_msg tt) with
  | Exc e => Some e
  | _ => None
  end.

(** [unittest]'s [assertGreater] and [assertNotEqual]. *)
Definition assertGreater {St} (a b : Z) (umsg : pyval) : M St unit :=
  if (b <? a)%Z then ret tt
  else raise (AssertionError (NotGreater a b umsg)).

Definition assertNotEqual {St} (a b umsg : pyval) : M St unit :=
  if decide (a = b) then raise (AssertionError (UnexpectedlyEqual a b umsg))
  else ret tt.

(** [len(l)] *)
Definition len (l : list string) : Z := Z.of_nat (length l).

(** [BaseClientTestCase.getMessage]; [fuel] bounds the iterations of its
    [while True]. *)
Fixpoint getMessage (fuel : nat)
    (filter_pred : option (Message -> M ClientCase bool))
    : M ClientCase Message :=
  match fuel with
  | O => fun s => (OutOfFuel, s)
  | S fuel' =>
      line <- getLine ;;
      msg <- lift (parse_message line) ;;
      match filter_pred with
      | None => ret msg
      | Some p =>
          keep <- p msg ;;
          if (keep : bool) then ret msg else getMessage fuel' filter_pred
      end
  end.

(** [ClientNegociationHelper.readCapLs]. Starting the client under test
    and accepting its connection make [conn] the current connection. *)
Definition readCapLs (fuel : nat) : M ClientCase unit :=
  m <- getMessage fuel None ;;
  assertEqual (VStr (command m)) (VStr "CAP")
    (VStr "First message is not CAP LS.") None ;;
  if decide (params m = ["LS"]) then
    modify (set_protocol_version (Some 301%Z))
  else if decide (params m = ["LS"; "302"]) then
    modify (set_protocol_version (Some 302%Z))
  else if decide (params m = ["END"]) then
    modify (set_protocol_version None)
  else
    raise (AssertionError (Raised "Unknown CAP params: {}" (VList (params m)))).

(** [ClientNegociationHelper.userNickPredicate] *)
Definition userNickPredicate (msg : Message) : M ClientCase bool :=
  if String.eqb (command msg) "NICK" then
    assertEqual (VInt (len (params msg))) (VInt 1) (VMsg msg) None ;;
    n <- getitem (params msg) 0 ;;
    modify (set_nick (Some n)) ;;
    ret false
  else if String.eqb (command msg) "USER" then
    assertEqual (VInt (len (params msg))) (VInt 4) (VMsg msg) None ;;
    modify (set_user (Some (params msg))) ;;
    ret false
  else
    ret true.

(** [self.nick or '*'] *)
Definition nick_or_star (s : ClientCase) : string :=
  match nick s with
  | Some n => if String.eqb n EmptyString then "*" else n
  | None => "*"
  end.

(** [frozenset(m.params[1].split())] *)
Definition requested_of (names : string) : gset string :=
  list_to_set (PyStr.split names).

(** The [while True] of [negotiateCapabilities]. *)
Fixpoint negotiate_loop (fuel : nat) (capability_names : gset string)
    : M ClientCase (option Message) :=
  match fuel with
  | O => fun s => (OutOfFuel, s)
  | S fuel' =>
      m <- getMessage fuel' (Some userNickPredicate) ;;
      if negb (String.eqb (command m) "CAP") then ret (Some m)
      else
        assertGreater (len (params m)) 0 (VMsg m) ;;
        p0 <- getitem (params m) 0 ;;
        if String.eqb p0 "REQ" then
          assertEqual (VInt (len (params m))) (VInt 2) (VMsg m) None ;;
          names <- getitem (params m) 1 ;;
          let requested := requested_of names in
          (if negb (bool_decide (requested ⊆ capability_names)) then
             s <- get ;;
             sendLine ("CAP " +:+ nick_or_star s +:+ " NAK :"
                       +:+ PyStr.take 100 names)
           else
             s <- get ;;
             sendLine ("CAP " +:+ nick_or_star s +:+ " ACK :" +:+ names) ;;
             modify (fun s =>
               set_acked_capabilities (acked_capabilities s ∪ requested) s)) ;;
          negotiate_loop fuel' capability_names
        else ret (Some m)
  end.

(** [not self.protocol_version] *)
Definition no_version (v : option Z) : bool :=
  match v with
  | Some n => (n =? 0)%Z
  | None => true
  end.

(** [ClientNegociationHelper.negotiateCapabilities]; the result is [None]
    when the method returns without a value. *)
Definition negotiateCapabilities (fuel : nat) (caps : list string)
    (cap_ls : bool) : M ClientCase (option Message) :=
  negotiating <-
    (if cap_ls then
       readCapLs fuel ;;
       s <- get ;;
       if no_version (protocol_version s) then ret false
       else (sendLine ("CAP * LS :" +:+ PyStr.join " " caps) ;; ret true)
     else ret true) ;;
  if (negotiating : bool) then
    modify (set_acked_capabilities ∅) ;;
    negotiate_loop fuel (dom (cap_list_to_dict caps))
  else ret None.

End ClientHelpers.

(** The messages that [getMessage] reads and drops before it returns:
    [skipped p s ms m s'] when, from the test case [s], the messages [ms]
    are read in this order and refused by the predicate [p], then [m] is
    read and accepted, which leaves the test case [s']. *)
Inductive skipped (parse_message : string -> exn + Message)
    (p : Message -> M ClientCase bool)
    : ClientCase -> list Message -> Message -> ClientCase -> Prop :=
| skipped_none s m s1 s2 :
    getMessage parse_message 1 None s = (Ret m, s1) ->
    p m s1 = (Ret true, s2) ->
    skipped parse_message p s [] m s2
| skipped_one s m0 s1 s2 ms m s3 :
    getMessage parse_message 1 None s = (Ret m0, s1) ->
    p m0 s1 = (Ret false, s2) ->
    skipped parse_message p s2 ms m s3 ->
    skipped parse_message p s (m0 :: ms) m s3.

(** ** [_IrcTestCase.assertMessageEqual] *)

(** The part of a running [unittest] test case that [subTest] writes: the
    sub-tests that failed, each with the parameters it was opened with
    (here its [key]) and the exception that ended it. *)
Record IrcTestCase := mkIrcTestCase {
  subtest_failures : list (string * exn)
}.

(** The keywords [assertMessageEqual] is called with in [**kwargs]: the
    fields of a [Message]. *)
Inductive field := Ftags | Fprefix | Fcommand | Fparams.

(** [getattr(msg, key)] *)
Definition getattr (msg : Message) (key : field) : pyval :=
  match key with
  | Ftags => VTags (tags msg)
  | Fprefix => VOptStr (prefix msg)
  | Fcommand => VStr (command msg)
  | Fparams => VList (params msg)
  end.

(** [with self.subTest(key=k): body], run by [unittest] without
    [failfast]. An exception raised by the body is recorded for the
    sub-test and the statements after the [with] block run. *)
Definition subTest {A} (key : string) (body : M IrcTestCase A)
    : M IrcTestCase unit :=
  fun s =>
    match body s with
    | (Ret _, s') => (Ret tt, s')
    | (Exc e, s') =>
        (Ret tt, mkIrcTestCase (subtest_failures s' ++ [(key, e)]))
    | (Blocked, s') => (Blocked, s')
    | (OutOfFuel, s') => (OutOfFuel, s')
    end.

(** [if subcommand:] on an argument that is [None] or a string. *)
Definition truthy (o : option string) : bool :=
  match o with
  | Some s => negb (String.eqb s EmptyString)
  | None => false
  end.

(** [x is not None] *)
Definition is_not_None {A} (o : option A) : bool :=
  match o with
  | Some _ => true
  | None => false
  end.

Section Assertions.

Variable str_format : string -> pyval -> pyval -> pyval -> exn + string.

Definition assertMessageEqual (msg : Message) (subcommand : option string)
    (subparams : option (list string)) (target : pyval)
    (fail_msg : option string) (kwargs : list (field * pyval))
    : M IrcTestCase unit :=
  for_each kwargs (fun kv =>
    assertEqual str_format (getattr msg (fst kv)) (snd kv) (VMsg msg) fail_msg) ;;
  if is_not_None subcommand || is_not_None subparams then
    assertGreater (len (params msg)) 2 (VOptStr fail_msg) ;;
    msg_target <- getitem (params msg) 0 ;;
    msg_subcommand <- getitem (params msg) 1 ;;
    let msg_subparams := drop 2 (params msg) in
    (if truthy subcommand then
       subTest "subcommand"
         (assertEqual str_format (VStr msg_subcommand) (VOptStr subcommand)
            (VMsg msg) fail_msg)
     else ret tt) ;;
    match subparams with
    | Some sp =>
        subTest "subparams"
          (assertEqual str_format (VList msg_subparams) (VList sp)
             (VMsg msg) fail_msg)
    | None => ret tt
    end
  else ret tt.

(** The comparisons asked for by keyword all hold. *)
Definition kwargs_hold (msg : Message) (fail_msg : option string)
    (kwargs : list (field * pyval)) : Prop :=
  Forall (fun kv =>
    assertEqual_failure str_format (getattr msg (fst kv)) (snd kv)
      (VMsg msg) fail_msg = None)
    kwargs.

End Assertions.

(** What a sub-test adds to the failures of the test case. *)
Definition reported (key : string) (e : option exn) : list (string * exn) :=
  match e with
  | Some x => [(key, x)]
  | None => []
  end.

(** ** [BaseServerTestCase.assertDisconnected] *)

Module Server.

(** The names bound at module level in [cases.py]: its imports and its
    classes. *)
Definition module_names : list string :=
  ["time"; "socket"; "unittest"; "functools"; "collections"; "supybot";
   "client_mock"; "authentication"; "optional_extensions";
   "message_parser"; "capabilities"; "_IrcTestCase"; "BaseClientTestCase";
   "ClientNegociationHelper"; "BaseServerTestCase"; "OptionalityHelper"].

(** Reading the variable [x] in a method whose local variables are
    [locals]: a local, else a name of the module, else [NameError] (the
    name read below is no builtin either). *)
Definition load_name {St} (locals : list (string * pyval)) (x : string)
    : M St pyval :=
  match list_find (fun kv => fst kv = x) locals with
  | Some (_, (_, v)) => ret v
  | None =>
      if bool_decide (x ∈ module_names) then ret (VObject x)
      else raise (NameError x)
  end.

(** [self.name] for a method that the class may not have. *)
Definition getattr_self {St A} (name : string) (found : option A) : M St A :=
  match found with
  | Some a => ret a
  | None => raise (AttributeError name)
  end.

Section ServerHelpers.

(** [client_mock.ClientMock] and its [sendLine] are not part of
    [cases.py], nor is the parser. *)
Variable ClientMock : Type.
Variable mock_sendLine : string -> ClientMock -> outcome unit * ClientMock.
Variable parse_message : string -> exn + Message.

(** [BaseServerTestCase]: the dictionary [self.clients]. *)
Record ServerCase := mkServerCase {
  clients : gmap string ClientMock
}.

(** What [self.getLines] and [self.getLine] find on the test case: the
    method, or nothing when no class of the test case defines it. *)
Record Lookup := mkLookup {
  found_getLines : option (string -> M ServerCase (list string));
  found_getLine : option (string -> M ServerCase string)
}.

(** [BaseServerTestCase] defines [getMessages], [getMessage],
    [getRegistrationMessage], [sendLine], [getCapLs], [assertDisconnected]
    and [connectClient]; neither it nor [_IrcTestCase] defines [getLines]
    or [getLine]. *)
Definition BaseServerTestCase_lookup : Lookup := mkLookup None None.

(** [BaseServerTestCase.sendLine]:
    [return self.clients[client].sendLine(line)] *)
Definition sendLine (client line : string) : M ServerCase unit :=
  fun s =>
    match clients s !! client with
    | None => (Exc (KeyError client), s)
    | Some c =>
        let (r, c') := mock_sendLine line c in
        (r, mkServerCase (<[client := c']> (clients s)))
    end.

(** [del self.clients[client]] *)
Definition del_client (client : string) : M ServerCase unit :=
  fun s =>
    match clients s !! client with
    | None => (Exc (KeyError client), s)
    | Some _ => (Ret tt, mkServerCase (delete client (clients s)))
    end.

(** The [while True] of [assertDisconnected]. The first argument of its
    first assertion is the variable [line]; the line read is bound to
    [l]. *)
Fixpoint disconnected_loop (self : Lookup) (fuel : nat) (client : string)
    : M ServerCase unit :=
  match fuel with
  | O => fun s => (OutOfFuel, s)
  | S fuel' =>
      getLine <- getattr_self "getLine" (found_getLine self) ;;
      l <- getLine client ;;
      line <- load_name [("client", VStr client); ("l", VStr l)] "line" ;;
      assertNotEqual line (VStr EmptyString) VNone ;;
      m <- lift (parse_message l) ;;
      assertNotEqual (VStr (command m)) (VStr "PONG")
        (VStr "Client not disconnected.") ;;
      disconnected_loop self fuel' client
  end.

(** [BaseServerTestCase.assertDisconnected]: the [try] block, the handler
    of [socket.error] and the [else] clause. *)
Definition assertDisconnected (self : Lookup) (fuel : nat) (client : string)
    : M ServerCase unit :=
  fun s =>
    match (getLines <- getattr_self "getLines" (found_getLines self) ;;
           getLines client ;;
           sendLine client "PING foo" ;;
           disconnected_loop self fuel client) s with
    | (Exc SocketError, s') => del_client client s'
    | (Ret _, s') =>
        (Exc (AssertionError (Raised "Client not disconnected." VNone)), s')
    | (r, s') => (r, s')
    end.

End ServerHelpers.

End Server.

(** ** The message parser and its inverse

    [irc_utils/message_parser.py] is not among the sources; the parser is
    modelled from the specification (its section 4.1 and the wire format of
    its section 6). *)

Module Parser.

Definition has_char (c : ascii) (s : string) : bool :=
  existsb (Ascii.eqb c) (list_ascii_of_string s).

(** [s] up to the first [sep], and the text after that [sep] when there
    is one. *)
Fixpoint cut (sep : ascii) (s : string) : string * option string :=
  match s with
  | EmptyString => (EmptyString, None)
  | String c r =>
      if Ascii.eqb c sep then (EmptyString, Some r)
      else let (a, b) := cut sep r in (String c a, b)
  end.

(** [s] split at every [sep]. *)
Fixpoint split_on (sep : ascii) (s : string) : list string :=
  match s with
  | EmptyString => [EmptyString]
  | String c r =>
      if Ascii.eqb c sep then EmptyString :: split_on sep r
      else match split_on sep r with
           | w :: ws => String c w :: ws
           | [] => [String c EmptyString]
           end
  end.

Fixpoint skip_spaces (s : string) : string :=
  match s with
  | String c r => if Ascii.eqb c " " then skip_spaces r else s
  | EmptyString => EmptyString
  end.

(** Modelled from the spec: the tag escaping table of
    [message_parser], read from the wire: backslash-colon is a semicolon,
    backslash-s a space, backslash-backslash a backslash, backslash-r CR,
    backslash-n LF; a backslash before any other character is dropped. *)
Definition unescape_char (x : ascii) : ascii :=
  if Ascii.eqb x ":" then ";"%char
  else if Ascii.eqb x "s" then " "%char
  else if Ascii.eqb x "r" then PyStr.CR
  else if Ascii.eqb x "n" then PyStr.LF
  else x.

(** Modelled from the spec: unescaping of a tag value in
    [message_parser]; a lone trailing backslash is dropped. *)
Fixpoint unescape (s : string) : string :=
  match s with
  | EmptyString => EmptyString
  | String c rest =>
      if Ascii.eqb c "\" then
        match rest with
        | EmptyString => EmptyString
        | String x rest' => String (unescape_char x) (unescape rest')
        end
      else String c (unescape rest)
  end.

(** Modelled from the spec: the tag escaping table of
    [message_parser], written to the wire. *)
Definition escape_char (c : ascii) : string :=
  if Ascii.eqb c ";" then "\:"
  else if Ascii.eqb c " " then "\s"
  else if Ascii.eqb c "\" then "\\"
  else if Ascii.eqb c PyStr.CR then "\r"
  else if Ascii.eqb c PyStr.LF then "\n"
  else String c EmptyString.

Fixpoint escape (s : string) : string :=
  match s with
  | EmptyString => EmptyString
  | String c r => escape_char c +:+ escape r
  end.

(** Modelled from the spec: one entry of the tag block of
    [message_parser], split at its first [=]; the value is empty when
    there is no [=]. An entry without a key is malformed. *)
Definition parse_tag (entry : string) : option (string * string) :=
  let (k, v) := cut "=" entry in
  if String.eqb k EmptyString then None
  else Some (k, unescape (default EmptyString v)).

Fixpoint tags_of (entries : list string) (acc : gmap string string)
    : option (gmap string string) :=
  match entries with
  | [] => Some acc
  | e :: es =>
      match parse_tag e with
      | Some (k, v) => tags_of es (<[k := v]> acc)
      | None => None
      end
  end.

(** Modelled from the spec: the tag block of [message_parser], split
    at every [;]. *)
Definition parse_tags (block : string) : option (gmap string string) :=
  tags_of (split_on ";" block) ∅.

(** Modelled from the spec: the parameters of [message_parser]: the
    text is split at spaces, runs of spaces giving no empty parameter; a
    parameter that begins with a colon takes the rest of the line, the
    colon removed. [cur] is the parameter being read. *)
Fixpoint params_from (cur : option string) (s : string) : list string :=
  match s with
  | EmptyString => PyStr.flush cur
  | String c r =>
      if Ascii.eqb c " " then PyStr.flush cur ++ params_from None r
      else if Ascii.eqb c ":" && negb (is_not_None cur) then [r]
      else params_from (PyStr.push cur c) r
  end.

(** Modelled from the spec: [message_parser.parse_message] after the
    tag block: spaces are skipped, a leading colon opens the prefix, which
    ends at the next space; then comes the command, which is stored as it
    is written and may not be empty, and the parameters. [t] is the result
    of the tag block. *)
Definition parse_from (t : option (gmap string string)) (rest1 : string)
    : exn + Message :=
  let rest2 := skip_spaces rest1 in
  let '(pfx, rest3) :=
    match rest2 with
    | String c r =>
        if Ascii.eqb c ":" then
          let (p, r') := cut " " r in (Some p, default EmptyString r')
        else (None, rest2)
    | EmptyString => (None, rest2)
    end in
  let (cmd, rest4) := cut " " (skip_spaces rest3) in
  match t with
  | None => inl ParseError
  | Some t =>
      if String.eqb cmd EmptyString then inl ParseError
      else inr (mkMessage t pfx cmd
                  (params_from None (default EmptyString rest4)))
  end.

(** Modelled from the spec: [message_parser.parse_message] on a line
    without its terminator: after a leading [@] the tag block runs to the
    first space. *)
Definition parse (line : string) : exn + Message :=
  match line with
  | String c r =>
      if Ascii.eqb c "@" then
        let (b, r') := cut " " r in
        parse_from (parse_tags b) (default EmptyString r')
      else parse_from (Some ∅) line
  | EmptyString => parse_from (Some ∅) line
  end.

(** Modelled from the spec: the serialisation of a [Message] that the
    round trip of [message_parser] speaks of, following the wire format:
    [@tags], [:prefix], the command, the parameters separated by single
    spaces, the last one after a colon when it is empty, begins with a
    colon or holds a space. *)
Definition ser_tag (kv : string * string) : string :=
  fst kv +:+ "=" +:+ escape (snd kv).

Definition ser_tags (t : gmap string string) : string :=
  match map_to_list t with
  | [] => EmptyString
  | l => "@" +:+ PyStr.join ";" (ser_tag <$> l) +:+ " "
  end.

Definition ser_prefix (p : option string) : string :=
  match p with
  | Some x => ":" +:+ x +:+ " "
  | None => EmptyString
  end.

Definition needs_colon (p : string) : bool :=
  String.eqb p EmptyString || PyStr.startswith p ":" || has_char " " p.

Fixpoint ser_params (ps : list string) : string :=
  match ps with
  | [] => EmptyString
  | [p] => " " +:+ (if needs_colon p then ":" +:+ p else p)
  | p :: ps' => " " +:+ p +:+ ser_params ps'
  end.

Definition serialize (m : Message) : string :=
  ser_tags (tags m) +:+ ser_prefix (prefix m) +:+ command m
  +:+ ser_params (params m).

(** One more entry in a map of tags. *)
Definition put (acc : gmap string string) (kv : string * string)
    : gmap string string :=
  <[fst kv := snd kv]> acc.

(** A parameter that may stand before the last one: not empty, without a
    space, not beginning with a colon. *)
Definition middle_ok (p : string) : bool := negb (needs_colon p).

(** The messages called legal: a command that is not empty, and
    parameters of which only the last may be empty, begin with a colon or
    hold a space. Tags and prefix are free. *)
Definition legal_as_claimed (m : Message) : bool :=
  negb (String.eqb (command m) EmptyString)
  && forallb middle_ok (removelast (params m)).

(** A tag key that survives the wire: not empty, without space, semicolon
    or equals sign. *)
Definition key_ok (k : string) : bool :=
  negb (String.eqb k EmptyString)
  && negb (has_char " " k) && negb (has_char ";" k) && negb (has_char "=" k).

(** A command that survives the wire: without space and beginning with
    neither a colon nor an at sign. *)
Definition command_ok (c : string) : bool :=
  negb (has_char " " c)
  && negb (PyStr.startswith c ":") && negb (PyStr.startswith c "@").

Definition prefix_ok (p : option string) : bool :=
  match p with
  | Some x => negb (has_char " " x)
  | None => true
  end.

Definition legal (m : Message) : bool :=
  legal_as_claimed m
  && command_ok (command m) && prefix_ok (prefix m)
  && forallb (fun kv => key_ok (fst kv)) (map_to_list (tags m)).

End Parser.

(** A parser for the examples: the line without its terminator, parsed
    as above. *)
Definition parse_line (line : string) : exn + Message :=
  Parser.parse (PyStr.chop PyStr.CRLF line).

(** A [str.format] for the examples: the template unchanged. *)
Definition format_plain (f : string) (got expects msg : pyval)
    : exn + string := inr f.

(** A [cap_list_to_dict] for the examples: a capability is a name, or a
    name and a value separated by [=]. *)
Definition cap_dict (caps : list string) : gmap string (option string) :=
  list_to_map ((fun c => Parser.cut "=" c) <$> caps).

(** A client test case for the examples: the peer sends [input] and
    closes the connection; nothing is echoed. *)
Definition case0 (input : string) : ClientCase :=
  mkClientCase false [] (mkConn input EOF false []) None None None ∅.

(** ** Statements that do not hold of the code as they are written *)

(** [getLine] as it is described: on every test case it returns a line
    without terminator, or fails with a connection error; at the end of
    the stream it fails. *)
Definition getLine_strips_and_fails_at_eof : Prop :=
  forall s : ClientCase,
    match getLine s with
    | (Ret line, _) =>
        PyStr.endswith line PyStr.CRLF = false /\
        PyStr.endswith line (String PyStr.LF EmptyString) = false /\
        (inbound (conn s) = EmptyString -> closing (conn s) <> EOF)
    | (Exc e, _) => e = SocketError
    | (_, _) => closing (conn s) = Silent
    end.

(** The mode with sub-command as it is described: when the sub-command
    and the sub-parameters of the message both differ from the expected
    ones, both sub-tests are reported as failed. *)
Definition subcommand_mode_as_claimed : Prop :=
  forall (msg : Message) (sc : string) (sp : list string)
         (t c : string) (sps : list string) (s : IrcTestCase),
    params msg = t :: c :: sps -> sps <> [] ->
    c <> sc -> sps <> sp ->
    exists e1 e2,
      assertMessageEqual format_plain msg (Some sc) (Some sp) VNone None [] s
      = (Ret tt, mkIrcTestCase (subtest_failures s
                                  ++ [("subcommand", e1); ("subparams", e2)])).

(** The round trip as it is described: every message called legal is
    parsed back from its serialisation. *)
Definition round_trip_as_claimed : Prop :=
  forall m : Message,
    Parser.legal_as_claimed m = true ->
    Parser.parse (Parser.serialize m) = inr m.

(** ** The tests of [client_tests/test_cap.py] *)

(** [m] when [m] is a message or [None]. *)
Definition VOptMsg (o : option Message) : pyval :=
  match o with Some m => VMsg m | None => VNone end.

Section CapTestCase.

Variable parse_message : string -> exn + Message.
Variable str_format : string -> pyval -> pyval -> pyval -> exn + string.
Variable cap_list_to_dict : list string -> gmap string (option string).

(** [CapTestCase.testSendCap] *)
Definition testSendCap (fuel : nat) : M ClientCase unit :=
  readCapLs parse_message str_format fuel.

(** [CapTestCase.testEmptyCapLs] *)
Definition testEmptyCapLs (fuel : nat) : M ClientCase unit :=
  m <- negotiateCapabilities parse_message str_format cap_list_to_dict
         fuel [] true ;;
  assertEqual str_format (VOptMsg m)
    (VMsg (mkMessage ∅ None "CAP" ["END"])) VNone None.

End CapTestCase.

(** ** [BaseServerTestCase]: the clients of a server test

    A client is known by the name [addClient] was given, a string, or by
    the integer [addClient] chose. [self.clients] is a dictionary: it keeps
    one entry for a name, in the order the names were first set. *)

Module BaseServer.

Inductive name := NInt (n : Z) | NStr (s : string).

#[global] Instance name_eq_dec : EqDecision name.
Proof. solve_decision. Defined.

(** [not name] for a name or [None]. *)
Definition falsy (n : option name) : bool :=
  match n with
  | None => true
  | Some (NInt z) => (z =? 0)%Z
  | Some (NStr s) => String.eqb s EmptyString
  end.

(** [d[k]], [d[k] = v] and [del d[k]] on a dictionary held as the list of
    its items. *)
Fixpoint od_get {V} (k : name) (d : list (name * V)) : option V :=
  match d with
  | [] => None
  | (k', v) :: d' => if decide (k' = k) then Some v else od_get k d'
  end.

Fixpoint od_set {V} (k : name) (v : V) (d : list (name * V))
    : list (name * V) :=
  match d with
  | [] => [(k, v)]
  | (k', v') :: d' =>
      if decide (k' = k) then (k, v) :: d' else (k', v') :: od_set k v d'
  end.

Fixpoint od_del {V} (k : name) (d : list (name * V)) : list (name * V) :=
  match d with
  | [] => []
  | (k', v') :: d' =>
      if decide (k' = k) then d' else (k', v') :: od_del k d'
  end.

(** [max(zs + [0])] *)
Definition max_with_0 (zs : list Z) : Z := foldr Z.max 0%Z zs.

(** An [assert] without message that fails. *)
Definition assert_failed : exn := AssertionError (Raised EmptyString VNone).

(** [ValueError], raised by [int] on text that is no integer. *)
Definition ValueError : exn := OtherError "ValueError".

Section Methods.

(** [client_mock.ClientMock], with its constructor and its methods
    [connect] (to the host and port of the test), [disconnect], [sendLine]
    and [getMessage] (with the keywords [synchronize] and [filter_pred],
    each given or not), is not part of [cases.py]; nor are the controller,
    [irctest.numerics] and [capabilities]. [int] on a string gives the
    integer it reads, or nothing when it raises [ValueError]. *)
Variable ClientMock : Type.
Variable new_mock : name -> bool -> ClientMock.
Variable mock_connect : ClientMock -> outcome unit * ClientMock.
Variable mock_disconnect : ClientMock -> outcome unit * ClientMock.
Variable mock_sendLine : string -> ClientMock -> outcome unit * ClientMock.
Variable mock_getMessage :
  option bool -> option (Message -> bool) -> ClientMock ->
  outcome Message * ClientMock.
Variable controller_kill : exn + unit.
Variable int_of_str : string -> option Z.
Variable str_format : string -> pyval -> pyval -> pyval -> exn + string.
Variable cap_list_to_dict : list string -> gmap string (option string).
Variable RPL_LIST RPL_LISTEND : string.

(** A server test case: the sub-tests reported, the flag [show_io] and the
    dictionary [clients]. *)
Record ServerTest := mkServerTest {
  base : IrcTestCase;
  show_io : bool;
  clients : list (name * ClientMock)
}.

Definition set_clients (d : list (name * ClientMock)) (s : ServerTest)
    : ServerTest :=
  mkServerTest (base s) (show_io s) d.

(** A method of [_IrcTestCase] called on the server test case. *)
Definition on_base {A} (c : M IrcTestCase A) : M ServerTest A :=
  fun s =>
    let (r, b) := c (base s) in (r, mkServerTest b (show_io s) (clients s)).

(** [int(k)] for a key of [self.clients]. *)
Definition int_of_name (k : name) : option Z :=
  match k with
  | NInt z => Some z
  | NStr t => int_of_str t
  end.

(** A method of the client [client], called on [self.clients[client]]. *)
Definition on_client {A} (client : name)
    (method : ClientMock -> outcome A * ClientMock) : M ServerTest A :=
  fun s =>
    match od_get client (clients s) with
    | None => (Exc (KeyError EmptyString), s)
    | Some c =>
        let (r, c') := method c in
        (r, set_clients (od_set client c' (clients s)) s)
    end.

(** [BaseServerTestCase.addClient] *)
Definition addClient (nm : option name) (show : option bool)
    : M ServerTest name :=
  n <- (if falsy nm then
          s <- get ;;
          match mapM int_of_name (fst <$> clients s) with
          | Some zs => ret (NInt (max_with_0 zs + 1))
          | None => raise ValueError
          end
        else ret (default (NInt 0) nm)) ;;
  s <- get ;;
  let show' := default (show_io s) show in
  modify (fun s => set_clients (od_set n (new_mock n show') (clients s)) s) ;;
  on_client n mock_connect ;;
  ret n.

(** [BaseServerTestCase.removeClient] *)
Definition removeClient (nm : name) : M ServerTest unit :=
  s <- get ;;
  (if is_not_None (od_get nm (clients s)) then ret tt
   else raise assert_failed) ;;
  on_client nm mock_disconnect ;;
  modify (fun s => set_clients (od_del nm (clients s)) s).

(** [BaseServerTestCase.tearDown] *)
Definition tearDown : M ServerTest unit :=
  lift controller_kill ;;
  s <- get ;;
  for_each (fst <$> clients s) removeClient.

(** [BaseServerTestCase.getMessage] and [BaseServerTestCase.sendLine] *)
Definition getMessage (client : name) (synchronize : option bool)
    (filter_pred : option (Message -> bool)) : M ServerTest Message :=
  on_client client (mock_getMessage synchronize filter_pred).

Definition sendLine (client : name) (line : string) : M ServerTest unit :=
  on_client client (mock_sendLine line).

(** [BaseServerTestCase.getRegistrationMessage], with its filter
    [lambda m: m.command != 'NOTICE']. *)
Definition not_NOTICE (m : Message) : bool :=
  negb (String.eqb (command m) "NOTICE").

Definition getRegistrationMessage (client : name) : M ServerTest Message :=
  getMessage client (Some false) (Some not_NOTICE).

(** What [getCapLs] returns: the list, or the dictionary made of it. *)
Inductive capabilities := CapList (l : list string)
                        | CapDict (d : gmap string (option string)).

(** [BaseServerTestCase.getCapLs]: its [while True], with the list [caps]
    read so far. *)
Fixpoint getCapLs_loop (fuel : nat) (client : name) (as_list : bool)
    (caps : list string) : M ServerTest capabilities :=
  match fuel with
  | O => fun s => (OutOfFuel, s)
  | S fuel' =>
      m <- getRegistrationMessage client ;;
      on_base (assertMessageEqual str_format m (Some "LS") None VNone None
                 [(Fcommand, VStr "CAP")]) ;;
      p2 <- getitem (params m) 2 ;;
      if String.eqb p2 "*" then
        p3 <- getitem (params m) 3 ;;
        getCapLs_loop fuel' client as_list (caps ++ PyStr.split p3)
      else
        let caps' := caps ++ PyStr.split p2 in
        ret (if as_list then CapList caps'
             else CapDict (cap_list_to_dict caps'))
  end.

Definition getCapLs (fuel : nat) (client : name) (as_list : bool)
    : M ServerTest capabilities :=
  getCapLs_loop fuel client as_list [].

(** [ListTestCase._parseChanList] of [server_tests/list.py]: its
    [while True], with the set [channels] built so far. *)
Fixpoint parseChanList_loop (fuel : nat) (client : name)
    (channels : gset string) : M ServerTest (gset string) :=
  match fuel with
  | O => fun s => (OutOfFuel, s)
  | S fuel' =>
      m <- getMessage client None None ;;
      if String.eqb (command m) RPL_LISTEND then ret channels
      else if String.eqb (command m) RPL_LIST then
        p1 <- getitem (params m) 1 ;;
        if PyStr.startswith p1 "&" then
          parseChanList_loop fuel' client channels
        else parseChanList_loop fuel' client (channels ∪ {[p1]})
      else parseChanList_loop fuel' client channels
  end.

Definition _parseChanList (fuel : nat) (client : name)
    : M ServerTest (gset string) :=
  parseChanList_loop fuel client ∅.

(** The channel that a message adds to the set of [_parseChanList]. *)
Definition listed (m : Message) : option string :=
  if String.eqb (command m) RPL_LIST then
    match params m !! 1 with
    | Some p1 => if PyStr.startswith p1 "&" then None else Some p1
    | None => None
    end
  else None.

End Methods.

(** The messages that successive calls of a client's [getMessage] return:
    [yields next c ms c'] when, from the client [c], the calls return the
    messages [ms] in this order and leave the client [c']. *)
Inductive yields {C} (next : C -> outcome Message * C)
    : C -> list Message -> C -> Prop :=
| yields_nil c : yields next c [] c
| yields_cons c m c1 ms c2 :
    next c = (Ret m, c1) -> yields next c1 ms c2 ->
    yields next c (m :: ms) c2.

(** A line of a reply to [CAP LS] that announces more lines: the command
    [CAP] and the parameters target, sub-command, [*] and the capabilities
    [text]. *)
Definition continues (text : string) (m : Message) : Prop :=
  command m = "CAP" /\
  exists target sub rest, params m = target :: sub :: "*" :: text :: rest.

(** The last line of a reply to [CAP LS]: the command [CAP] and the
    parameters target, sub-command and the capabilities [text]. *)
Definition ends (text : string) (m : Message) : Prop :=
  command m = "CAP" /\ text <> "*" /\
  exists target sub rest, params m = target :: sub :: text :: rest.

(** What the sub-test [subcommand] of [getCapLs] reports for a message:
    nothing when its second parameter is [LS]. *)
Definition LS_failure (m : Message) : list (string * exn) :=
  match params m !! 1 with
  | Some sub =>
      if decide (sub = "LS") then []
      else [("subcommand",
             AssertionError (NotEqual (VStr sub) (VStr "LS") VNone))]
  | None => []
  end.

(** For the examples: a client that stands for the messages it has still
    to return, the ones its filter refuses being dropped. *)
Fixpoint next_message (synchronize : option bool)
    (filter_pred : option (Message -> bool)) (c : list Message)
    : outcome Message * list Message :=
  match c with
  | [] => (Blocked, [])
  | m :: c' =>
      if default (fun _ => true) filter_pred m then (Ret m, c')
      else next_message synchronize filter_pred c'
  end.

End BaseServer.

(** * Properties *)

(** ** Facts about the string operations *)

Lemma append_cons (c : ascii) (s t : string) :
  String c s +:+ t = String c (s +:+ t).
Proof. reflexivity. Qed.

Lemma append_nil_l (t : string) : EmptyString +:+ t = t.
Proof. reflexivity. Qed.

Ltac str_simpl := rewrite ?append_cons, ?append_nil_l in *; simpl in *.

Lemma append_nil_r (s : string) : s +:+ EmptyString = s.
Proof. induction s as [|c s IH]; str_simpl; [reflexivity | now rewrite IH]. Qed.

Lemma append_assoc (a b c : string) : (a +:+ b) +:+ c = a +:+ (b +:+ c).
Proof. induction a as [|x a IH]; str_simpl; [reflexivity | now rewrite IH]. Qed.

Ltac str_norm :=
  repeat first [rewrite append_assoc | rewrite append_cons
               | rewrite append_nil_l].

Lemma length_append (a b : string) :
  String.length (a +:+ b) = String.length a + String.length b.
Proof. induction a as [|x a IH]; str_simpl; [reflexivity | now rewrite IH]. Qed.

Lemma take_append (a b : string) : PyStr.take (String.length a) (a +:+ b) = a.
Proof.
  induction a as [|x a IH]; str_simpl; [now destruct b | now rewrite IH].
Qed.

Lemma endswith_cons (c : ascii) (s suf : string) :
  PyStr.endswith (String c s) suf
  = String.eqb (String c s) suf || PyStr.endswith s suf.
Proof. reflexivity. Qed.

Lemma endswith_split (s suf : string) :
  PyStr.endswith s suf = true -> exists p, s = p +:+ suf.
Proof.
  induction s as [|c s IH]; intros H.
  - destruct suf; [|discriminate]. now exists EmptyString.
  - rewrite endswith_cons in H. apply orb_true_iff in H as [H|H].
    + apply String.eqb_eq in H. exists EmptyString. now subst.
    + destruct (IH H) as [p ->]. now exists (String c p).
Qed.

Lemma endswith_append (p suf : string) : PyStr.endswith (p +:+ suf) suf = true.
Proof.
  induction p as [|c p IH].
  - rewrite append_nil_l. destruct suf; [reflexivity|].
    rewrite endswith_cons, String.eqb_refl. reflexivity.
  - rewrite append_cons, endswith_cons, IH. apply orb_true_r.
Qed.

Lemma chop_append (s suf : string) :
  PyStr.endswith s suf = true -> s = PyStr.chop suf s +:+ suf.
Proof.
  intros H. unfold PyStr.chop. rewrite H.
  destruct (endswith_split _ _ H) as [p ->].
  rewrite length_append.
  replace (String.length p + String.length suf - String.length suf)
    with (String.length p) by lia.
  now rewrite take_append.
Qed.

Lemma encode_append (a b : string) :
  PyStr.encode (a +:+ b) = PyStr.encode a ++ PyStr.encode b.
Proof.
  induction a as [|c a IH]; str_simpl; [reflexivity|].
  now rewrite IH, app_assoc.
Qed.

(** ** [sendLine] *)

(** The arguments of the [sendall] calls that [sendLine text] makes. *)
Lemma sendLine_run (text : string) (s : ClientCase) :
  broken (conn s) = false ->
  exists s',
    sendLine text s = (Ret tt, s') /\
    conn s' = mkConn (inbound (conn s)) (closing (conn s)) false
                (sent (conn s) ++ PyStr.encode text ::
                   (if PyStr.endswith text PyStr.CRLF then []
                    else [PyStr.bCRLF])) /\
    nick s' = nick s /\ user s' = user s /\
    protocol_version s' = protocol_version s /\
    acked_capabilities s' = acked_capabilities s.
Proof.
  intros Hb. unfold sendLine, bind, sendall, get, print, modify, ret.
  rewrite Hb. destruct (PyStr.endswith text PyStr.CRLF); cbn; rewrite ?Hb;
    destruct (show_io s); cbn; eexists; (split; [reflexivity|]);
    cbn; rewrite <- ?app_assoc; cbn; repeat split; reflexivity.
Qed.

(** On a connection that refuses writes nothing is sent and the error of
    the socket reaches the caller. *)
Lemma sendLine_broken (text : string) (s : ClientCase) :
  broken (conn s) = true -> sendLine text s = (Exc SocketError, s).
Proof.
  intros Hb. unfold sendLine, bind, sendall. now rewrite Hb.
Qed.

(** C8. [sendLine text] writes the encoded [text] and, exactly when [text]
    does not end with CR LF, writes CR LF after it: the bytes sent by the
    call are the text without a final CR LF, followed by one CR LF. *)
Theorem sendLine_terminates_line_once (text : string) (s : ClientCase) :
  broken (conn s) = false ->
  exists s',
    sendLine text s = (Ret tt, s') /\
    sent (conn s') =
      sent (conn s) ++ PyStr.encode text ::
        (if PyStr.endswith text PyStr.CRLF then [] else [PyStr.bCRLF]) /\
    concat (sent (conn s')) =
      concat (sent (conn s)) ++
        PyStr.encode (PyStr.chop PyStr.CRLF text) ++ PyStr.bCRLF.
Proof.
  intros Hb. destruct (sendLine_run text s Hb) as (s' & Hrun & Hconn & _).
  exists s'. split; [exact Hrun|]. rewrite Hconn. simpl.
  split; [reflexivity|].
  rewrite concat_app. f_equal. simpl.
  destruct (PyStr.endswith text PyStr.CRLF) eqn:He; simpl.
  - rewrite app_nil_r. rewrite (chop_append _ _ He) at 1.
    now rewrite encode_append.
  - unfold PyStr.chop. now rewrite He.
Qed.

Lemma sendLine_terminates_line_once_witness :
  (exists s',
     sendLine "PING foo" (case0 EmptyString) = (Ret tt, s') /\
     sent (conn s') = [PyStr.encode "PING foo"; PyStr.bCRLF] /\
     concat (sent (conn s')) = PyStr.encode "PING foo" ++ PyStr.bCRLF) /\
  (exists s',
     sendLine ("PING foo" +:+ PyStr.CRLF) (case0 EmptyString) = (Ret tt, s') /\
     sent (conn s') = [PyStr.encode ("PING foo" +:+ PyStr.CRLF)] /\
     concat (sent (conn s')) = PyStr.encode "PING foo" ++ PyStr.bCRLF).
Proof.
  split.
  - exact (sendLine_terminates_line_once "PING foo" (case0 EmptyString) eq_refl).
  - exact (sendLine_terminates_line_once ("PING foo" +:+ PyStr.CRLF)
             (case0 EmptyString) eq_refl).
Defined.

(** ** [getLine] *)

Lemma contains_cons (c : ascii) (s sub : string) :
  PyStr.contains (String c s) sub
  = PyStr.startswith (String c s) sub || PyStr.contains s sub.
Proof. reflexivity. Qed.

Lemma readline_split_cons (c : ascii) (s' : string) :
  readline_split (String c s') =
  match s' with
  | String d r =>
      if Ascii.eqb c PyStr.CR && Ascii.eqb d PyStr.LF
      then Some (PyStr.CRLF, r)
      else match readline_split s' with
           | Some (l, r') => Some (String c l, r')
           | None => None
           end
  | EmptyString => None
  end.
Proof. reflexivity. Qed.

Lemma startswith_CRLF (c d : ascii) (r : string) :
  PyStr.startswith (String c (String d r)) PyStr.CRLF
  = Ascii.eqb c PyStr.CR && Ascii.eqb d PyStr.LF.
Proof.
  cbn. replace (PyStr.startswith r EmptyString) with true by now destruct r.
  now rewrite andb_true_r, (Ascii.eqb_sym PyStr.CR c), (Ascii.eqb_sym PyStr.LF d).
Qed.

(** Text without CR LF holds no complete line. *)
Lemma readline_split_no_line (s : string) :
  PyStr.contains s PyStr.CRLF = false -> readline_split s = None.
Proof.
  induction s as [|c s IH]; intros H; [reflexivity|].
  rewrite readline_split_cons. destruct s as [|d r]; [reflexivity|].
  rewrite contains_cons, startswith_CRLF in H.
  apply orb_false_iff in H as [H1 H2]. rewrite H1. now rewrite (IH H2).
Qed.

(** The first line ends at the first CR LF and keeps it. *)
Lemma readline_split_first_line (body rest : string) :
  PyStr.contains body PyStr.CRLF = false ->
  readline_split (body +:+ PyStr.CRLF +:+ rest)
  = Some (body +:+ PyStr.CRLF, rest).
Proof.
  induction body as [|c body IH]; intros H; [reflexivity|].
  rewrite !append_cons, readline_split_cons.
  destruct body as [|d body'].
  - rewrite append_nil_l. change (PyStr.CRLF +:+ rest)
      with (String PyStr.CR (String PyStr.LF rest)).
    destruct (Ascii.eqb c PyStr.CR); reflexivity.
  - rewrite contains_cons, startswith_CRLF in H.
    apply orb_false_iff in H as [H1 H2].
    rewrite append_cons, H1.
    rewrite <- append_cons. now rewrite (IH H2).
Qed.

Lemma getLine_run (s : ClientCase) :
  getLine s =
  match readline s with
  | (Ret line, s1) =>
      (Ret line,
       if show_io s1
       then set_stdout (stdout s1 ++ ["C: " +:+ PyStr.strip line]) s1
       else s1)
  | (Exc e, s1) => (Exc e, s1)
  | (Blocked, s1) => (Blocked, s1)
  | (OutOfFuel, s1) => (OutOfFuel, s1)
  end.
Proof.
  unfold getLine, bind. destruct (readline s) as [[line| | |] s1]; try reflexivity.
  unfold get. destruct (show_io s1); reflexivity.
Qed.

(** C3, as amended. [getLine] returns the next line of the connection with
    its CR LF (a LF alone ends no line); when the peer has closed the
    connection it returns the text that is left, terminated or not, which
    is the empty string once everything is read; when the read fails, the
    error of the socket reaches the caller. *)
Theorem getLine_keeps_terminator (s : ClientCase) (body rest : string) :
  PyStr.contains body PyStr.CRLF = false ->
  (inbound (conn s) = body +:+ PyStr.CRLF +:+ rest ->
   exists s', getLine s = (Ret (body +:+ PyStr.CRLF), s') /\
              inbound (conn s') = rest /\
              closing (conn s') = closing (conn s)) /\
  (inbound (conn s) = body -> closing (conn s) = EOF ->
   exists s', getLine s = (Ret body, s') /\
              inbound (conn s') = EmptyString /\
              closing (conn s') = EOF) /\
  (inbound (conn s) = body -> closing (conn s) = Reset ->
   getLine s = (Exc SocketError, s)).
Proof.
  intros Hb. repeat split.
  - intros Hin. rewrite getLine_run. unfold readline.
    rewrite Hin, (readline_split_first_line _ _ Hb).
    eexists. split; [reflexivity|].
    destruct (show_io _); split; reflexivity.
  - intros Hin Hc. rewrite getLine_run. unfold readline.
    rewrite Hin, (readline_split_no_line _ Hb), Hc.
    eexists. split; [reflexivity|].
    destruct (show_io _); split; reflexivity.
  - intros Hin Hc. rewrite getLine_run. unfold readline.
    now rewrite Hin, (readline_split_no_line _ Hb), Hc.
Qed.

Lemma getLine_keeps_terminator_witness :
  (exists s', getLine (case0 ("PING foo" +:+ PyStr.CRLF +:+ "rest"))
              = (Ret ("PING foo" +:+ PyStr.CRLF), s') /\
              inbound (conn s') = "rest" /\ closing (conn s') = EOF) /\
  (exists s', getLine (case0 EmptyString) = (Ret EmptyString, s') /\
              inbound (conn s') = EmptyString /\ closing (conn s') = EOF).
Proof.
  split.
  - exact (proj1 (getLine_keeps_terminator
             (case0 ("PING foo" +:+ PyStr.CRLF +:+ "rest")) "PING foo" "rest"
             eq_refl) eq_refl).
  - exact (proj1 (proj2 (getLine_keeps_terminator
             (case0 EmptyString) EmptyString EmptyString eq_refl))
             eq_refl eq_refl).
Defined.

(** C3, as stated, fails: the line that [getLine] returns ends with CR LF,
    and at the end of the stream [getLine] returns the empty string. *)
Lemma getLine_returns_terminator_and_empty_at_eof :
  ~ getLine_strips_and_fails_at_eof.
Proof.
  intros H. specialize (H (case0 ("PING foo" +:+ PyStr.CRLF))).
  cbn in H. destruct H as [H _]. discriminate H.
Qed.

Example getLine_at_eof :
  fst (getLine (case0 EmptyString)) = Ret EmptyString.
Proof. reflexivity. Qed.

(** ** [getMessage] *)

Section GetMessage.

Variable parse_message : string -> exn + Message.

(** Reading and parsing one message: [getMessage] without predicate. *)
Lemma getMessage_no_pred (fuel : nat) (s : ClientCase) :
  getMessage parse_message (S fuel) None s
  = getMessage parse_message 1 None s.
Proof. reflexivity. Qed.

Lemma getMessage_unfold (fuel : nat) (p : Message -> M ClientCase bool)
    (s : ClientCase) :
  getMessage parse_message (S fuel) (Some p) s =
  propagate (getMessage parse_message 1 None s) (fun m s1 =>
    propagate (p m s1) (fun keep s2 =>
      if keep then (Ret m, s2)
      else getMessage parse_message fuel (Some p) s2)).
Proof.
  cbn [getMessage]. unfold bind, propagate, ret.
  destruct (getLine s) as [[line| | |] s1]; try reflexivity.
  destruct (lift (parse_message line) s1) as [[m| | |] s2]; try reflexivity.
  destruct (p m s2) as [[[|]| | |] s3]; reflexivity.
Qed.

(** With enough fuel [getMessage] returns the message that follows the
    skipped ones. *)
Lemma getMessage_skipped (p : Message -> M ClientCase bool)
    (s : ClientCase) (ms : list Message) (m : Message) (s' : ClientCase) :
  skipped parse_message p s ms m s' ->
  forall fuel, length ms < fuel ->
    getMessage parse_message fuel (Some p) s = (Ret m, s').
Proof.
  induction 1 as [s m s1 s2 Hread Hp | s m0 s1 s2 ms m s3 Hread Hp _ IH];
    intros [|fuel] Hlen; simpl in Hlen; try lia;
    rewrite getMessage_unfold, Hread; cbn; rewrite Hp; cbn.
  - reflexivity.
  - apply IH. lia.
Qed.

(** Whatever [getMessage] returns was reached in this way. *)
Lemma getMessage_returns_skipped (p : Message -> M ClientCase bool)
    (fuel : nat) (s : ClientCase) (m : Message) (s' : ClientCase) :
  getMessage parse_message fuel (Some p) s = (Ret m, s') ->
  exists ms, length ms < fuel /\ skipped parse_message p s ms m s'.
Proof.
  revert s. induction fuel as [|fuel IH]; intros s H; [discriminate|].
  rewrite getMessage_unfold in H.
  destruct (getMessage parse_message 1 None s) as [[m0| | |] s1] eqn:Hread;
    cbn in H; try discriminate.
  destruct (p m0 s1) as [[[|]| | |] s2] eqn:Hp; cbn in H; try discriminate.
  - injection H as <- <-. exists []. split; [simpl; lia|].
    now apply skipped_none with s1.
  - destruct (IH _ H) as (ms & Hlen & Hsk). exists (m0 :: ms).
    split; [simpl; lia|]. now apply skipped_one with s1 s2.
Qed.

(** C5. When the predicate accepts the first message parsed, [getMessage]
    returns the message that it returns without predicate; in general it
    returns the first message parsed that the predicate accepts, after
    dropping the messages before it, which the predicate refused. *)
Theorem getMessage_returns_first_accepted
    (p : Message -> M ClientCase bool)
    (s : ClientCase) (ms : list Message) (m : Message) (s' : ClientCase) :
  skipped parse_message p s ms m s' ->
  (forall fuel, length ms < fuel ->
     getMessage parse_message fuel (Some p) s = (Ret m, s')) /\
  (ms = [] ->
     forall fuel,
       fst (getMessage parse_message (S fuel) None s) = Ret m /\
       fst (getMessage parse_message (S fuel) (Some p) s) = Ret m).
Proof.
  intros Hsk. split; [now apply getMessage_skipped|].
  intros -> fuel. split.
  - inversion Hsk as [s0 m0 s1 s2 Hread Hp|]; subst.
    now rewrite getMessage_no_pred, Hread.
  - rewrite (getMessage_skipped p s [] m s' Hsk (S fuel)); [reflexivity|].
    simpl; lia.
Qed.

End GetMessage.

Ltac run := vm_compute; reflexivity.

Lemma getMessage_returns_first_accepted_witness :
  getMessage parse_line 3 (Some (userNickPredicate format_plain))
    (case0 ("NICK foo" +:+ PyStr.CRLF +:+ "USER u * * :Real name"
            +:+ PyStr.CRLF +:+ "CAP END" +:+ PyStr.CRLF))
  = (Ret (mkMessage ∅ None "CAP" ["END"]),
     mkClientCase false [] (mkConn EmptyString EOF false [])
       (Some "foo") (Some ["u"; "*"; "*"; "Real name"]) None ∅).
Proof.
  refine (proj1 (getMessage_returns_first_accepted parse_line
    (userNickPredicate format_plain) _
    [mkMessage ∅ None "NICK" ["foo"];
     mkMessage ∅ None "USER" ["u"; "*"; "*"; "Real name"]] _ _ _) 3 _);
    [|simpl; lia].
  eapply skipped_one; [run | run |].
  eapply skipped_one; [run | run |].
  eapply skipped_none; [run | run].
Defined.

(** ** [readCapLs] *)

Section ReadCapLs.

Variable parse_message : string -> exn + Message.
Variable str_format : string -> pyval -> pyval -> pyval -> exn + string.

(** The three forms of parameters that [readCapLs] accepts. *)
Lemma readCapLs_unfold (fuel : nat) (s : ClientCase) :
  readCapLs parse_message str_format fuel s =
  propagate (getMessage parse_message fuel None s) (fun m s1 =>
    if decide (VStr (command m) = VStr "CAP") then
      if decide (params m = ["LS"]) then
        (Ret tt, set_protocol_version (Some 301%Z) s1)
      else if decide (params m = ["LS"; "302"]) then
        (Ret tt, set_protocol_version (Some 302%Z) s1)
      else if decide (params m = ["END"]) then
        (Ret tt, set_protocol_version None s1)
      else (Exc (AssertionError
                   (Raised "Unknown CAP params: {}" (VList (params m)))), s1)
    else (Exc (AssertionError
                 (NotEqual (VStr (command m)) (VStr "CAP") VNone)), s1)).
Proof.
  unfold readCapLs, bind, propagate, assertEqual, bind, ret, raise, modify.
  destruct (getMessage parse_message fuel None s) as [[m| | |] s1];
    try reflexivity.
  destruct (decide (VStr (command m) = VStr "CAP")); [|reflexivity].
  repeat (destruct (decide _); [reflexivity|]). reflexivity.
Qed.

(** C2. [readCapLs] fails with an assertion failure if and only if the
    first message read is not a [CAP] command or its parameters are none of
    [LS], [LS 302] and [END]; otherwise it returns, and the protocol
    version recorded in the test case is then 301, 302 or none, in this
    order, whatever it was before; the rest of the test case is as the
    read left it. *)
Theorem readCapLs_accepts_three_forms (fuel : nat) (s : ClientCase)
    (m : Message) (s1 : ClientCase) :
  getMessage parse_message (S fuel) None s = (Ret m, s1) ->
  ((exists f s2, readCapLs parse_message str_format (S fuel) s
                 = (Exc (AssertionError f), s2))
   <-> (command m <> "CAP" \/
        (params m <> ["LS"] /\ params m <> ["LS"; "302"]
         /\ params m <> ["END"]))) /\
  (command m = "CAP" ->
   forall v : option Z,
     (params m = ["LS"] /\ v = Some 301%Z) \/
     (params m = ["LS"; "302"] /\ v = Some 302%Z) \/
     (params m = ["END"] /\ v = None) ->
     exists s2,
       readCapLs parse_message str_format (S fuel) s = (Ret tt, s2) /\
       protocol_version s2 = v /\
       conn s2 = conn s1 /\ nick s2 = nick s1 /\ user s2 = user s1 /\
       acked_capabilities s2 = acked_capabilities s1 /\
       stdout s2 = stdout s1 /\ show_io s2 = show_io s1).
Proof.
  intros Hread. rewrite readCapLs_unfold, Hread. cbn [propagate].
  split.
  - destruct (decide (VStr (command m) = VStr "CAP")) as [Hc|Hc].
    + injection Hc as Hc.
      destruct (decide (params m = ["LS"])) as [H1|H1];
        [|destruct (decide (params m = ["LS"; "302"])) as [H2|H2];
          [|destruct (decide (params m = ["END"])) as [H3|H3]]].
      * split; [intros (f & s2 & H); discriminate H|].
        intros [H|(H & _ & _)]; contradiction.
      * split; [intros (f & s2 & H); discriminate H|].
        intros [H|(_ & H & _)]; contradiction.
      * split; [intros (f & s2 & H); discriminate H|].
        intros [H|(_ & _ & H)]; contradiction.
      * split; [intros _; right; auto|]. intros _. eauto.
    + split; [intros _; left; congruence|]. intros _. eauto.
  - intros Hc v Hv. rewrite Hc.
    destruct (decide _) as [_|Hne]; [|congruence].
    destruct Hv as [[Hp ->]|[[Hp ->]|[Hp ->]]]; rewrite Hp;
      eexists; (split; [reflexivity|]); repeat split.
Qed.

End ReadCapLs.

Lemma readCapLs_accepts_three_forms_witness :
  exists s2,
    readCapLs parse_line format_plain 1
      (set_protocol_version (Some 301%Z)
         (case0 ("CAP LS 302" +:+ PyStr.CRLF)))
    = (Ret tt, s2) /\
    protocol_version s2 = Some 302%Z /\
    inbound (conn s2) = EmptyString /\ sent (conn s2) = [].
Proof.
  destruct (proj2 (readCapLs_accepts_three_forms parse_line format_plain 0
    (set_protocol_version (Some 301%Z) (case0 ("CAP LS 302" +:+ PyStr.CRLF)))
    (mkMessage ∅ None "CAP" ["LS"; "302"])
    (set_protocol_version (Some 301%Z) (case0 EmptyString)) eq_refl)
    eq_refl (Some 302%Z) (or_intror (or_introl (conj eq_refl eq_refl))))
    as (s2 & Hrun & Hv & Hconn & _).
  exists s2. split; [exact Hrun|]. split; [exact Hv|].
  rewrite Hconn. split; reflexivity.
Defined.

(** ** [negotiateCapabilities] *)

Arguments PyStr.take : simpl never.

Section Negotiation.

Variable parse_message : string -> exn + Message.
Variable str_format : string -> pyval -> pyval -> pyval -> exn + string.

Abbreviation upred := (userNickPredicate str_format).
Abbreviation loop := (negotiate_loop parse_message str_format).

(** Reading a line and recording NICK and USER leave the acknowledged
    capabilities as they are. *)
Lemma getLine_acked (s : ClientCase) :
  acked_capabilities (snd (getLine s)) = acked_capabilities s.
Proof.
  rewrite getLine_run. unfold readline.
  destruct (readline_split _) as [[l r]|]; cbn.
  - destruct (show_io s); reflexivity.
  - destruct (closing (conn s)); cbn; try reflexivity.
    destruct (show_io s); reflexivity.
Qed.

Lemma userNickPredicate_acked (m : Message) (s : ClientCase) :
  acked_capabilities (snd (upred m s)) = acked_capabilities s.
Proof.
  unfold userNickPredicate, assertEqual, bind, ret, raise, modify, getitem.
  repeat first [ reflexivity
               | progress cbn
               | match goal with
                 | |- context [if ?b then _ else _] => destruct b
                 | |- context [match ?l !! ?i with _ => _ end] =>
                     destruct (l !! i)
                 end ].
Qed.

Lemma getMessage_acked (fuel : nat) (s : ClientCase) :
  acked_capabilities (snd (getMessage parse_message fuel (Some upred) s))
  = acked_capabilities s.
Proof.
  revert s. induction fuel as [|fuel IH]; intros s; [reflexivity|].
  rewrite getMessage_unfold. unfold propagate.
  destruct (getMessage parse_message 1 None s) as [r s1] eqn:Hread.
  assert (Hs1 : acked_capabilities s1 = acked_capabilities s).
  { cbn in Hread. unfold bind in Hread.
    pose proof (getLine_acked s) as Hg.
    destruct (getLine s) as [[line| | |] s0]; cbn in Hg;
      try (injection Hread as <- <-; exact Hg).
    unfold lift in Hread.
    destruct (parse_message line); injection Hread as <- <-; exact Hg. }
  destruct r as [m| | |]; cbn; try exact Hs1.
  pose proof (userNickPredicate_acked m s1) as Hp.
  destruct (upred m s1) as [[[|]| | |] s2]; cbn in *; try congruence.
  rewrite IH. congruence.
Qed.

(** C6. The first message read that is no [CAP] command, or is a [CAP]
    command whose first parameter is not [REQ] (so [CAP END]), is returned
    to the caller as it is, and the acknowledged capabilities are those of
    before the step. *)
Theorem negotiate_returns_first_non_REQ (fuel : nat) (caps : gset string)
    (s : ClientCase) (m : Message) (s1 : ClientCase) :
  getMessage parse_message fuel (Some upred) s = (Ret m, s1) ->
  (command m <> "CAP" \/
   exists p0 rest, params m = p0 :: rest /\ p0 <> "REQ") ->
  loop (S fuel) caps s = (Ret (Some m), s1) /\
  acked_capabilities s1 = acked_capabilities s.
Proof.
  intros Hread Hm. split.
  - cbn [negotiate_loop]. unfold bind at 1. rewrite Hread.
    destruct (String.eqb (command m) "CAP") eqn:Hc; [|reflexivity].
    destruct Hm as [Hm|(p0 & rest & Hp & Hne)].
    + apply String.eqb_eq in Hc. contradiction.
    + cbn. unfold bind, assertGreater, getitem, len. rewrite Hp. cbn.
      apply String.eqb_neq in Hne. now rewrite Hne.
  - pose proof (getMessage_acked fuel s) as H. now rewrite Hread in H.
Qed.

(** Reading a message through [userNickPredicate] sends nothing. *)
Lemma getLine_sent (s : ClientCase) :
  sent (conn (snd (getLine s))) = sent (conn s).
Proof.
  rewrite getLine_run. unfold readline.
  destruct (readline_split _) as [[l r]|]; cbn.
  - destruct (show_io s); reflexivity.
  - destruct (closing (conn s)); cbn; try reflexivity.
    destruct (show_io s); reflexivity.
Qed.

Lemma userNickPredicate_sent (m : Message) (s : ClientCase) :
  sent (conn (snd (upred m s))) = sent (conn s).
Proof.
  unfold userNickPredicate, assertEqual, bind, ret, raise, modify, getitem.
  repeat first [ reflexivity
               | progress cbn
               | match goal with
                 | |- context [if ?b then _ else _] => destruct b
                 | |- context [match ?l !! ?i with _ => _ end] =>
                     destruct (l !! i)
                 end ].
Qed.

Lemma getMessage_sent (fuel : nat) (s : ClientCase) :
  sent (conn (snd (getMessage parse_message fuel (Some upred) s)))
  = sent (conn s).
Proof.
  revert s. induction fuel as [|fuel IH]; intros s; [reflexivity|].
  rewrite getMessage_unfold. unfold propagate.
  destruct (getMessage parse_message 1 None s) as [r s1] eqn:Hread.
  assert (Hs1 : sent (conn s1) = sent (conn s)).
  { cbn in Hread. unfold bind in Hread.
    pose proof (getLine_sent s) as Hg.
    destruct (getLine s) as [[line| | |] s0]; cbn in Hg;
      try (injection Hread as <- <-; exact Hg).
    unfold lift in Hread.
    destruct (parse_message line); injection Hread as <- <-; exact Hg. }
  destruct r as [m| | |]; cbn; try exact Hs1.
  pose proof (userNickPredicate_sent m s1) as Hp.
  destruct (upred m s1) as [[[|]| | |] s2]; cbn in *; try congruence.
  rewrite IH. congruence.
Qed.

(** The test case that [sendLine] leaves on a connection that can be
    written to. *)
Lemma sendLine_state (text : string) (s : ClientCase) :
  broken (conn s) = false ->
  sendLine text s =
  (Ret tt,
   mkClientCase (show_io s)
     (if show_io s then stdout s ++ ["S" +:+ ": " +:+ PyStr.strip text]
      else stdout s)
     (mkConn (inbound (conn s)) (closing (conn s)) false
        (sent (conn s) ++ PyStr.encode text ::
           (if PyStr.endswith text PyStr.CRLF then [] else [PyStr.bCRLF])))
     (nick s) (user s) (protocol_version s) (acked_capabilities s)).
Proof.
  destruct s as [io o [inb cl br se] n u v a]. cbn [conn broken].
  intros ->. unfold sendLine, bind, sendall, get, print, modify, ret.
  cbn. destruct (PyStr.endswith text PyStr.CRLF); cbn;
    destruct io; cbn; rewrite <- ?app_assoc; reflexivity.
Qed.

(** The loop returns the first message that is no [CAP REQ]. *)
Lemma negotiate_loop_stops (fuel : nat) (caps : gset string)
    (s : ClientCase) (m : Message) (s1 : ClientCase) :
  getMessage parse_message fuel (Some upred) s = (Ret m, s1) ->
  (command m <> "CAP" \/
   exists p0 rest, params m = p0 :: rest /\ p0 <> "REQ") ->
  loop (S fuel) caps s = (Ret (Some m), s1).
Proof.
  intros Hread Hm. cbn [negotiate_loop]. unfold bind at 1. rewrite Hread.
  destruct (String.eqb (command m) "CAP") eqn:Hc; [|reflexivity].
  destruct Hm as [Hm|(p0 & rest & Hp & Hne)].
  - apply String.eqb_eq in Hc. contradiction.
  - cbn. unfold bind, assertGreater, getitem, len. rewrite Hp. cbn.
    apply String.eqb_neq in Hne. now rewrite Hne.
Qed.

(** C1. A [CAP REQ] with two parameters, read when the connection can be
    written to. When the names requested (the second parameter, split at
    white space) are not all advertised, one line [CAP nick NAK :] with the
    first 100 characters of the parameter is sent and the acknowledged
    capabilities stay as they were; otherwise one line [CAP nick ACK :]
    with the parameter as it is is sent and the names requested are added
    to the acknowledged capabilities. Nothing else of the test case
    changes but the echo, and the loop goes on from there: when the next
    message read is no [CAP REQ], the loop returns it, and what has been
    sent and acknowledged is what the reply left. *)
Theorem negotiate_REQ_step (fuel : nat) (caps : gset string)
    (s : ClientCase) (m : Message) (s1 : ClientCase) (names : string) :
  getMessage parse_message (S fuel) (Some upred) s = (Ret m, s1) ->
  command m = "CAP" ->
  params m = ["REQ"; names] ->
  broken (conn s1) = false ->
  let ok := bool_decide (requested_of names ⊆ caps) in
  let reply :=
    "CAP " +:+ nick_or_star s1 +:+
    (if ok then " ACK :" +:+ names
     else " NAK :" +:+ PyStr.take 100 names) in
  let out :=
    sent (conn s1) ++ PyStr.encode reply ::
      (if PyStr.endswith reply PyStr.CRLF then [] else [PyStr.bCRLF]) in
  let acked :=
    if ok then acked_capabilities s ∪ requested_of names
    else acked_capabilities s in
  let s2 :=
    mkClientCase (show_io s1)
      (if show_io s1 then stdout s1 ++ ["S" +:+ ": " +:+ PyStr.strip reply]
       else stdout s1)
      (mkConn (inbound (conn s1)) (closing (conn s1)) false out)
      (nick s1) (user s1) (protocol_version s1) acked in
  loop (S (S fuel)) caps s = loop (S fuel) caps s2 /\
  forall (m' : Message) (s3 : ClientCase),
    getMessage parse_message fuel (Some upred) s2 = (Ret m', s3) ->
    (command m' <> "CAP" \/
     exists p0 rest, params m' = p0 :: rest /\ p0 <> "REQ") ->
    loop (S (S fuel)) caps s = (Ret (Some m'), s3) /\
    sent (conn s3) = out /\
    acked_capabilities s3 = acked.
Proof.
  intros Hread Hc Hp Hb ok reply out acked s2.
  pose proof (getMessage_acked (S fuel) s) as Hacked.
  rewrite Hread in Hacked. cbn [snd] in Hacked.
  assert (Hstep : loop (S (S fuel)) caps s = loop (S fuel) caps s2).
  { assert (Hrun : loop (S (S fuel)) caps s =
      propagate
        ((if negb ok then
            sendLine ("CAP " +:+ nick_or_star s1 +:+ " NAK :"
                      +:+ PyStr.take 100 names)
          else
            (sendLine ("CAP " +:+ nick_or_star s1 +:+ " ACK :" +:+ names) ;;
             modify (fun s0 => set_acked_capabilities
                       (acked_capabilities s0 ∪ requested_of names) s0))) s1)
        (fun _ s' => loop (S fuel) caps s')).
    { remember (S fuel) as fuel1 eqn:Hfuel1.
      cbn [negotiate_loop]. unfold bind at 1. rewrite Hread, Hc. cbn.
      unfold bind, assertGreater, assertEqual, getitem, len, get, ret.
      rewrite Hp. cbn. rewrite decide_True by reflexivity.
      change (0 <? Z.of_nat 2)%Z with true. cbn.
      unfold ok.
      destruct (negb (bool_decide (requested_of names ⊆ caps))); cbn;
        unfold propagate, bind; destruct (sendLine _ s1) as [[[]| | |] s'];
        reflexivity. }
    rewrite Hrun. subst s2 acked out reply. unfold ok in *.
    destruct (bool_decide (requested_of names ⊆ caps)); cbn [negb].
    - unfold bind. rewrite (sendLine_state _ s1 Hb). cbn [propagate].
      unfold modify, set_acked_capabilities. cbn. now rewrite Hacked.
    - rewrite (sendLine_state _ s1 Hb). cbn [propagate].
      now rewrite Hacked. }
  split; [exact Hstep|].
  intros m' s3 Hnext Hm'.
  rewrite Hstep, (negotiate_loop_stops fuel caps s2 m' s3 Hnext Hm').
  split; [reflexivity|].
  pose proof (getMessage_sent fuel s2) as Hs.
  pose proof (getMessage_acked fuel s2) as Ha.
  rewrite Hnext in Hs, Ha. cbn [snd] in Hs, Ha.
  split; [exact Hs | exact Ha].
Qed.

End Negotiation.

(** Without [CAP LS], [negotiateCapabilities] empties the acknowledged
    capabilities and enters the loop with the names advertised. *)
Lemma negotiateCapabilities_without_cap_ls
    (parse_message : string -> exn + Message)
    (str_format : string -> pyval -> pyval -> pyval -> exn + string)
    (cap_list_to_dict : list string -> gmap string (option string))
    (fuel : nat) (caps : list string) (s : ClientCase) :
  negotiateCapabilities parse_message str_format cap_list_to_dict fuel caps
    false s
  = negotiate_loop parse_message str_format fuel
      (dom (cap_list_to_dict caps)) (set_acked_capabilities ∅ s).
Proof. reflexivity. Qed.

Lemma negotiate_returns_first_non_REQ_witness :
  negotiate_loop parse_line format_plain 3 ∅
    (case0 ("NICK foo" +:+ PyStr.CRLF +:+ "CAP END" +:+ PyStr.CRLF))
  = (Ret (Some (mkMessage ∅ None "CAP" ["END"])),
     set_nick (Some "foo") (case0 EmptyString)) /\
  acked_capabilities (set_nick (Some "foo") (case0 EmptyString)) = ∅.
Proof.
  refine (negotiate_returns_first_non_REQ parse_line format_plain 2 ∅
    (case0 ("NICK foo" +:+ PyStr.CRLF +:+ "CAP END" +:+ PyStr.CRLF))
    (mkMessage ∅ None "CAP" ["END"])
    (set_nick (Some "foo") (case0 EmptyString)) _ _).
  - run.
  - right. exists "END", []. split; [reflexivity | discriminate].
Defined.

Lemma negotiate_REQ_step_witness :
  let caps : gset string := list_to_set ["sasl"; "message-tags"] in
  let END := mkMessage ∅ None "CAP" ["END"] in
  (exists s3,
     negotiate_loop parse_line format_plain 3 caps
       (case0 ("CAP REQ :sasl message-tags" +:+ PyStr.CRLF
               +:+ "CAP END" +:+ PyStr.CRLF))
     = (Ret (Some END), s3) /\
     sent (conn s3)
     = [PyStr.encode "CAP * ACK :sasl message-tags"; PyStr.bCRLF] /\
     acked_capabilities s3 = list_to_set ["sasl"; "message-tags"]) /\
  (exists s3,
     negotiate_loop parse_line format_plain 3 caps
       (case0 ("CAP REQ :sasl unknown-cap" +:+ PyStr.CRLF
               +:+ "CAP END" +:+ PyStr.CRLF))
     = (Ret (Some END), s3) /\
     sent (conn s3)
     = [PyStr.encode "CAP * NAK :sasl unknown-cap"; PyStr.bCRLF] /\
     acked_capabilities s3 = ∅).
Proof.
  intros caps END. split.
  - exists (mkClientCase false []
              (mkConn EmptyString EOF false
                 [PyStr.encode "CAP * ACK :sasl message-tags"; PyStr.bCRLF])
              None None None (list_to_set ["sasl"; "message-tags"])).
    refine (proj2 (negotiate_REQ_step parse_line format_plain 1 caps
      (case0 ("CAP REQ :sasl message-tags" +:+ PyStr.CRLF
              +:+ "CAP END" +:+ PyStr.CRLF))
      (mkMessage ∅ None "CAP" ["REQ"; "sasl message-tags"])
      (case0 ("CAP END" +:+ PyStr.CRLF)) "sasl message-tags"
      _ eq_refl eq_refl eq_refl) END _ _ _).
    + run.
    + run.
    + right. exists "END", []. split; [reflexivity | discriminate].
  - exists (mkClientCase false []
              (mkConn EmptyString EOF false
                 [PyStr.encode "CAP * NAK :sasl unknown-cap"; PyStr.bCRLF])
              None None None ∅).
    refine (proj2 (negotiate_REQ_step parse_line format_plain 1 caps
      (case0 ("CAP REQ :sasl unknown-cap" +:+ PyStr.CRLF
              +:+ "CAP END" +:+ PyStr.CRLF))
      (mkMessage ∅ None "CAP" ["REQ"; "sasl unknown-cap"])
      (case0 ("CAP END" +:+ PyStr.CRLF)) "sasl unknown-cap"
      _ eq_refl eq_refl eq_refl) END _ _ _).
    + run.
    + run.
    + right. exists "END", []. split; [reflexivity | discriminate].
Defined.

(** The scenario of [testEmptyCapLs]: nothing is advertised and the
    client answers [CAP END], which [negotiateCapabilities] returns. *)
Example negotiate_empty_cap_ls :
  fst (negotiateCapabilities parse_line format_plain cap_dict 3 [] true
         (case0 ("CAP LS 302" +:+ PyStr.CRLF +:+ "CAP END" +:+ PyStr.CRLF)))
  = Ret (Some (mkMessage ∅ None "CAP" ["END"])).
Proof. run. Qed.

(** The scenario of the specification: [sasl] and [message-tags] are
    advertised; a request for both is acknowledged and recorded, a request
    with an unknown name is refused and recorded nowhere. *)
Example negotiate_ack_then_nak :
  let r := negotiateCapabilities parse_line format_plain cap_dict 4
             ["sasl"; "message-tags"] false
             (case0 ("CAP REQ :sasl message-tags" +:+ PyStr.CRLF
                     +:+ "CAP REQ :sasl unknown-cap" +:+ PyStr.CRLF
                     +:+ "CAP END" +:+ PyStr.CRLF)) in
  fst r = Ret (Some (mkMessage ∅ None "CAP" ["END"])) /\
  acked_capabilities (snd r) = list_to_set ["sasl"; "message-tags"] /\
  sent (conn (snd r)) =
    [PyStr.encode "CAP * ACK :sasl message-tags"; PyStr.bCRLF;
     PyStr.encode "CAP * NAK :sasl unknown-cap"; PyStr.bCRLF].
Proof. repeat split; run. Qed.

(** ** [assertMessageEqual] *)

Section MessageEqual.

Variable str_format : string -> pyval -> pyval -> pyval -> exn + string.

Abbreviation failure_of := (assertEqual_failure str_format).

(** [assertEqual] returns or raises, and leaves the test case alone. *)
Lemma assertEqual_run {St} (got expects msg : pyval)
    (fail_msg : option string) (s : St) :
  assertEqual str_format got expects msg fail_msg s =
  (match failure_of got expects msg fail_msg with
   | Some e => Exc e
   | None => Ret tt
   end, s).
Proof.
  unfold assertEqual_failure, assertEqual, bind, lift, ret, raise.
  destruct fail_msg as [f|]; cbn.
  - destruct (String.eqb f EmptyString); cbn.
    + destruct (decide (got = expects)); reflexivity.
    + destruct (str_format f got expects msg); cbn; [reflexivity|].
      destruct (decide (got = expects)); reflexivity.
  - destruct (decide (got = expects)); reflexivity.
Qed.

Lemma failure_of_no_fail_msg (got expects msg : pyval) :
  failure_of got expects msg None =
  if decide (got = expects) then None
  else Some (AssertionError (NotEqual got expects VNone)).
Proof.
  unfold assertEqual_failure, assertEqual, bind, ret, raise. cbn.
  destruct (decide (got = expects)); reflexivity.
Qed.

(** Values that differ make [assertEqual] raise, whatever the failure
    message. *)
Lemma failure_of_differ (got expects msg : pyval) (fail_msg : option string) :
  got <> expects -> exists e, failure_of got expects msg fail_msg = Some e.
Proof.
  intros Hne. unfold assertEqual_failure, assertEqual, bind, lift, ret, raise.
  destruct fail_msg as [f|]; cbn.
  - destruct (String.eqb f EmptyString); cbn.
    + destruct (decide (got = expects)); [contradiction | eauto].
    + destruct (str_format f got expects msg); cbn; [eauto|].
      destruct (decide (got = expects)); [contradiction | eauto].
  - destruct (decide (got = expects)); [contradiction | eauto].
Qed.

Lemma for_each_kwargs_hold (msg : Message) (fail_msg : option string)
    (kwargs : list (field * pyval)) (s : IrcTestCase) :
  kwargs_hold str_format msg fail_msg kwargs ->
  for_each kwargs (fun kv =>
    assertEqual str_format (getattr msg (fst kv)) (snd kv) (VMsg msg) fail_msg) s
  = (Ret tt, s).
Proof.
  induction 1 as [|kv kwargs Hkv _ IH]; [reflexivity|].
  cbn [for_each]. unfold bind. rewrite assertEqual_run, Hkv. exact IH.
Qed.


(** A comparison in a sub-test: its failure is reported and the test
    goes on. *)
Lemma subTest_assertEqual (key : string) (got expects msg : pyval)
    (fail_msg : option string) (s : IrcTestCase) :
  subTest key (assertEqual str_format got expects msg fail_msg) s
  = (Ret tt,
     mkIrcTestCase
       (subtest_failures s
        ++ reported key (failure_of got expects msg fail_msg))).
Proof.
  unfold subTest. rewrite assertEqual_run.
  destruct (failure_of got expects msg fail_msg); cbn; [reflexivity|].
  destruct s. cbn. now rewrite app_nil_r.
Qed.

(** C10. Called with a target only, [assertMessageEqual] compares nothing
    and returns; and whatever the other arguments are, the target given
    changes nothing: the first parameter of the message is never compared
    with it. *)
Theorem assertMessageEqual_ignores_target (msg : Message) (target : pyval)
    (fail_msg : option string) (s : IrcTestCase) :
  assertMessageEqual str_format msg None None target fail_msg [] s
  = (Ret tt, s) /\
  (forall subcommand subparams target' kwargs,
     assertMessageEqual str_format msg subcommand subparams target
       fail_msg kwargs
     = assertMessageEqual str_format msg subcommand subparams target'
         fail_msg kwargs).
Proof. split; reflexivity. Qed.

(** C9, as amended. With an expected sub-command or expected
    sub-parameters, and the comparisons by keyword holding, a message of
    two parameters or fewer fails the assertion on the length. Otherwise
    the second parameter is the sub-command and the parameters after it the
    sub-parameters; the sub-command is compared when the expected one is a
    string that is not empty, the sub-parameters when expected ones are
    given, each in a sub-test of its own, so that two mismatches are two
    reported failures. *)
Theorem assertMessageEqual_subcommand_mode (msg : Message)
    (subcommand : option string) (subparams : option (list string))
    (target : pyval) (fail_msg : option string)
    (kwargs : list (field * pyval)) (s : IrcTestCase) :
  kwargs_hold str_format msg fail_msg kwargs ->
  subcommand <> None \/ subparams <> None ->
  (length (params msg) <= 2 ->
   assertMessageEqual str_format msg subcommand subparams target fail_msg
     kwargs s
   = (Exc (AssertionError
             (NotGreater (len (params msg)) 2 (VOptStr fail_msg))), s)) /\
  (forall t c sps,
     params msg = t :: c :: sps -> sps <> [] ->
     assertMessageEqual str_format msg subcommand subparams target fail_msg
       kwargs s
     = (Ret tt,
        mkIrcTestCase
          (subtest_failures s
           ++ (if truthy subcommand
               then reported "subcommand"
                      (failure_of (VStr c) (VOptStr subcommand) (VMsg msg)
                         fail_msg)
               else [])
           ++ match subparams with
              | Some sp =>
                  reported "subparams"
                    (failure_of (VList sps) (VList sp) (VMsg msg) fail_msg)
              | None => []
              end)) /\
     (forall sc sp,
        subcommand = Some sc -> sc <> EmptyString -> subparams = Some sp ->
        c <> sc -> sps <> sp ->
        exists e1 e2,
          assertMessageEqual str_format msg subcommand subparams target
            fail_msg kwargs s
          = (Ret tt,
             mkIrcTestCase
               (subtest_failures s
                ++ [("subcommand", e1); ("subparams", e2)])))).
Proof.
  intros Hkw Hgiven.
  assert (Hmode : is_not_None subcommand || is_not_None subparams = true).
  { destruct Hgiven as [H|H]; [destruct subcommand | destruct subparams];
      try contradiction; cbn; auto using orb_true_r. }
  assert (Hrun : forall t c sps,
    params msg = t :: c :: sps -> sps <> [] ->
    assertMessageEqual str_format msg subcommand subparams target fail_msg
      kwargs s
    = (Ret tt,
       mkIrcTestCase
         (subtest_failures s
          ++ (if truthy subcommand
              then reported "subcommand"
                     (failure_of (VStr c) (VOptStr subcommand) (VMsg msg)
                        fail_msg)
              else [])
          ++ match subparams with
             | Some sp =>
                 reported "subparams"
                   (failure_of (VList sps) (VList sp) (VMsg msg) fail_msg)
             | None => []
             end))).
  { intros t c sps Hp Hsps.
    unfold assertMessageEqual, bind at 1.
    rewrite (for_each_kwargs_hold _ _ _ _ Hkw), Hmode.
    unfold bind, assertGreater, getitem, len. rewrite Hp.
    destruct sps as [|x sps]; [contradiction|].
    replace (2 <? Z.of_nat (length (t :: c :: x :: sps)))%Z with true
      by (symmetry; apply Z.ltb_lt; cbn [length]; lia).
    cbn [lookup list_lookup drop ret].
    destruct (truthy subcommand), subparams as [sp|];
      unfold ret; rewrite ?subTest_assertEqual; cbn [subtest_failures];
      rewrite ?subTest_assertEqual; cbn [subtest_failures];
      rewrite <- ?app_assoc, ?app_nil_r; try reflexivity.
    destruct s; reflexivity. }
  split.
  - intros Hlen.
    unfold assertMessageEqual, bind at 1.
    rewrite (for_each_kwargs_hold _ _ _ _ Hkw), Hmode.
    unfold bind, assertGreater, len.
    replace (2 <? Z.of_nat (length (params msg)))%Z with false
      by (symmetry; apply Z.ltb_ge; lia).
    reflexivity.
  - intros t c sps Hp Hsps. split; [exact (Hrun t c sps Hp Hsps)|].
    intros sc sp -> Hsc -> Hc Hsp. rewrite (Hrun t c sps Hp Hsps).
    assert (Htr : truthy (Some sc) = true).
    { cbn. apply negb_true_iff, String.eqb_neq, Hsc. }
    rewrite Htr.
    destruct (failure_of_differ (VStr c) (VStr sc) (VMsg msg) fail_msg)
      as [e1 He1]; [congruence|].
    destruct (failure_of_differ (VList sps) (VList sp) (VMsg msg) fail_msg)
      as [e2 He2]; [congruence|].
    exists e1, e2. cbn [VOptStr]. now rewrite He1, He2.
Qed.

End MessageEqual.

Lemma assertMessageEqual_subcommand_mode_witness :
  let msg := mkMessage ∅ None "CAP" ["*"; "LS"; "sasl"] in
  assertMessageEqual format_plain msg (Some "ACK") (Some ["tls"]) VNone None
    [(Fcommand, VStr "CAP")] (mkIrcTestCase [])
  = (Ret tt,
     mkIrcTestCase
       [("subcommand",
         AssertionError (NotEqual (VStr "LS") (VStr "ACK") VNone));
        ("subparams",
         AssertionError (NotEqual (VList ["sasl"]) (VList ["tls"]) VNone))]).
Proof.
  intros msg.
  refine (proj1 (proj2 (assertMessageEqual_subcommand_mode format_plain msg
    (Some "ACK") (Some ["tls"]) VNone None [(Fcommand, VStr "CAP")]
    (mkIrcTestCase []) _ _) "*" "LS" ["sasl"] eq_refl _)).
  - repeat constructor.
  - left. discriminate.
  - discriminate.
Defined.

(** C9, as stated, fails: with the empty string as expected sub-command
    only the sub-parameters are compared. *)
Lemma empty_subcommand_is_not_compared : ~ subcommand_mode_as_claimed.
Proof.
  intros H.
  destruct (H (mkMessage ∅ None "CAP" ["*"; "LS"; "sasl"]) EmptyString
              ["tls"] "*" "LS" ["sasl"] (mkIrcTestCase []) eq_refl)
    as (e1 & e2 & Heq); [discriminate .. |].
  vm_compute in Heq. discriminate Heq.
Qed.


(** ** [assertDisconnected] *)

Section Disconnected.

Variable ClientMock : Type.
Variable mock_sendLine : string -> ClientMock -> outcome unit * ClientMock.
Variable parse_message : string -> exn + Message.

Abbreviation ServerCase := (Server.ServerCase ClientMock).
Abbreviation assertDisconnected :=
  (Server.assertDisconnected ClientMock mock_sendLine parse_message).

(** C4. On a [BaseServerTestCase] as [cases.py] defines it,
    [assertDisconnected] ends with an [AttributeError] at its first
    statement, [self.getLines(client)]: no probe is sent, and the call
    neither passes nor fails with the message of the assertion. *)
Theorem assertDisconnected_as_written (fuel : nat) (client : string)
    (s : ServerCase) :
  assertDisconnected (Server.BaseServerTestCase_lookup ClientMock)
    fuel client s
  = (Exc (AttributeError "getLines"), s).
Proof. reflexivity. Qed.

(** Were [getLines] and [getLine] defined on the test case, the first line
    read after the probe, a [PONG] or any other, would end the call with a
    [NameError]: the assertion on it reads [line], the line is bound to
    [l]. *)
Lemma assertDisconnected_reads_unbound_name
    (self : Server.Lookup ClientMock) (fuel : nat) (client : string)
    (getLines : string -> M ServerCase (list string))
    (getLine : string -> M ServerCase string)
    (s s1 s2 s3 : ServerCase) (ls : list string) (l : string) :
  Server.found_getLines ClientMock self = Some getLines ->
  Server.found_getLine ClientMock self = Some getLine ->
  getLines client s = (Ret ls, s1) ->
  Server.sendLine ClientMock mock_sendLine client "PING foo" s1 = (Ret tt, s2) ->
  getLine client s2 = (Ret l, s3) ->
  assertDisconnected self (S fuel) client s = (Exc (NameError "line"), s3).
Proof.
  intros Hgls Hgl Hread Hsend Hline.
  unfold Server.assertDisconnected, bind, Server.getattr_self.
  rewrite Hgls. cbn [ret]. rewrite Hread, Hsend.
  cbn [Server.disconnected_loop]. unfold bind, Server.getattr_self.
  rewrite Hgl. cbn [ret]. rewrite Hline. reflexivity.
Qed.

(** With these methods defined, a read that fails with the error of the
    socket makes the call pass, and the client is forgotten. *)
Lemma assertDisconnected_passes_on_socket_error
    (self : Server.Lookup ClientMock) (fuel : nat) (client : string)
    (getLines : string -> M ServerCase (list string))
    (getLine : string -> M ServerCase string)
    (s s1 s2 s3 : ServerCase) (ls : list string) (c : ClientMock) :
  Server.found_getLines ClientMock self = Some getLines ->
  Server.found_getLine ClientMock self = Some getLine ->
  getLines client s = (Ret ls, s1) ->
  Server.sendLine ClientMock mock_sendLine client "PING foo" s1 = (Ret tt, s2) ->
  getLine client s2 = (Exc SocketError, s3) ->
  Server.clients ClientMock s3 !! client = Some c ->
  assertDisconnected self (S fuel) client s
  = (Ret tt,
     Server.mkServerCase ClientMock (delete client (Server.clients ClientMock s3))).
Proof.
  intros Hgls Hgl Hread Hsend Hline Hc.
  unfold Server.assertDisconnected, bind, Server.getattr_self.
  rewrite Hgls. cbn [ret]. rewrite Hread, Hsend.
  cbn [Server.disconnected_loop]. unfold bind, Server.getattr_self.
  rewrite Hgl. cbn [ret]. rewrite Hline.
  unfold Server.del_client. now rewrite Hc.
Qed.

End Disconnected.

(** A peer that answers the probe with a [PONG], on a test case given the
    two methods: the call ends with the [NameError], not with the failure
    [Client not disconnected.]. *)
Example assertDisconnected_on_PONG :
  fst (Server.assertDisconnected unit (fun _ c => (Ret tt, c)) parse_line
         (Server.mkLookup unit (Some (fun _ => ret []))
            (Some (fun _ => ret ("PONG foo" +:+ PyStr.CRLF))))
         1 "mallory" (Server.mkServerCase unit {["mallory" := tt]}))
  = Exc (NameError "line").
Proof. run. Qed.

(** ** The round trip of the parser *)

Module ParserFacts.

Import Parser.

Lemma has_char_cons (c x : ascii) (s : string) :
  has_char c (String x s) = Ascii.eqb c x || has_char c s.
Proof. reflexivity. Qed.

Lemma has_char_append (c : ascii) (a b : string) :
  has_char c (a +:+ b) = has_char c a || has_char c b.
Proof.
  induction a as [|x a IH]; [reflexivity|].
  rewrite append_cons, !has_char_cons, IH. apply orb_assoc.
Qed.

Lemma cut_cons (sep c : ascii) (r : string) :
  cut sep (String c r) =
  if Ascii.eqb c sep then (EmptyString, Some r)
  else let (a, b) := cut sep r in (String c a, b).
Proof. reflexivity. Qed.

(** Text without the separator is cut at the separator that follows it. *)
Lemma cut_append (sep : ascii) (a b : string) :
  has_char sep a = false ->
  cut sep (a +:+ String sep b) = (a, Some b).
Proof.
  induction a as [|x a IH]; intros H.
  - rewrite append_nil_l, cut_cons. now rewrite Ascii.eqb_refl.
  - rewrite has_char_cons in H. apply orb_false_iff in H as [Hx Ha].
    rewrite append_cons, cut_cons, Ascii.eqb_sym, Hx. now rewrite (IH Ha).
Qed.

Lemma cut_whole (sep : ascii) (a : string) :
  has_char sep a = false -> cut sep a = (a, None).
Proof.
  induction a as [|x a IH]; intros H; [reflexivity|].
  rewrite has_char_cons in H. apply orb_false_iff in H as [Hx Ha].
  rewrite cut_cons, Ascii.eqb_sym, Hx. now rewrite (IH Ha).
Qed.

Lemma split_on_cons (sep c : ascii) (r : string) :
  split_on sep (String c r) =
  if Ascii.eqb c sep then EmptyString :: split_on sep r
  else match split_on sep r with
       | w :: ws => String c w :: ws
       | [] => [String c EmptyString]
       end.
Proof. reflexivity. Qed.

Lemma split_on_whole (sep : ascii) (a : string) :
  has_char sep a = false -> split_on sep a = [a].
Proof.
  induction a as [|x a IH]; intros H; [reflexivity|].
  rewrite has_char_cons in H. apply orb_false_iff in H as [Hx Ha].
  rewrite split_on_cons, Ascii.eqb_sym, Hx. now rewrite (IH Ha).
Qed.

Lemma split_on_append (sep : ascii) (a b : string) :
  has_char sep a = false ->
  split_on sep (a +:+ String sep b) = a :: split_on sep b.
Proof.
  induction a as [|x a IH]; intros H.
  - rewrite append_nil_l, split_on_cons. now rewrite Ascii.eqb_refl.
  - rewrite has_char_cons in H. apply orb_false_iff in H as [Hx Ha].
    rewrite append_cons, split_on_cons, Ascii.eqb_sym, Hx. now rewrite (IH Ha).
Qed.

(** Splitting undoes joining when no element holds the separator. *)
Lemma split_on_join (sep : ascii) (l : list string) :
  l <> [] ->
  Forall (fun x => has_char sep x = false) l ->
  split_on sep (PyStr.join (String sep EmptyString) l) = l.
Proof.
  intros Hne Hall. induction Hall as [|x l Hx Hl IH]; [contradiction|].
  destruct l as [|y l].
  - now apply split_on_whole.
  - change (PyStr.join (String sep EmptyString) (x :: y :: l))
      with (x +:+ String sep EmptyString
            +:+ PyStr.join (String sep EmptyString) (y :: l)).
    rewrite append_cons, append_nil_l.
    rewrite (split_on_append _ _ _ Hx). f_equal. apply IH. discriminate.
Qed.

Lemma escape_cons (c : ascii) (r : string) :
  escape (String c r) = escape_char c +:+ escape r.
Proof. reflexivity. Qed.

Ltac ascii_cases c :=
  repeat match goal with
  | |- context [Ascii.eqb c ?x] =>
      let E := fresh "E" in
      destruct (Ascii.eqb c x) eqn:E;
      [apply Ascii.eqb_eq in E; subst c |]
  end.

(** Unescaping undoes escaping. *)
Lemma unescape_escape (v : string) : unescape (escape v) = v.
Proof.
  induction v as [|c v IH]; [reflexivity|].
  rewrite escape_cons. unfold escape_char.
  ascii_cases c; rewrite ?append_cons, ?append_nil_l; cbn; rewrite ?IH;
    try reflexivity.
  now rewrite E1.
Qed.

(** An escaped value holds neither a semicolon nor a space. *)
Lemma escape_no_semicolon (v : string) : has_char ";" (escape v) = false.
Proof.
  induction v as [|c v IH]; [reflexivity|].
  rewrite escape_cons, has_char_append, IH, orb_false_r. unfold escape_char.
  ascii_cases c; try reflexivity.
  rewrite has_char_cons, Ascii.eqb_sym, E. reflexivity.
Qed.

Lemma escape_no_space (v : string) : has_char " " (escape v) = false.
Proof.
  induction v as [|c v IH]; [reflexivity|].
  rewrite escape_cons, has_char_append, IH, orb_false_r. unfold escape_char.
  ascii_cases c; try reflexivity.
  rewrite has_char_cons, Ascii.eqb_sym, E0. reflexivity.
Qed.

Lemma key_ok_spec (k : string) :
  key_ok k = true ->
  k <> EmptyString /\ has_char " " k = false /\
  has_char ";" k = false /\ has_char "=" k = false.
Proof.
  unfold key_ok. rewrite !andb_true_iff, !negb_true_iff.
  intros [[[H1 H2] H3] H4]. apply String.eqb_neq in H1. auto.
Qed.

Lemma ser_tag_no_char (c : ascii) (kv : string * string) :
  has_char c (fst kv) = false -> Ascii.eqb c "=" = false ->
  has_char c (escape (snd kv)) = false ->
  has_char c (ser_tag kv) = false.
Proof.
  intros Hk Hc Hv. unfold ser_tag.
  rewrite !has_char_append, Hk, Hv. cbn. now rewrite Hc.
Qed.

(** A serialised tag is parsed back. *)
Lemma parse_tag_ser_tag (kv : string * string) :
  key_ok (fst kv) = true -> parse_tag (ser_tag kv) = Some kv.
Proof.
  intros Hk. apply key_ok_spec in Hk as (Hne & _ & _ & Heq).
  destruct kv as [k v]. cbn [fst snd] in *.
  unfold parse_tag, ser_tag. cbn [fst snd].
  change ("=" +:+ escape v) with (String "=" (escape v)).
  rewrite (cut_append _ _ _ Heq).
  apply String.eqb_neq in Hne. rewrite Hne. cbn -[unescape escape].
  now rewrite unescape_escape.
Qed.

Lemma tags_of_ser_tags (l : list (string * string)) (acc : gmap string string) :
  forallb (fun kv => key_ok (fst kv)) l = true ->
  tags_of (ser_tag <$> l) acc = Some (foldl put acc l).
Proof.
  revert acc. induction l as [|kv l IH]; intros acc H; [reflexivity|].
  cbn [forallb] in H. apply andb_true_iff in H as [Hk Hl].
  cbn [fmap list_fmap tags_of]. rewrite (parse_tag_ser_tag _ Hk).
  destruct kv as [k v]. now rewrite (IH _ Hl).
Qed.

(** Inserting the entries of a map one after the other gives the map. *)
Lemma foldl_put_union (l : list (string * string)) (acc : gmap string string) :
  NoDup l.*1 -> foldl put acc l = list_to_map l ∪ acc.
Proof.
  revert acc. induction l as [|[k v] l IH]; intros acc Hnd.
  - cbn. now rewrite (left_id_L ∅ (∪)).
  - cbn [fmap list_fmap fst] in Hnd. apply NoDup_cons in Hnd as [Hk Hnd].
    cbn [foldl list_to_map foldr]. rewrite (IH _ Hnd). unfold put. cbn [fst snd].
    rewrite <- insert_union_r by now apply not_elem_of_list_to_map_1.
    now rewrite insert_union_l.
Qed.

Lemma foldl_put_map_to_list (t : gmap string string) :
  foldl put ∅ (map_to_list t) = t.
Proof.
  rewrite foldl_put_union by apply NoDup_fst_map_to_list.
  now rewrite (right_id_L ∅ (∪)), list_to_map_to_list.
Qed.

Lemma params_from_cons (cur : option string) (c : ascii) (r : string) :
  params_from cur (String c r) =
  if Ascii.eqb c " " then PyStr.flush cur ++ params_from None r
  else if Ascii.eqb c ":" && negb (is_not_None cur) then [r]
  else params_from (PyStr.push cur c) r.
Proof. reflexivity. Qed.

(** A parameter that is being read goes on to the next space. *)
Lemma params_from_word (w p rest : string) :
  has_char " " p = false ->
  params_from (Some w) (p +:+ rest) = params_from (Some (w +:+ p)) rest.
Proof.
  revert w. induction p as [|c p IH]; intros w H.
  - now rewrite append_nil_l, append_nil_r.
  - rewrite has_char_cons in H. apply orb_false_iff in H as [Hc Hp].
    rewrite append_cons, params_from_cons, Ascii.eqb_sym, Hc.
    cbn [is_not_None negb]. rewrite andb_false_r. cbn [PyStr.push].
    rewrite (IH _ Hp). now rewrite append_assoc.
Qed.

Lemma startswith_char (c x : ascii) (s : string) :
  PyStr.startswith (String c s) (String x EmptyString) = Ascii.eqb x c.
Proof. cbn. destruct s; apply andb_true_r. Qed.

Lemma middle_ok_spec (p : string) :
  middle_ok p = true ->
  exists c p', p = String c p' /\ Ascii.eqb c " " = false /\
               Ascii.eqb c ":" = false /\ has_char " " p' = false.
Proof.
  unfold middle_ok, needs_colon. rewrite negb_true_iff, !orb_false_iff.
  intros [[H1 H2] H3]. destruct p as [|c p']; [discriminate|].
  exists c, p'. rewrite has_char_cons in H3.
  apply orb_false_iff in H3 as [Hc Hp]. rewrite startswith_char in H2.
  repeat split; auto; rewrite Ascii.eqb_sym; assumption.
Qed.

(** A parameter without colon is read up to the text that follows it. *)
Lemma params_from_middle (p rest : string) :
  middle_ok p = true ->
  params_from None (p +:+ rest) = params_from (Some p) rest.
Proof.
  intros H. destruct (middle_ok_spec _ H) as (c & p' & -> & Hsp & Hco & Hp).
  rewrite append_cons, params_from_cons, Hsp, Hco. cbn [andb PyStr.push].
  now rewrite (params_from_word _ _ _ Hp).
Qed.

Lemma ser_params_space (p : string) (ps : list string) :
  exists r, ser_params (p :: ps) = String " " r.
Proof. destruct ps; cbn [ser_params]; eexists; reflexivity. Qed.

(** The serialised parameters are parsed back. *)
Lemma params_from_ser_params (ps : list string) :
  forallb middle_ok (removelast ps) = true ->
  params_from None (ser_params ps) = ps.
Proof.
  induction ps as [|p ps IH]; intros H; [reflexivity|].
  destruct ps as [|q ps].
  - cbn [ser_params]. rewrite append_cons, append_nil_l, params_from_cons.
    cbn [Ascii.eqb Bool.eqb andb PyStr.flush app].
    destruct (needs_colon p) eqn:Hn.
    + rewrite append_cons, append_nil_l. reflexivity.
    + rewrite <- (append_nil_r p) at 1.
      rewrite params_from_middle by (unfold middle_ok; now rewrite Hn).
      reflexivity.
  - change (removelast (p :: q :: ps)) with (p :: removelast (q :: ps)) in H.
    cbn [forallb] in H. apply andb_true_iff in H as [Hp Hps].
    specialize (IH Hps). destruct (ser_params_space q ps) as [r Hr].
    change (ser_params (p :: q :: ps))
      with (" " +:+ p +:+ ser_params (q :: ps)).
    rewrite append_cons, append_nil_l, params_from_cons.
    cbn [Ascii.eqb Bool.eqb andb PyStr.flush app].
    rewrite (params_from_middle _ _ Hp). rewrite Hr in *.
    rewrite params_from_cons in *.
    cbn [Ascii.eqb Bool.eqb andb PyStr.flush app] in *. now rewrite IH.
Qed.

Lemma skip_spaces_cons (c : ascii) (r : string) :
  Ascii.eqb c " " = false -> skip_spaces (String c r) = String c r.
Proof. intros H. cbn [skip_spaces]. now rewrite H. Qed.

Lemma command_ok_spec (cmd : string) :
  cmd <> EmptyString -> command_ok cmd = true ->
  exists x cmd', cmd = String x cmd' /\ Ascii.eqb x " " = false /\
                 Ascii.eqb x ":" = false /\ Ascii.eqb x "@" = false /\
                 has_char " " cmd = false.
Proof.
  intros Hne. unfold command_ok. rewrite !andb_true_iff, !negb_true_iff.
  intros [[H1 H2] H3]. destruct cmd as [|x cmd']; [contradiction|].
  exists x, cmd'. rewrite startswith_char in H2, H3.
  pose proof H1 as H1'. rewrite has_char_cons in H1'.
  apply orb_false_iff in H1' as [Hx _].
  repeat split; auto; rewrite Ascii.eqb_sym; assumption.
Qed.

(** The command and the parameters are read back. *)
Lemma cut_command (cmd : string) (ps : list string) :
  has_char " " cmd = false ->
  forallb middle_ok (removelast ps) = true ->
  exists rest4,
    cut " " (cmd +:+ ser_params ps) = (cmd, rest4) /\
    params_from None (default EmptyString rest4) = ps.
Proof.
  intros Hc Hps. destruct ps as [|p ps].
  - exists None. cbn [ser_params]. rewrite append_nil_r.
    split; [now apply cut_whole | reflexivity].
  - pose proof (params_from_ser_params _ Hps) as Hback.
    destruct (ser_params_space p ps) as [r Hr]. rewrite Hr in *.
    exists (Some r). split; [now apply cut_append|].
    rewrite params_from_cons in Hback. exact Hback.
Qed.

(** After the tag block, the prefix, the command and the parameters are
    read back. *)
Lemma parse_from_serialized (t : gmap string string) (p : option string)
    (cmd : string) (ps : list string) :
  cmd <> EmptyString -> command_ok cmd = true -> prefix_ok p = true ->
  forallb middle_ok (removelast ps) = true ->
  parse_from (Some t) (ser_prefix p +:+ cmd +:+ ser_params ps)
  = inr (mkMessage t p cmd ps).
Proof.
  intros Hne Hcmd Hp Hps.
  destruct (command_ok_spec _ Hne Hcmd) as (x & cmd' & Hx & Hsp & Hco & _ & Hc).
  destruct (cut_command cmd ps Hc Hps) as (rest4 & Hcut & Hback).
  apply String.eqb_neq in Hne.
  assert (Hskip : skip_spaces (cmd +:+ ser_params ps) = cmd +:+ ser_params ps).
  { rewrite Hx, append_cons. now apply skip_spaces_cons. }
  unfold parse_from. destruct p as [pf|].
  - cbn [prefix_ok] in Hp. apply negb_true_iff in Hp.
    change (ser_prefix (Some pf) +:+ cmd +:+ ser_params ps)
      with ((":" +:+ pf +:+ " ") +:+ cmd +:+ ser_params ps).
    str_norm. rewrite skip_spaces_cons by reflexivity.
    cbn [Ascii.eqb Bool.eqb andb]. rewrite (cut_append _ _ _ Hp).
    cbn -[skip_spaces cut params_from]. rewrite Hskip, Hcut, Hne.
    now rewrite Hback.
  - cbn [ser_prefix]. rewrite append_nil_l, Hskip.
    remember (cmd +:+ ser_params ps) as line eqn:Hline.
    assert (Hhead : exists r, line = String x r).
    { rewrite Hline, Hx, append_cons. eauto. }
    destruct Hhead as [r Hr]. rewrite Hr, Hco. rewrite <- Hr.
    rewrite Hskip, Hcut, Hne. now rewrite Hback.
Qed.

Lemma has_char_join (c sep : ascii) (l : list string) :
  Ascii.eqb c sep = false ->
  Forall (fun x => has_char c x = false) l ->
  has_char c (PyStr.join (String sep EmptyString) l) = false.
Proof.
  intros Hsep Hall. induction Hall as [|x l Hx Hl IH]; [reflexivity|].
  destruct l as [|y l]; [exact Hx|].
  change (PyStr.join (String sep EmptyString) (x :: y :: l))
    with (x +:+ String sep EmptyString
          +:+ PyStr.join (String sep EmptyString) (y :: l)).
  rewrite !has_char_append, Hx, IH. cbn. now rewrite Hsep.
Qed.

Lemma ser_tags_no_char (c : ascii) (l : list (string * string)) :
  (c = " "%char \/ c = ";"%char) ->
  forallb (fun kv => key_ok (fst kv)) l = true ->
  Forall (fun x => has_char c x = false) (ser_tag <$> l).
Proof.
  intros Hc Hl. apply Forall_fmap, Forall_forall. intros kv Hin.
  rewrite forallb_forall in Hl.
  apply list_elem_of_In in Hin. specialize (Hl _ Hin).
  apply key_ok_spec in Hl as (_ & Hsp & Hsc & _).
  destruct Hc as [-> | ->]; apply ser_tag_no_char;
    auto using escape_no_space, escape_no_semicolon.
Qed.

(** A serialised tag block is parsed back. *)
Lemma parse_tags_serialized (l : list (string * string)) :
  l <> [] ->
  forallb (fun kv => key_ok (fst kv)) l = true ->
  parse_tags (PyStr.join ";" (ser_tag <$> l)) = Some (foldl put ∅ l).
Proof.
  intros Hne Hl. unfold parse_tags.
  rewrite split_on_join.
  - now apply tags_of_ser_tags.
  - destruct l; [contradiction | discriminate].
  - apply ser_tags_no_char; auto.
Qed.

Lemma parse_no_tags (y : ascii) (r : string) :
  Ascii.eqb y "@" = false ->
  parse (String y r) = parse_from (Some ∅) (String y r).
Proof. intros H. cbn [parse]. now rewrite H. Qed.

Lemma parse_tag_block (b rest : string) :
  has_char " " b = false ->
  parse (String "@" (b +:+ String " " rest)) = parse_from (parse_tags b) rest.
Proof.
  intros H. cbn [parse Ascii.eqb Bool.eqb andb].
  now rewrite (cut_append _ _ _ H).
Qed.

(** C7, as amended. A message whose command is not empty, holds no space
    and begins with neither a colon nor an at sign, whose prefix holds no
    space, whose tag keys are not empty and hold no space, semicolon or
    equals sign, and of whose parameters only the last may be empty, begin
    with a colon or hold a space, is parsed back from its serialisation
    with the same tags, prefix, command and parameters. *)
Theorem parse_serialize_round_trip (m : Message) :
  legal m = true -> parse (serialize m) = inr m.
Proof.
  destruct m as [t p cmd ps]. unfold legal, legal_as_claimed.
  cbn [tags prefix command params].
  rewrite !andb_true_iff, negb_true_iff.
  intros [[[[Hne Hps] Hcmd] Hp] Hkeys]. apply String.eqb_neq in Hne.
  pose proof (parse_from_serialized t p cmd ps Hne Hcmd Hp Hps) as Hrest.
  unfold serialize, ser_tags. cbn [tags prefix command params].
  set (R := ser_prefix p +:+ cmd +:+ ser_params ps) in *.
  destruct (map_to_list t) as [|kv l] eqn:HL.
  - apply map_to_list_empty_iff in HL. subst t. rewrite append_nil_l.
    assert (Hhead : exists y r, R = String y r /\ Ascii.eqb y "@" = false).
    { destruct (command_ok_spec _ Hne Hcmd) as (x & cmd' & -> & _ & _ & Hat & _).
      subst R. destruct p as [pf|]; cbn [ser_prefix]; str_norm; eauto. }
    destruct Hhead as (y & r & Hr & Hat). rewrite Hr in *.
    now rewrite parse_no_tags.
  - set (B := PyStr.join ";" (ser_tag <$> kv :: l)).
    replace (("@" +:+ B +:+ " ") +:+ R) with (String "@" (B +:+ String " " R))
      by (now str_norm).
    rewrite parse_tag_block.
    + subst B. rewrite parse_tags_serialized by (auto; discriminate).
      rewrite <- HL, foldl_put_map_to_list. exact Hrest.
    + apply has_char_join; [reflexivity|]. apply ser_tags_no_char; auto.
Qed.

End ParserFacts.

Lemma parse_serialize_round_trip_witness :
  let m := mkMessage {["id" := "123"; "note" := "a b;c\"]}
             (Some "nick!u@h") "PRIVMSG" ["#chan"; "hello world"] in
  Parser.legal m = true /\ Parser.parse (Parser.serialize m) = inr m.
Proof.
  intros m.
  assert (H : Parser.legal m = true) by run.
  exact (conj H (ParserFacts.parse_serialize_round_trip m H)).
Defined.

(** C7, as stated, fails: a tag key with an equals sign is cut at it when
    the line is parsed. *)
Lemma tag_key_with_equals_is_not_parsed_back : ~ round_trip_as_claimed.
Proof.
  intros H.
  specialize (H (mkMessage {["a=b" := "c"]} None "PING" []) eq_refl).
  apply (f_equal (fun r => match r with
                           | inr m => tags m !! "a"
                           | inl _ => None
                           end)) in H.
  vm_compute in H. discriminate H.
Qed.

(** The examples of the specification. *)
Example parse_privmsg :
  Parser.parse "@id=123;foo=bar :nick!u@h PRIVMSG #chan :hello world"
  = inr (mkMessage {["id" := "123"; "foo" := "bar"]} (Some "nick!u@h")
           "PRIVMSG" ["#chan"; "hello world"]).
Proof. run. Qed.

Example parse_empty_trailing :
  Parser.parse "CAP * LS :" = inr (mkMessage ∅ None "CAP" ["*"; "LS"; ""]).
Proof. run. Qed.

Example serialize_tag_key_with_equals :
  Parser.serialize (mkMessage {["a=b" := "c"]} None "PING" []) = "@a=b=c PING"
  /\ Parser.parse "@a=b=c PING"
     = inr (mkMessage {["a" := "b=c"]} None "PING" []).
Proof. split; run. Qed.

Example split_example :
  PyStr.split "sasl  message-tags " = ["sasl"; "message-tags"].
Proof. reflexivity. Qed.

Example encode_example : PyStr.encode PyStr.CRLF = PyStr.bCRLF.
Proof. reflexivity. Qed.

(** * Further properties of the helpers *)

(** ** Reading lines *)

Lemma startswith_single_CRLF (c : ascii) :
  PyStr.startswith (String c EmptyString) PyStr.CRLF = false.
Proof. cbn. now rewrite andb_false_r. Qed.

(** A line found by [readline_split] is the start of the text, ends with
    the first CR LF of the text, and the rest follows it. *)
Lemma readline_split_some (s l r : string) :
  readline_split s = Some (l, r) ->
  s = l +:+ r /\
  exists body, l = body +:+ PyStr.CRLF /\ PyStr.contains body PyStr.CRLF = false.
Proof.
  revert l r. induction s as [|c s IH]; intros l r H; [discriminate|].
  rewrite readline_split_cons in H. destruct s as [|d s']; [discriminate|].
  destruct (Ascii.eqb c PyStr.CR && Ascii.eqb d PyStr.LF) eqn:Hcd.
  - injection H as <- <-. apply andb_true_iff in Hcd as [Hc Hd].
    apply Ascii.eqb_eq in Hc, Hd. subst c d.
    split; [reflexivity|]. now exists EmptyString.
  - destruct (readline_split (String d s')) as [[l' r']|] eqn:Hrec;
      [|discriminate].
    injection H as <- <-.
    destruct (IH l' r' eq_refl) as (Hs & body & Hl & Hb).
    split; [rewrite append_cons; now f_equal|].
    exists (String c body). split; [rewrite append_cons; now f_equal|].
    rewrite contains_cons, Hb, orb_false_r.
    destruct body as [|e body'].
    + apply startswith_single_CRLF.
    + rewrite startswith_CRLF. rewrite Hl, append_cons in Hs.
      injection Hs as -> _. exact Hcd.
Qed.

Lemma readline_split_none (s : string) :
  readline_split s = None -> PyStr.contains s PyStr.CRLF = false.
Proof.
  induction s as [|c s IH]; intros H; [reflexivity|].
  rewrite readline_split_cons in H. destruct s as [|d s'].
  - rewrite contains_cons, startswith_single_CRLF. reflexivity.
  - destruct (Ascii.eqb c PyStr.CR && Ascii.eqb d PyStr.LF) eqn:Hcd;
      [discriminate|].
    destruct (readline_split (String d s')) as [[l' r']|]; [discriminate|].
    now rewrite contains_cons, startswith_CRLF, Hcd, IH.
Qed.

(** X1. [getLine] neither loses nor invents input: the line it returns,
    followed by the text still to read, is the text that was to read; and
    it writes nothing and records nothing. *)
Theorem getLine_conserves_input (s : ClientCase) (line : string)
    (s' : ClientCase) :
  getLine s = (Ret line, s') ->
  inbound (conn s) = line +:+ inbound (conn s') /\
  sent (conn s') = sent (conn s) /\
  nick s' = nick s /\ user s' = user s /\
  protocol_version s' = protocol_version s /\
  acked_capabilities s' = acked_capabilities s.
Proof.
  rewrite getLine_run. unfold readline.
  destruct (readline_split (inbound (conn s))) as [[l r]|] eqn:Hsplit.
  - intros H. injection H as <- <-.
    destruct (readline_split_some _ _ _ Hsplit) as [Hs _].
    cbn. destruct (show_io s); cbn; repeat split; auto.
  - destruct (closing (conn s)); intros H; try discriminate.
    injection H as <- <-. cbn.
    destruct (show_io s); cbn; rewrite append_nil_r; repeat split; auto.
Qed.

Lemma getLine_conserves_input_witness :
  getLine (case0 ("A" +:+ PyStr.CRLF +:+ "B"))
  = (Ret ("A" +:+ PyStr.CRLF), case0 "B") /\
  inbound (conn (case0 ("A" +:+ PyStr.CRLF +:+ "B")))
  = ("A" +:+ PyStr.CRLF) +:+ inbound (conn (case0 "B")).
Proof.
  split; [reflexivity|].
  exact (proj1 (getLine_conserves_input
    (case0 ("A" +:+ PyStr.CRLF +:+ "B")) ("A" +:+ PyStr.CRLF) (case0 "B")
    eq_refl)).
Defined.

(** X2. A line returned by [getLine] is either a complete line, with one
    CR LF, at its end; or it holds no CR LF at all, and then the peer has
    closed the connection and the line is all that was left to read. *)
Theorem getLine_line_shape (s : ClientCase) (line : string)
    (s' : ClientCase) :
  getLine s = (Ret line, s') ->
  (exists body, line = body +:+ PyStr.CRLF /\
                PyStr.contains body PyStr.CRLF = false) \/
  (PyStr.contains line PyStr.CRLF = false /\
   closing (conn s) = EOF /\ line = inbound (conn s) /\
   inbound (conn s') = EmptyString).
Proof.
  rewrite getLine_run. unfold readline.
  destruct (readline_split (inbound (conn s))) as [[l r]|] eqn:Hsplit.
  - intros H. injection H as <- <-. left.
    now destruct (readline_split_some _ _ _ Hsplit) as [_ Hbody].
  - destruct (closing (conn s)); intros H; try discriminate.
    injection H as <- <-. right.
    split; [now apply readline_split_none|].
    cbn. destruct (show_io s); cbn; auto.
Qed.

Lemma getLine_line_shape_witness :
  getLine (case0 "left over") = (Ret "left over", case0 EmptyString) /\
  ((exists body, "left over" = body +:+ PyStr.CRLF /\
                 PyStr.contains body PyStr.CRLF = false) \/
   (PyStr.contains "left over" PyStr.CRLF = false /\
    closing (conn (case0 "left over")) = EOF /\
    "left over" = inbound (conn (case0 "left over")) /\
    inbound (conn (case0 EmptyString)) = EmptyString)).
Proof.
  split; [reflexivity|].
  exact (getLine_line_shape (case0 "left over") "left over"
           (case0 EmptyString) eq_refl).
Defined.

(** ** [userNickPredicate] and the messages it lets through *)

Section UserNick.

Variable parse_message : string -> exn + Message.
Variable str_format : string -> pyval -> pyval -> pyval -> exn + string.

Abbreviation upred := (userNickPredicate str_format).

(** The predicate accepts a message only when its command is neither
    [NICK] nor [USER], and then it leaves the test case as it is. *)
Lemma userNickPredicate_accepts (m : Message) (s s' : ClientCase) :
  upred m s = (Ret true, s') ->
  command m <> "NICK" /\ command m <> "USER" /\ s' = s.
Proof.
  unfold userNickPredicate, bind.
  destruct (String.eqb (command m) "NICK") eqn:Hn.
  - rewrite assertEqual_run. destruct (assertEqual_failure _ _ _ _ _);
      [discriminate|]. unfold getitem.
    destruct (params m !! 0); cbn; discriminate.
  - destruct (String.eqb (command m) "USER") eqn:Hu.
    + rewrite assertEqual_run. destruct (assertEqual_failure _ _ _ _ _);
        cbn; discriminate.
    + intros H. injection H as <-.
      apply String.eqb_neq in Hn, Hu. auto.
Qed.

Lemma userNickPredicate_refuses (m : Message) (s s' : ClientCase) :
  upred m s = (Ret false, s') ->
  command m = "NICK" \/ command m = "USER".
Proof.
  unfold userNickPredicate, bind.
  destruct (String.eqb (command m) "NICK") eqn:Hn;
    [apply String.eqb_eq in Hn; auto|].
  destruct (String.eqb (command m) "USER") eqn:Hu;
    [apply String.eqb_eq in Hu; auto|].
  discriminate.
Qed.

(** X3. Read through [userNickPredicate], [getMessage] never hands a
    [NICK] or a [USER] to its caller, and every message it dropped on the
    way was one of the two. *)
Theorem getMessage_filters_NICK_USER (fuel : nat) (s : ClientCase)
    (m : Message) (s' : ClientCase) :
  getMessage parse_message fuel (Some upred) s = (Ret m, s') ->
  command m <> "NICK" /\ command m <> "USER" /\
  exists ms,
    skipped parse_message upred s ms m s' /\
    Forall (fun m0 => command m0 = "NICK" \/ command m0 = "USER") ms.
Proof.
  intros H. apply getMessage_returns_skipped in H as (ms & _ & Hsk).
  assert (Hall : (command m <> "NICK" /\ command m <> "USER") /\
                 Forall (fun m0 => command m0 = "NICK" \/ command m0 = "USER") ms).
  { clear fuel. induction Hsk as [s m s1 s2 _ Hp | s m0 s1 s2 ms m s3 _ Hp _ IH].
    - apply userNickPredicate_accepts in Hp as (Hn & Hu & _). auto.
    - destruct IH as [Hm Hms]. split; [exact Hm|].
      constructor; [|exact Hms]. eapply userNickPredicate_refuses, Hp. }
  destruct Hall as [[Hn Hu] Hms]. eauto.
Qed.


(** X5. A [NICK] that has not exactly one parameter, or a [USER] that has
    not exactly four, fails the test with the assertion on the count, and
    neither nick nor user is recorded. *)
Theorem userNickPredicate_wrong_count (m : Message) (s : ClientCase)
    (expected : Z) :
  (command m = "NICK" /\ expected = 1%Z \/
   command m = "USER" /\ expected = 4%Z) ->
  len (params m) <> expected ->
  upred m s =
  (Exc (AssertionError
          (NotEqual (VInt (len (params m))) (VInt expected) VNone)), s).
Proof.
  intros [[Hc ->]|[Hc ->]] Hl; unfold userNickPredicate, bind;
    rewrite Hc; change (String.eqb "USER" "NICK") with false;
    rewrite String.eqb_refl, assertEqual_run, failure_of_no_fail_msg;
    (destruct (decide _) as [Heq|_]; [congruence | reflexivity]).
Qed.

(** X6. On a connection with nothing left to read, [getMessage] does not
    return: it raises the error of the socket when the read fails, blocks
    when the peer stays silent and, when the peer has closed the
    connection, hands the empty line to the parser and raises what the
    parser raises on it. *)
Theorem getMessage_at_end_of_input (fuel : nat)
    (p : option (Message -> M ClientCase bool)) (s : ClientCase) :
  inbound (conn s) = EmptyString ->
  (closing (conn s) = Reset ->
     getMessage parse_message (S fuel) p s = (Exc SocketError, s)) /\
  (closing (conn s) = Silent ->
     getMessage parse_message (S fuel) p s = (Blocked, s)) /\
  (closing (conn s) = EOF ->
     forall e, parse_message EmptyString = inl e ->
     fst (getMessage parse_message (S fuel) p s) = Exc e).
Proof.
  intros Hin. repeat split; intros Hc; cbn [getMessage]; unfold bind at 1;
    rewrite getLine_run; unfold readline; rewrite Hin, Hc;
    cbn [readline_split]; try reflexivity.
  intros e He. cbn. unfold bind, lift. rewrite He. reflexivity.
Qed.

End UserNick.

Lemma getMessage_filters_NICK_USER_witness :
  "CAP" <> "NICK" /\ "CAP" <> "USER" /\
  exists ms,
    skipped parse_line (userNickPredicate format_plain)
      (case0 ("NICK foo" +:+ PyStr.CRLF +:+ "CAP END" +:+ PyStr.CRLF))
      ms (mkMessage ∅ None "CAP" ["END"])
      (set_nick (Some "foo") (case0 EmptyString)) /\
    Forall (fun m0 => command m0 = "NICK" \/ command m0 = "USER") ms.
Proof.
  refine (getMessage_filters_NICK_USER parse_line format_plain 2
    (case0 ("NICK foo" +:+ PyStr.CRLF +:+ "CAP END" +:+ PyStr.CRLF))
    (mkMessage ∅ None "CAP" ["END"])
    (set_nick (Some "foo") (case0 EmptyString)) _).
  run.
Defined.


Lemma userNickPredicate_wrong_count_witness :
  userNickPredicate format_plain
    (mkMessage ∅ None "NICK" ["foo"; "bar"]) (case0 EmptyString)
  = (Exc (AssertionError (NotEqual (VInt 2) (VInt 1) VNone)),
     case0 EmptyString).
Proof.
  refine (userNickPredicate_wrong_count format_plain
    (mkMessage ∅ None "NICK" ["foo"; "bar"]) (case0 EmptyString) 1 _ _).
  - left. split; reflexivity.
  - discriminate.
Defined.

Lemma getMessage_at_end_of_input_witness :
  fst (getMessage parse_line 1 None (case0 EmptyString)) = Exc ParseError.
Proof.
  exact (proj2 (proj2 (getMessage_at_end_of_input parse_line 0 None
    (case0 EmptyString) eq_refl)) eq_refl ParseError eq_refl).
Defined.

(** ** More on [negotiateCapabilities] *)

Lemma bind_run {St A B} (c : M St A) (k : A -> M St B) (s : St) :
  bind c k s = propagate (c s) k.
Proof. reflexivity. Qed.

Ltac bind_step :=
  match goal with
  | |- context [@bind ?St ?A ?B ?c ?k ?s] =>
      change (@bind St A B c k s) with (propagate (c s) k)
  end.


Section NegotiationMore.

Variable parse_message : string -> exn + Message.
Variable str_format : string -> pyval -> pyval -> pyval -> exn + string.
Variable cap_list_to_dict : list string -> gmap string (option string).

Abbreviation upred' := (userNickPredicate str_format).
Abbreviation loop' := (negotiate_loop parse_message str_format).
Abbreviation negotiate :=
  (negotiateCapabilities parse_message str_format cap_list_to_dict).

(** Whatever its outcome, [sendLine] leaves the acknowledged capabilities
    as they are. *)
Lemma sendLine_acked (text : string) (s : ClientCase) :
  acked_capabilities (snd (sendLine text s)) = acked_capabilities s.
Proof.
  unfold sendLine, bind, sendall, get, print, modify, ret.
  destruct (broken (conn s)) eqn:Hb; [reflexivity|].
  destruct (negb (PyStr.endswith text PyStr.CRLF)); cbn; rewrite ?Hb; cbn;
    destruct (show_io s); reflexivity.
Qed.

(** The loop only ever acknowledges capabilities that are advertised. *)
Lemma negotiate_loop_acked (fuel : nat) (caps : gset string)
    (s : ClientCase) :
  acked_capabilities s ⊆ caps ->
  acked_capabilities (snd (loop' fuel caps s)) ⊆ caps.
Proof.
  revert s. induction fuel as [|fuel IH]; intros s Hs; [exact Hs|].
  cbn [negotiate_loop]. unfold bind at 1.
  pose proof (getMessage_acked parse_message str_format fuel s) as Hg.
  destruct (getMessage parse_message fuel (Some upred') s) as [[m| | |] s1];
    cbn in Hg; cbn; try (rewrite Hg; exact Hs).
  destruct (negb (String.eqb (command m) "CAP")); cbn;
    [rewrite Hg; exact Hs|].
  bind_step. unfold assertGreater at 1.
  destruct (0 <? len (params m))%Z; cbn [propagate ret raise snd];
    [|rewrite Hg; exact Hs].
  bind_step. unfold getitem at 1.
  destruct (params m !! 0) as [p0|]; cbn [propagate ret raise snd];
    [|rewrite Hg; exact Hs].
  destruct (String.eqb p0 "REQ"); cbn [propagate ret raise snd];
    [|rewrite Hg; exact Hs].
  bind_step. rewrite assertEqual_run.
  destruct (assertEqual_failure _ _ _ _ _); cbn [propagate ret raise snd];
    [rewrite Hg; exact Hs|].
  bind_step. unfold getitem at 1.
  destruct (params m !! 1) as [names|]; cbn [propagate ret raise snd];
    [|rewrite Hg; exact Hs].
  bind_step.
  destruct (bool_decide (requested_of names ⊆ caps)) eqn:Hsub;
    cbn [negb]; bind_step; unfold get at 1; cbn [propagate].
  - bind_step.
    match goal with
    | |- context [sendLine ?t s1] =>
        pose proof (sendLine_acked t s1) as Hsend;
        destruct (sendLine t s1) as [[[]| | |] s2]
    end; cbn [propagate snd] in *; try (rewrite Hsend, Hg; exact Hs).
    unfold modify at 1. cbn [propagate].
    apply IH. cbn. rewrite Hsend, Hg.
    apply bool_decide_eq_true_1 in Hsub. now apply union_least.
  - match goal with
    | |- context [sendLine ?t s1] =>
        pose proof (sendLine_acked t s1) as Hsend;
        destruct (sendLine t s1) as [[[]| | |] s2]
    end; cbn [propagate snd] in *; try (rewrite Hsend, Hg; exact Hs).
    apply IH. rewrite Hsend, Hg. exact Hs.
Qed.

(** X7. Whatever [negotiateCapabilities] does and however it ends, the
    capabilities acknowledged afterwards are advertised ones, unless the
    call ended before the negotiation began, in which case they are the
    ones of before the call. *)
Theorem negotiate_acks_only_advertised (fuel : nat) (caps : list string)
    (cap_ls : bool) (s : ClientCase) :
  let s' := snd (negotiate fuel caps cap_ls s) in
  acked_capabilities s' ⊆ dom (cap_list_to_dict caps) \/
  acked_capabilities s' = acked_capabilities s.
Proof.
  cbn zeta.
  cut (forall t, t = snd (negotiate fuel caps cap_ls s) ->
         acked_capabilities t ⊆ dom (cap_list_to_dict caps) \/
         acked_capabilities t = acked_capabilities s);
    [intros H; exact (H _ eq_refl)|].
  intros t. unfold negotiateCapabilities. bind_step.
  assert (Hloop : forall s0,
    acked_capabilities
      (snd ((modify (set_acked_capabilities ∅) ;;
             loop' fuel (dom (cap_list_to_dict caps))) s0))
    ⊆ dom (cap_list_to_dict caps)).
  { intros s0. bind_step. unfold modify. cbn [propagate].
    apply negotiate_loop_acked. cbn. apply empty_subseteq. }
  destruct cap_ls; [|cbn [ret propagate]; intros ->; left; apply Hloop].
  bind_step. rewrite readCapLs_unfold.
  assert (Hread : forall r s1,
    getMessage parse_message fuel None s = (r, s1) ->
    acked_capabilities s1 = acked_capabilities s).
  { destruct fuel as [|fuel']; cbn [getMessage]; intros r s1 H.
    - now injection H as <- <-.
    - unfold bind in H. pose proof (getLine_acked s) as Hg.
      destruct (getLine s) as [[line| | |] s0]; cbn in Hg;
        try (injection H as <- <-; exact Hg).
      unfold lift in H.
      destruct (parse_message line); injection H as <- <-; exact Hg. }
  destruct (getMessage parse_message fuel None s) as [[m| | |] s1] eqn:Hm;
    specialize (Hread _ _ eq_refl); cbn [propagate snd];
    try (intros ->; solve [auto]).
  destruct (decide (VStr (command m) = VStr "CAP")); cbn [propagate snd];
    try (intros ->; solve [auto]).
  repeat (destruct (decide _); cbn [propagate snd]; try (intros ->; solve [auto])).
  all: bind_step; unfold get at 1; cbn [propagate set_protocol_version
    protocol_version no_version Z.eqb ret]; cbn [propagate snd];
    try (intros ->; solve [auto]).
  all: bind_step;
    match goal with
    | |- context [sendLine ?t ?s1] =>
        pose proof (sendLine_acked t s1) as Hsend;
        destruct (sendLine t s1) as [[[]| | |] s2]
    end; cbn in Hsend; cbn [propagate snd ret]; intros ->;
    try (right; congruence).
  all: left; apply Hloop.
Qed.

(** Reading a line writes nothing and acknowledges nothing. *)
Lemma getLine_run_fields (s : ClientCase) (line : string) (s0 : ClientCase) :
  getLine s = (Ret line, s0) ->
  sent (conn s0) = sent (conn s) /\
  acked_capabilities s0 = acked_capabilities s.
Proof.
  rewrite getLine_run. unfold readline.
  destruct (readline_split (inbound (conn s))) as [[l r]|].
  - intros H. injection H as <- <-. cbn. destruct (show_io s); cbn; auto.
  - destruct (closing (conn s)); intros H; try discriminate.
    injection H as <- <-. cbn. destruct (show_io s); cbn; auto.
Qed.

(** What [readCapLs] does with a [CAP] message of an accepted form. *)
Lemma readCapLs_run (fuel : nat) (s : ClientCase) (m : Message)
    (s1 : ClientCase) (v : option Z) :
  getMessage parse_message fuel None s = (Ret m, s1) ->
  command m = "CAP" ->
  (params m = ["LS"] /\ v = Some 301%Z) \/
  (params m = ["LS"; "302"] /\ v = Some 302%Z) \/
  (params m = ["END"] /\ v = None) ->
  readCapLs parse_message str_format fuel s
  = (Ret tt, set_protocol_version v s1).
Proof.
  intros Hread Hc Hp. rewrite readCapLs_unfold, Hread. cbn [propagate].
  rewrite Hc. destruct (decide _) as [_|Hne]; [|congruence].
  destruct Hp as [[-> ->]|[[-> ->]|[-> ->]]]; reflexivity.
Qed.

(** The loop hands back a message that is no [CAP REQ]. *)
Lemma negotiate_loop_returns (fuel : nat) (caps : gset string)
    (s : ClientCase) (m : Message) (s1 : ClientCase) :
  getMessage parse_message fuel (Some upred') s = (Ret m, s1) ->
  (command m <> "CAP" \/
   exists p0 rest, params m = p0 :: rest /\ p0 <> "REQ") ->
  loop' (S fuel) caps s = (Ret (Some m), s1).
Proof.
  intros Hread Hm. cbn [negotiate_loop]. bind_step. rewrite Hread.
  cbn [propagate].
  destruct (String.eqb (command m) "CAP") eqn:Hc; [|reflexivity].
  destruct Hm as [Hm|(p0 & rest & Hp & Hne)].
  - apply String.eqb_eq in Hc. contradiction.
  - cbn [negb]. bind_step. unfold assertGreater, len. rewrite Hp.
    replace (0 <? Z.of_nat (length (p0 :: rest)))%Z with true
      by (symmetry; apply Z.ltb_lt; cbn [length]; lia).
    cbn [propagate ret]. bind_step.
    cbn [getitem lookup list_lookup propagate ret].
    apply String.eqb_neq in Hne. now rewrite Hne.
Qed.

(** X8. A [CAP] message without parameters, or a [CAP REQ] that has not
    exactly two parameters, fails the test at once with the assertion on
    the count: nothing is answered and nothing acknowledged. *)
Theorem negotiate_malformed_CAP (fuel : nat) (caps : gset string)
    (s : ClientCase) (m : Message) (s1 : ClientCase) :
  getMessage parse_message fuel (Some upred') s = (Ret m, s1) ->
  command m = "CAP" ->
  (params m = [] ->
     loop' (S fuel) caps s
     = (Exc (AssertionError (NotGreater 0 0 (VMsg m))), s1)) /\
  (forall rest, params m = "REQ" :: rest -> length rest <> 1 ->
     loop' (S fuel) caps s
     = (Exc (AssertionError
               (NotEqual (VInt (len (params m))) (VInt 2) VNone)), s1)).
Proof.
  intros Hread Hc. split.
  - intros Hp. cbn [negotiate_loop]. bind_step. rewrite Hread.
    cbn [propagate]. rewrite Hc. change (negb ("CAP" =? "CAP")) with false.
    cbv iota. bind_step. unfold assertGreater, len. rewrite Hp. reflexivity.
  - intros rest Hp Hl. cbn [negotiate_loop]. bind_step. rewrite Hread.
    cbn [propagate]. rewrite Hc. change (negb ("CAP" =? "CAP")) with false.
    cbv iota. bind_step. unfold assertGreater, len. rewrite Hp.
    replace (0 <? Z.of_nat (length ("REQ" :: rest)))%Z with true
      by (symmetry; apply Z.ltb_lt; cbn [length]; lia).
    cbn [propagate ret]. bind_step. cbn [getitem lookup list_lookup propagate ret].
    rewrite String.eqb_refl. bind_step.
    rewrite assertEqual_run, failure_of_no_fail_msg.
    destruct (decide _) as [Heq|_]; [|reflexivity].
    injection Heq as Heq. cbn [length] in Heq. lia.
Qed.

Lemma negotiate_END_run (fuel : nat) (caps : list string)
    (s : ClientCase) (m : Message) (s1 : ClientCase) :
  getMessage parse_message (S fuel) None s = (Ret m, s1) ->
  command m = "CAP" -> params m = ["END"] ->
  negotiate (S fuel) caps true s
  = (Ret None, set_protocol_version None s1).
Proof.
  intros Hread Hc Hp.
  unfold negotiateCapabilities. bind_step. bind_step.
  rewrite (readCapLs_run (S fuel) s m s1 None Hread Hc) by auto.
  reflexivity.
Qed.

(** X9. When the first message of the client is [CAP END],
    [negotiateCapabilities] returns without a value: nothing is advertised,
    no message after it is read, and the acknowledged capabilities are not
    even emptied. *)
Theorem negotiate_skipped_by_CAP_END (fuel : nat) (caps : list string)
    (s : ClientCase) (m : Message) (s1 : ClientCase) :
  getMessage parse_message (S fuel) None s = (Ret m, s1) ->
  command m = "CAP" -> params m = ["END"] ->
  negotiate (S fuel) caps true s
  = (Ret None, set_protocol_version None s1) /\
  sent (conn (set_protocol_version None s1)) = sent (conn s) /\
  acked_capabilities (set_protocol_version None s1) = acked_capabilities s.
Proof.
  intros Hread Hc Hp.
  split; [exact (negotiate_END_run fuel caps s m s1 Hread Hc Hp)|].
  cbn [getMessage] in Hread. unfold bind in Hread.
  destruct (getLine s) as [[line| | |] s0] eqn:Hline; try discriminate.
  unfold lift in Hread.
  destruct (parse_message line); [discriminate|].
  injection Hread as _ <-.
  destruct (getLine_run_fields s line s0 Hline) as (Hsent & Hacked).
  cbn. auto.
Qed.

Lemma negotiate_LS_run (fuel : nat) (caps : list string)
    (s : ClientCase) (m : Message) (s1 : ClientCase) (v : Z) :
  getMessage parse_message (S fuel) None s = (Ret m, s1) ->
  command m = "CAP" ->
  (params m = ["LS"] /\ v = 301%Z) \/ (params m = ["LS"; "302"] /\ v = 302%Z) ->
  broken (conn s1) = false ->
  exists s2,
    sendLine ("CAP * LS :" +:+ PyStr.join " " caps)
      (set_protocol_version (Some v) s1) = (Ret tt, s2) /\
    sent (conn s2) =
      sent (conn s1) ++
        PyStr.encode ("CAP * LS :" +:+ PyStr.join " " caps) ::
        (if PyStr.endswith ("CAP * LS :" +:+ PyStr.join " " caps) PyStr.CRLF
         then [] else [PyStr.bCRLF]) /\
    negotiate (S fuel) caps true s
    = loop' (S fuel) (dom (cap_list_to_dict caps))
        (set_acked_capabilities ∅ s2).
Proof.
  intros Hread Hc Hp Hb.
  assert (Hcap : readCapLs parse_message str_format (S fuel) s
                 = (Ret tt, set_protocol_version (Some v) s1)).
  { apply (readCapLs_run (S fuel) s m s1 (Some v) Hread Hc).
    destruct Hp as [[Hp ->]|[Hp ->]]; auto. }
  assert (Hv : no_version (Some v) = false).
  { destruct Hp as [[_ ->]|[_ ->]]; reflexivity. }
  destruct (sendLine_run ("CAP * LS :" +:+ PyStr.join " " caps)
              (set_protocol_version (Some v) s1) Hb)
    as (s2 & Hsend & Hconn & _).
  exists s2. split; [exact Hsend|]. split; [now rewrite Hconn|].
  unfold negotiateCapabilities. bind_step. bind_step. rewrite Hcap.
  cbn [propagate]. bind_step. unfold get at 1. cbn [propagate].
  cbn [protocol_version set_protocol_version]. rewrite Hv.
  bind_step. rewrite Hsend. reflexivity.
Qed.


End NegotiationMore.

Lemma negotiate_malformed_CAP_witness :
  negotiate_loop parse_line format_plain 2 ∅
    (case0 ("CAP REQ" +:+ PyStr.CRLF))
  = (Exc (AssertionError (NotEqual (VInt 1) (VInt 2) VNone)),
     case0 EmptyString).
Proof.
  refine (proj2 (negotiate_malformed_CAP parse_line format_plain 1 ∅
    (case0 ("CAP REQ" +:+ PyStr.CRLF)) (mkMessage ∅ None "CAP" ["REQ"])
    (case0 EmptyString) _ eq_refl) [] eq_refl _).
  - run.
  - discriminate.
Defined.

Lemma negotiate_skipped_by_CAP_END_witness :
  negotiateCapabilities parse_line format_plain cap_dict 1 ["sasl"] true
    (case0 ("CAP END" +:+ PyStr.CRLF +:+ "NICK foo" +:+ PyStr.CRLF))
  = (Ret None,
     set_protocol_version None (case0 ("NICK foo" +:+ PyStr.CRLF))).
Proof.
  refine (proj1 (negotiate_skipped_by_CAP_END parse_line format_plain cap_dict 0
    ["sasl"] (case0 ("CAP END" +:+ PyStr.CRLF +:+ "NICK foo" +:+ PyStr.CRLF))
    (mkMessage ∅ None "CAP" ["END"]) (case0 ("NICK foo" +:+ PyStr.CRLF))
    _ eq_refl eq_refl)).
  run.
Defined.


(** ** The tests of [test_cap.py] *)

Section CapTests.

Variable parse_message : string -> exn + Message.
Variable str_format : string -> pyval -> pyval -> pyval -> exn + string.
Variable cap_list_to_dict : list string -> gmap string (option string).

Abbreviation END_message := (mkMessage ∅ None "CAP" ["END"]).
Abbreviation the_test :=
  (testEmptyCapLs parse_message str_format cap_list_to_dict).

(** X11. [testEmptyCapLs] fails for a client whose first message is
    [CAP END]: [negotiateCapabilities] then returns no message, and the
    test compares [None] with the [CAP END] it expects. *)
Theorem testEmptyCapLs_fails_on_immediate_END (fuel : nat)
    (s : ClientCase) (m : Message) (s1 : ClientCase) :
  getMessage parse_message (S fuel) None s = (Ret m, s1) ->
  command m = "CAP" -> params m = ["END"] ->
  the_test (S fuel) s
  = (Exc (AssertionError (NotEqual VNone (VMsg END_message) VNone)),
     set_protocol_version None s1).
Proof.
  intros Hread Hc Hp. unfold testEmptyCapLs. bind_step.
  rewrite (negotiate_END_run parse_message str_format
             cap_list_to_dict fuel [] s m s1 Hread Hc Hp).
  cbn [propagate VOptMsg]. rewrite assertEqual_run, failure_of_no_fail_msg.
  destruct (decide _) as [Heq|_]; [discriminate Heq | reflexivity].
Qed.

(** X12. After [CAP LS] or [CAP LS 302], [testEmptyCapLs] answers with the
    empty list, [CAP * LS :]; when the next message that is neither [NICK]
    nor [USER] is no [CAP REQ], the test passes exactly if that message is
    [CAP END] with no tag, no prefix and no other parameter. *)
Theorem testEmptyCapLs_after_LS (fuel : nat) (s : ClientCase)
    (m0 : Message) (s1 s2 : ClientCase) (v : Z) (m : Message)
    (s3 : ClientCase) :
  getMessage parse_message (S fuel) None s = (Ret m0, s1) ->
  command m0 = "CAP" ->
  (params m0 = ["LS"] /\ v = 301%Z) \/
  (params m0 = ["LS"; "302"] /\ v = 302%Z) ->
  sendLine "CAP * LS :" (set_protocol_version (Some v) s1) = (Ret tt, s2) ->
  getMessage parse_message fuel (Some (userNickPredicate str_format))
    (set_acked_capabilities ∅ s2) = (Ret m, s3) ->
  (command m <> "CAP" \/
   exists p0 rest, params m = p0 :: rest /\ p0 <> "REQ") ->
  the_test (S fuel) s =
  (if decide (m = END_message) then Ret tt
   else Exc (AssertionError (NotEqual (VMsg m) (VMsg END_message) VNone)),
   s3).
Proof.
  intros Hread Hc Hp Hsend Hnext Hm.
  assert (Hb : broken (conn s1) = false).
  { destruct (broken (conn s1)) eqn:Hb; [|reflexivity].
    rewrite sendLine_broken in Hsend by exact Hb. discriminate. }
  destruct (negotiate_LS_run parse_message str_format cap_list_to_dict
              fuel [] s m0 s1 v Hread Hc Hp Hb) as (s2' & Hsend' & _ & Hrun).
  change ("CAP * LS :" +:+ PyStr.join " " []) with "CAP * LS :" in Hsend'.
  rewrite Hsend in Hsend'. injection Hsend' as <-.
  pose proof (negotiate_loop_returns parse_message str_format fuel
                (dom (cap_list_to_dict [])) _ m s3 Hnext Hm) as Hloop.
  unfold testEmptyCapLs. bind_step. rewrite Hrun, Hloop.
  cbn [propagate VOptMsg]. rewrite assertEqual_run, failure_of_no_fail_msg.
  destruct (decide (VMsg m = VMsg END_message)) as [Heq|Hne];
    destruct (decide (m = END_message)) as [Heq'|Hne'];
    try reflexivity; congruence.
Qed.

End CapTests.

Lemma testEmptyCapLs_fails_on_immediate_END_witness :
  testEmptyCapLs parse_line format_plain cap_dict 1
    (case0 ("CAP END" +:+ PyStr.CRLF))
  = (Exc (AssertionError
            (NotEqual VNone (VMsg (mkMessage ∅ None "CAP" ["END"])) VNone)),
     set_protocol_version None (case0 EmptyString)).
Proof.
  refine (testEmptyCapLs_fails_on_immediate_END parse_line format_plain
    cap_dict 0 (case0 ("CAP END" +:+ PyStr.CRLF))
    (mkMessage ∅ None "CAP" ["END"]) (case0 EmptyString) _ eq_refl eq_refl).
  run.
Defined.

Lemma testEmptyCapLs_after_LS_witness :
  testEmptyCapLs parse_line format_plain cap_dict 2
    (case0 ("CAP LS" +:+ PyStr.CRLF +:+ ":srv CAP END" +:+ PyStr.CRLF))
  = (Exc (AssertionError
            (NotEqual (VMsg (mkMessage ∅ (Some "srv") "CAP" ["END"]))
               (VMsg (mkMessage ∅ None "CAP" ["END"])) VNone)),
     mkClientCase false []
       (mkConn EmptyString EOF false
          [PyStr.encode "CAP * LS :"; PyStr.bCRLF])
       None None (Some 301%Z) ∅).
Proof.
  etransitivity.
  - refine (testEmptyCapLs_after_LS parse_line format_plain cap_dict 1
      (case0 ("CAP LS" +:+ PyStr.CRLF +:+ ":srv CAP END" +:+ PyStr.CRLF))
      (mkMessage ∅ None "CAP" ["LS"])
      (case0 (":srv CAP END" +:+ PyStr.CRLF))
      (mkClientCase false []
         (mkConn (":srv CAP END" +:+ PyStr.CRLF) EOF false
            [PyStr.encode "CAP * LS :"; PyStr.bCRLF])
         None None (Some 301%Z) ∅)
      301 (mkMessage ∅ (Some "srv") "CAP" ["END"])
      (mkClientCase false []
         (mkConn EmptyString EOF false
            [PyStr.encode "CAP * LS :"; PyStr.bCRLF])
         None None (Some 301%Z) ∅)
      _ eq_refl _ _ _ _).
    + run.
    + left. split; reflexivity.
    + run.
    + run.
    + right. exists "END", []. split; [reflexivity | discriminate].
  - run.
Defined.

(** ** [assertEqual] and the comparisons by keyword *)

Section PlainComparisons.

Variable str_format : string -> pyval -> pyval -> pyval -> exn + string.

(** X13. [assertEqual] formats the failure message before it compares: a
    message that [str.format] refuses makes the assertion raise the error
    of the formatting even when the two values are equal. Without a
    message, or with the empty one, it passes exactly when they are
    equal, whatever [str.format] would do. *)
Theorem assertEqual_formats_first (got expects msg : pyval)
    (s : IrcTestCase) :
  (forall (fail_msg : string) (e : exn),
     fail_msg <> EmptyString ->
     str_format fail_msg got expects msg = inl e ->
     assertEqual str_format got expects msg (Some fail_msg) s = (Exc e, s)) /\
  (forall quiet : option string,
     quiet = None \/ quiet = Some EmptyString ->
     (assertEqual str_format got expects msg quiet s = (Ret tt, s)
      <-> got = expects)).
Proof.
  split.
  - intros fail_msg e Hne Hfmt.
    unfold assertEqual, bind, lift. apply String.eqb_neq in Hne.
    now rewrite Hne, Hfmt.
  - intros quiet [-> | ->]; unfold assertEqual, bind, ret, raise; cbn;
      destruct (decide (got = expects)); split; intros H;
      try reflexivity; try assumption; try discriminate; contradiction.
Qed.

(** X14. With neither sub-command nor sub-parameters and no failure
    message, [assertMessageEqual] passes exactly when every keyword names
    a field of the message that equals the value given; nothing is
    reported on the side. *)
Theorem assertMessageEqual_plain (msg : Message) (target : pyval)
    (kwargs : list (field * pyval)) (s : IrcTestCase) :
  assertMessageEqual str_format msg None None target None kwargs s
  = (Ret tt, s)
  <-> Forall (fun kv => getattr msg (fst kv) = snd kv) kwargs.
Proof.
  unfold assertMessageEqual. cbn [is_not_None orb].
  induction kwargs as [|[k v] kwargs IH].
  - split; [constructor | reflexivity].
  - cbn [for_each]. bind_step. bind_step. rewrite assertEqual_run.
    rewrite failure_of_no_fail_msg. cbn [fst snd].
    destruct (decide (getattr msg k = v)) as [Heq|Hne]; cbn [propagate].
    + rewrite <- bind_run. rewrite IH. split.
      * intros H. constructor; assumption.
      * intros H. now inversion H.
    + split; [discriminate|]. intros H. inversion H. contradiction.
Qed.

(** X15. A keyword whose comparison fails ends [assertMessageEqual] with
    that failure before the sub-command and the sub-parameters are looked
    at: no sub-test is reported, and the number of parameters is not
    checked. *)
Theorem assertMessageEqual_keyword_first (msg : Message)
    (subcommand : option string) (subparams : option (list string))
    (target : pyval) (fail_msg : option string)
    (before after : list (field * pyval)) (k : field) (v : pyval)
    (e : exn) (s : IrcTestCase) :
  kwargs_hold str_format msg fail_msg before ->
  assertEqual_failure str_format (getattr msg k) v (VMsg msg) fail_msg
  = Some e ->
  assertMessageEqual str_format msg subcommand subparams target fail_msg
    (before ++ (k, v) :: after) s
  = (Exc e, s).
Proof.
  intros Hbefore Hfail. unfold assertMessageEqual. bind_step.
  induction Hbefore as [|kv before Hkv _ IH].
  - cbn [app for_each]. bind_step. rewrite assertEqual_run. cbn [fst snd].
    now rewrite Hfail.
  - cbn [app for_each]. bind_step. rewrite assertEqual_run, Hkv.
    cbn [propagate]. exact IH.
Qed.

End PlainComparisons.

Lemma assertEqual_formats_first_witness :
  assertEqual (fun _ _ _ _ => inl (KeyError "x")) (VInt 1) (VInt 1) VNone
    (Some "{x}") (mkIrcTestCase [])
  = (Exc (KeyError "x"), mkIrcTestCase []) /\
  (assertEqual format_plain (VInt 1) (VInt 2) VNone None (mkIrcTestCase [])
   = (Ret tt, mkIrcTestCase [])
   <-> VInt 1 = VInt 2).
Proof.
  split.
  - refine (proj1 (assertEqual_formats_first
      (fun _ _ _ _ => inl (KeyError "x"))
      (VInt 1) (VInt 1) VNone (mkIrcTestCase [])) "{x}" (KeyError "x") _
      eq_refl).
    discriminate.
  - exact (proj2 (assertEqual_formats_first format_plain
      (VInt 1) (VInt 2) VNone (mkIrcTestCase [])) None (or_introl eq_refl)).
Defined.

Lemma assertMessageEqual_keyword_first_witness :
  assertMessageEqual format_plain (mkMessage ∅ None "CAP" ["*"])
    (Some "LS") None VNone None [(Fcommand, VStr "PING")] (mkIrcTestCase [])
  = (Exc (AssertionError (NotEqual (VStr "CAP") (VStr "PING") VNone)),
     mkIrcTestCase []).
Proof.
  refine (assertMessageEqual_keyword_first format_plain
    (mkMessage ∅ None "CAP" ["*"]) (Some "LS") None VNone None [] []
    Fcommand (VStr "PING") _ (mkIrcTestCase []) _ eq_refl).
  constructor.
Defined.

(** ** The clients of a server test *)

Module BaseServerFacts.

Import BaseServer.

Section Dictionary.

Context {V : Type}.
Implicit Types (d : list (name * V)) (k : name) (v : V).

Lemma od_get_None k d : k ∉ d.*1 -> od_get k d = None.
Proof.
  induction d as [|[k' v'] d IH]; intros H; [reflexivity|].
  cbn [fmap list_fmap fst] in H. apply not_elem_of_cons in H as [Hne Hd].
  cbn [od_get]. destruct (decide (k' = k)); [congruence | auto].
Qed.

Lemma od_get_set_eq k v d : od_get k (od_set k v d) = Some v.
Proof.
  induction d as [|[k' v'] d IH]; cbn [od_set od_get].
  - now rewrite decide_True.
  - destruct (decide (k' = k)) as [->|Hne]; cbn [od_get].
    + now rewrite decide_True.
    + now rewrite decide_False.
Qed.

Lemma od_get_set_ne k k0 v d :
  k0 <> k -> od_get k0 (od_set k v d) = od_get k0 d.
Proof.
  intros Hne. induction d as [|[k' v'] d IH]; cbn [od_set od_get].
  - now rewrite decide_False by congruence.
  - destruct (decide (k' = k)) as [->|Hk]; cbn [od_get].
    + now rewrite !decide_False by congruence.
    + destruct (decide (k' = k0)); auto.
Qed.

Lemma od_set_set k v v' d : od_set k v' (od_set k v d) = od_set k v' d.
Proof.
  induction d as [|[k' v0] d IH]; cbn [od_set].
  - now rewrite decide_True.
  - destruct (decide (k' = k)) as [->|Hne]; cbn [od_set].
    + now rewrite decide_True.
    + rewrite decide_False by assumption. now rewrite IH.
Qed.

Lemma od_set_fresh k v d : od_get k d = None -> od_set k v d = d ++ [(k, v)].
Proof.
  induction d as [|[k' v'] d IH]; cbn [od_get od_set]; [reflexivity|].
  destruct (decide (k' = k)); [discriminate|]. intros H.
  cbn [app]. now rewrite IH.
Qed.

Lemma od_del_set k v d : od_del k (od_set k v d) = od_del k d.
Proof.
  induction d as [|[k' v'] d IH]; cbn [od_set od_del].
  - now rewrite decide_True.
  - destruct (decide (k' = k)) as [->|Hne]; cbn [od_del].
    + now rewrite decide_True.
    + rewrite decide_False by assumption. now rewrite IH.
Qed.

Lemma od_get_del_ne k k0 d : k0 <> k -> od_get k0 (od_del k d) = od_get k0 d.
Proof.
  intros Hne. induction d as [|[k' v'] d IH]; cbn [od_del od_get]; [reflexivity|].
  destruct (decide (k' = k)) as [->|Hk]; cbn [od_get].
  - now rewrite decide_False by congruence.
  - destruct (decide (k' = k0)); auto.
Qed.

Lemma od_get_del_eq k d : NoDup d.*1 -> od_get k (od_del k d) = None.
Proof.
  induction d as [|[k' v'] d IH]; intros Hnd; [reflexivity|].
  cbn [fmap list_fmap fst] in Hnd. apply NoDup_cons in Hnd as [Hk Hd].
  cbn [od_del]. destruct (decide (k' = k)) as [->|Hne].
  - now apply od_get_None.
  - cbn [od_get]. rewrite decide_False by assumption. auto.
Qed.

End Dictionary.

Lemma max_with_0_ge (zs : list Z) (z : Z) :
  z ∈ zs -> (z <= max_with_0 zs)%Z.
Proof.
  induction zs as [|y zs IH]; intros H; [now apply elem_of_nil in H|].
  cbn [max_with_0 foldr]. apply elem_of_cons in H as [->|H].
  - apply Z.le_max_l.
  - etransitivity; [apply IH, H | apply Z.le_max_r].
Qed.

Lemma max_with_0_nonneg (zs : list Z) : (0 <= max_with_0 zs)%Z.
Proof.
  induction zs as [|y zs IH]; cbn [max_with_0 foldr]; [lia|].
  etransitivity; [exact IH | apply Z.le_max_r].
Qed.

Section Clients.

Variable ClientMock : Type.
Variable new_mock : name -> bool -> ClientMock.
Variable mock_connect : ClientMock -> outcome unit * ClientMock.
Variable mock_disconnect : ClientMock -> outcome unit * ClientMock.
Variable controller_kill : exn + unit.
Variable int_of_str : string -> option Z.

Abbreviation Test := (ServerTest ClientMock).
Abbreviation add := (addClient ClientMock new_mock mock_connect int_of_str).
Abbreviation remove := (removeClient ClientMock mock_disconnect).
Abbreviation tear := (tearDown ClientMock mock_disconnect controller_kill).
Abbreviation with_clients := (set_clients ClientMock).
Abbreviation clients_of := (clients ClientMock).
Abbreviation show_io_of := (show_io ClientMock).

Lemma mapM_None_elem {A B} (f : A -> option B) (l : list A) (x : A) :
  x ∈ l -> f x = None -> mapM f l = None.
Proof.
  intros Hin Hx. induction l as [|a l IH]; [now apply elem_of_nil in Hin|].
  cbn [mapM]. apply elem_of_cons in Hin as [<-|Hin].
  - now rewrite Hx.
  - destruct (f a); [|reflexivity]. cbn. now rewrite (IH Hin).
Qed.

(** An integer above every integer name cannot be a name in use. *)
Lemma fresh_above (d : list (name * ClientMock)) (zs : list Z) (n : Z) :
  mapM (int_of_name int_of_str) (d.*1) = Some zs ->
  (max_with_0 zs < n)%Z ->
  (NInt n ∉ d.*1) /\ (forall z, NInt z ∈ d.*1 -> (z < n)%Z).
Proof.
  intros Hmap Hn. apply mapM_Some in Hmap.
  assert (Hz : forall z, NInt z ∈ d.*1 -> (z < n)%Z).
  { intros z Hin.
    destruct (proj1 (list_elem_of_lookup _ _) Hin) as [i Hi].
    destruct (Forall2_lookup_l _ _ _ _ _ Hmap Hi) as (y & Hy & Hint).
    cbn in Hint. injection Hint as <-.
    pose proof (max_with_0_ge zs z
                  (proj2 (list_elem_of_lookup _ _) (ex_intro _ i Hy))).
    lia. }
  split; [|exact Hz]. intros Hin. specialize (Hz n Hin). lia.
Qed.

(** How [addClient] ends once the name is fixed. *)
Lemma addClient_named_run (nm : option name) (n : name)
    (show : option bool) (s : Test) :
  nm = Some n -> falsy nm = false ->
  add nm show s =
  let c := new_mock n (default (show_io_of s) show) in
  let (r, c') := mock_connect c in
  (match r with
   | Ret _ => Ret n
   | Exc e => Exc e
   | Blocked => Blocked
   | OutOfFuel => OutOfFuel
   end,
   with_clients (od_set n c' (clients_of s)) s).
Proof.
  intros -> Hf. unfold addClient. rewrite Hf. cbn [default].
  unfold bind, ret, get, modify, on_client. cbn.
  rewrite od_get_set_eq. destruct (mock_connect _) as [[[]| | |] c'];
    cbn; now rewrite od_set_set.
Qed.

Lemma addClient_fresh_run (nm : option name) (show : option bool)
    (s : Test) (zs : list Z) :
  falsy nm = true ->
  mapM (int_of_name int_of_str) ((clients_of s).*1) = Some zs ->
  add nm show s =
  let n := NInt (max_with_0 zs + 1) in
  let c := new_mock n (default (show_io_of s) show) in
  let (r, c') := mock_connect c in
  (match r with
   | Ret _ => Ret n
   | Exc e => Exc e
   | Blocked => Blocked
   | OutOfFuel => OutOfFuel
   end,
   with_clients (clients_of s ++ [(n, c')]) s).
Proof.
  intros Hf Hmap. unfold addClient. rewrite Hf.
  unfold bind, ret, get, modify, on_client. cbn. rewrite Hmap. cbn.
  destruct (fresh_above _ zs (max_with_0 zs + 1) Hmap ltac:(lia)) as [Hfresh _].
  rewrite (od_set_fresh _ _ _ (od_get_None _ _ Hfresh)).
  rewrite <- (od_set_fresh _ _ _ (od_get_None _ _ Hfresh)) at 1.
  rewrite od_get_set_eq.
  destruct (mock_connect _) as [[[]| | |] c']; cbn;
    rewrite <- (od_set_fresh _ (new_mock _ _) _ (od_get_None _ _ Hfresh)),
      od_set_set, (od_set_fresh _ _ _ (od_get_None _ _ Hfresh));
    reflexivity.
Qed.

(** X16. Called without a name (or with [0] or the empty string) when
    every name in use reads as an integer, [addClient] names the client one
    above the greatest of these integers and of 0: a name of at least 1,
    above every integer name in use (so never 0 and never a gap below the
    greatest), and not in use. The client is added after the others and
    connected. *)
Theorem addClient_chooses_fresh_name (nm : option name)
    (show : option bool) (s : Test) (zs : list Z) (c' : ClientMock) :
  falsy nm = true ->
  mapM (int_of_name int_of_str) ((clients_of s).*1) = Some zs ->
  mock_connect (new_mock (NInt (max_with_0 zs + 1))
                  (default (show_io_of s) show)) = (Ret tt, c') ->
  let n := (max_with_0 zs + 1)%Z in
  add nm show s
  = (Ret (NInt n), with_clients (clients_of s ++ [(NInt n, c')]) s) /\
  (1 <= n)%Z /\
  (NInt n ∉ (clients_of s).*1) /\
  (forall z, NInt z ∈ (clients_of s).*1 -> (z < n)%Z).
Proof.
  intros Hf Hmap Hconn n.
  split.
  - rewrite (addClient_fresh_run nm show s zs Hf Hmap). cbn zeta.
    now rewrite Hconn.
  - pose proof (max_with_0_nonneg zs).
    split; [subst n; lia|].
    apply (fresh_above _ zs); [exact Hmap | subst n; lia].
Qed.

(** X17. Called without a name while a client is known by a string that
    [int] refuses (as after [connectClient] with a name such as
    [mallory]), [addClient] raises [ValueError] and adds nothing. *)
Theorem addClient_refuses_string_names (nm : option name)
    (show : option bool) (s : Test) (t : string) :
  falsy nm = true ->
  NStr t ∈ (clients_of s).*1 ->
  int_of_str t = None ->
  add nm show s = (Exc ValueError, s).
Proof.
  intros Hf Hin Hint. unfold addClient. rewrite Hf.
  unfold bind, get. cbn.
  now rewrite (mapM_None_elem (int_of_name int_of_str) _ (NStr t) Hin Hint).
Qed.

(** X18. [addClient] records the client before it connects it: when the
    connection fails, the error reaches the caller and the client stays in
    [self.clients] under its name, in place of the client that had this
    name, if any. *)
Theorem addClient_keeps_unconnected_client (n : name) (show : option bool)
    (s : Test) (e : exn) (c' : ClientMock) :
  falsy (Some n) = false ->
  mock_connect (new_mock n (default (show_io_of s) show)) = (Exc e, c') ->
  add (Some n) show s
  = (Exc e, with_clients (od_set n c' (clients_of s)) s) /\
  od_get n (od_set n c' (clients_of s)) = Some c' /\
  (forall k, k <> n ->
     od_get k (od_set n c' (clients_of s)) = od_get k (clients_of s)).
Proof.
  intros Hf Hconn. split.
  - rewrite (addClient_named_run (Some n) n show s eq_refl Hf). cbn zeta.
    now rewrite Hconn.
  - split; [apply od_get_set_eq|]. intros k Hk. now apply od_get_set_ne.
Qed.

(** How [removeClient] ends for a client that is known. *)
Lemma removeClient_run (nm : name) (s : Test) (c : ClientMock) :
  od_get nm (clients_of s) = Some c ->
  remove nm s =
  let (r, c') := mock_disconnect c in
  match r with
  | Ret _ => (Ret tt, with_clients (od_del nm (clients_of s)) s)
  | Exc e => (Exc e, with_clients (od_set nm c' (clients_of s)) s)
  | Blocked => (Blocked, with_clients (od_set nm c' (clients_of s)) s)
  | OutOfFuel => (OutOfFuel, with_clients (od_set nm c' (clients_of s)) s)
  end.
Proof.
  intros Hget. unfold removeClient, bind, get, on_client, modify, ret.
  rewrite Hget. cbn. rewrite Hget.
  destruct (mock_disconnect c) as [[[]| | |] c']; cbn; try reflexivity.
  now rewrite od_del_set.
Qed.

Lemma removeClient_unknown (nm : name) (s : Test) :
  od_get nm (clients_of s) = None ->
  remove nm s = (Exc assert_failed, s).
Proof.
  intros Hget. unfold removeClient, bind, get. now rewrite Hget.
Qed.

(** X19. [removeClient] disconnects a known client and forgets it: its
    name is no longer in [self.clients] and the other clients are as
    before. For a name that is not known it fails on its [assert] and
    changes nothing. *)
Theorem removeClient_forgets_client (nm : name) (s : Test)
    (c c' : ClientMock) :
  NoDup (clients_of s).*1 ->
  od_get nm (clients_of s) = Some c ->
  mock_disconnect c = (Ret tt, c') ->
  remove nm s = (Ret tt, with_clients (od_del nm (clients_of s)) s) /\
  od_get nm (od_del nm (clients_of s)) = None /\
  (forall k, k <> nm ->
     od_get k (od_del nm (clients_of s)) = od_get k (clients_of s)) /\
  remove nm (with_clients (od_del nm (clients_of s)) s)
  = (Exc assert_failed, with_clients (od_del nm (clients_of s)) s).
Proof.
  intros Hnd Hget Hdis.
  assert (Hgone : od_get nm (od_del nm (clients_of s)) = None)
    by now apply od_get_del_eq.
  split; [rewrite (removeClient_run nm s c Hget); now rewrite Hdis|].
  split; [exact Hgone|].
  split; [intros k Hk; now apply od_get_del_ne|].
  now apply removeClient_unknown.
Qed.

(** The loop of [tearDown] over the names of the clients, while every
    client disconnects. *)
Lemma remove_each_run (d : list (name * ClientMock)) (s : Test) :
  Forall (fun kc => exists c', mock_disconnect kc.2 = (Ret tt, c')) d ->
  for_each (d.*1) remove (with_clients d s) = (Ret tt, with_clients [] s).
Proof.
  induction 1 as [|[k c] d [c' Hc] _ IH]; [reflexivity|].
  cbn [fmap list_fmap fst for_each]. rewrite bind_run.
  rewrite (removeClient_run k (with_clients ((k, c) :: d) s) c).
  2:{ cbn. now rewrite decide_True. }
  cbn in Hc. rewrite Hc. cbn. rewrite decide_True by reflexivity.
  exact IH.
Qed.

(** The same loop when a client fails to disconnect. *)
Lemma remove_each_stops (pre post : list (name * ClientMock)) (k : name)
    (c c' : ClientMock) (e : exn) (s : Test) :
  Forall (fun kc => exists c', mock_disconnect kc.2 = (Ret tt, c')) pre ->
  mock_disconnect c = (Exc e, c') ->
  for_each ((pre ++ (k, c) :: post).*1) remove
    (with_clients (pre ++ (k, c) :: post) s)
  = (Exc e, with_clients ((k, c') :: post) s).
Proof.
  intros Hpre Hc. induction Hpre as [|[k0 c0] pre [c0' Hc0] _ IH].
  - cbn [app fmap list_fmap fst for_each]. rewrite bind_run.
    rewrite (removeClient_run k (with_clients ((k, c) :: post) s) c).
    2:{ cbn. now rewrite decide_True. }
    rewrite Hc. cbn. now rewrite decide_True.
  - cbn [app fmap list_fmap fst for_each]. rewrite bind_run.
    rewrite (removeClient_run k0
               (with_clients ((k0, c0) :: pre ++ (k, c) :: post) s) c0).
    2:{ cbn. now rewrite decide_True. }
    cbn in Hc0. rewrite Hc0. cbn. rewrite decide_True by reflexivity.
    exact IH.
Qed.

Lemma with_clients_id (s : Test) : with_clients (clients_of s) s = s.
Proof. now destruct s. Qed.

(** X20. When the controller stops and every client disconnects,
    [tearDown] leaves no client in [self.clients]. *)
Theorem tearDown_removes_every_client (s : Test) :
  controller_kill = inr tt ->
  Forall (fun kc => exists c', mock_disconnect kc.2 = (Ret tt, c'))
    (clients ClientMock s) ->
  tearDown ClientMock mock_disconnect controller_kill s
  = (Ret tt, set_clients ClientMock [] s).
Proof.
  intros Hkill Hall. unfold tearDown. rewrite Hkill.
  unfold bind, lift, ret, get.
  cbn [propagate].
  transitivity (for_each ((clients_of s).*1) remove
                  (with_clients (clients_of s) s));
    [now rewrite with_clients_id | now apply remove_each_run].
Qed.

(** X21. [tearDown] stops at the first client that fails to disconnect:
    the error reaches the caller, the clients before it are removed, and
    this client and the ones after it stay in [self.clients], the later
    ones without having been disconnected. *)
Theorem tearDown_stops_at_failed_disconnect (s : Test)
    (pre post : list (name * ClientMock)) (k : name) (c c' : ClientMock)
    (e : exn) :
  controller_kill = inr tt ->
  clients_of s = pre ++ (k, c) :: post ->
  Forall (fun kc => exists c', mock_disconnect kc.2 = (Ret tt, c')) pre ->
  mock_disconnect c = (Exc e, c') ->
  tear s = (Exc e, with_clients ((k, c') :: post) s).
Proof.
  intros Hkill Hd Hpre Hc. unfold tearDown. rewrite Hkill.
  unfold bind, lift, ret, get.
  cbn [propagate].
  transitivity (for_each ((clients_of s).*1) remove
                  (with_clients (clients_of s) s));
    [now rewrite with_clients_id|].
  rewrite Hd. now apply remove_each_stops.
Qed.

End Clients.

(** ** [getCapLs] and [_parseChanList] *)

Section Replies.

Variable ClientMock : Type.
Variable mock_getMessage :
  option bool -> option (Message -> bool) -> ClientMock ->
  outcome Message * ClientMock.
Variable str_format : string -> pyval -> pyval -> pyval -> exn + string.
Variable cap_list_to_dict : list string -> gmap string (option string).
Variable RPL_LIST RPL_LISTEND : string.

Abbreviation Test := (ServerTest ClientMock).
Abbreviation mkTest := (mkServerTest ClientMock).
Abbreviation registration := (mock_getMessage (Some false) (Some not_NOTICE)).
Abbreviation caps_loop :=
  (getCapLs_loop ClientMock mock_getMessage str_format cap_list_to_dict).
Abbreviation capLs :=
  (getCapLs ClientMock mock_getMessage str_format cap_list_to_dict).
Abbreviation chan_loop :=
  (parseChanList_loop ClientMock mock_getMessage RPL_LIST RPL_LISTEND).
Abbreviation chanList :=
  (_parseChanList ClientMock mock_getMessage RPL_LIST RPL_LISTEND).
Abbreviation check_CAP_LS m :=
  (assertMessageEqual str_format m (Some "LS") None VNone None
     [(Fcommand, VStr "CAP")]).

(** The result of [getCapLs] for the capabilities read. *)
Abbreviation answer as_list caps :=
  (if as_list : bool then CapList caps else CapDict (cap_list_to_dict caps)).

Lemma od_set_id {V} (k : name) (v : V) (d : list (name * V)) :
  od_get k d = Some v -> od_set k v d = d.
Proof.
  induction d as [|[k' v'] d IH]; cbn; [discriminate|].
  destruct (decide (k' = k)) as [->|Hne].
  - now intros [= ->].
  - intros H. now rewrite (IH H).
Qed.

Lemma getMessage_run (client : name) (sync : option bool)
    (pred : option (Message -> bool)) (b : IrcTestCase) (sh : bool)
    (d : list (name * ClientMock)) (c c1 : ClientMock) (r : outcome Message) :
  od_get client d = Some c ->
  mock_getMessage sync pred c = (r, c1) ->
  getMessage ClientMock mock_getMessage client sync pred (mkTest b sh d)
  = (r, mkTest b sh (od_set client c1 d)).
Proof.
  intros Hget Hnext. unfold getMessage, on_client. cbn.
  now rewrite Hget, Hnext.
Qed.

(** The check of [getCapLs] on a message. *)
Lemma check_CAP_LS_run (m : Message) (b : IrcTestCase) :
  check_CAP_LS m b =
  if decide (command m = "CAP") then
    match params m with
    | _ :: _ :: _ :: _ =>
        (Ret tt, mkIrcTestCase (subtest_failures b ++ LS_failure m))
    | _ => (Exc (AssertionError (NotGreater (len (params m)) 2 VNone)), b)
    end
  else
    (Exc (AssertionError (NotEqual (VStr (command m)) (VStr "CAP") VNone)), b).
Proof.
  unfold assertMessageEqual. cbn [for_each fst snd getattr].
  rewrite !bind_run, assertEqual_run, failure_of_no_fail_msg.
  destruct (decide (command m = "CAP")) as [Hc|Hc].
  - rewrite decide_True by now rewrite Hc.
    cbn [propagate ret is_not_None orb].
    rewrite bind_run. unfold assertGreater, len, LS_failure.
    destruct (params m) as [|t [|sub [|p2 rest]]]; try reflexivity.
    replace (2 <? Z.of_nat (length (t :: sub :: p2 :: rest)))%Z with true
      by (symmetry; apply Z.ltb_lt; cbn [length]; lia).
    cbn [propagate ret]. unfold getitem. cbn [lookup list_lookup].
    do 2 (rewrite bind_run; cbn [propagate ret]). cbn [truthy].
    change (negb (String.eqb "LS" EmptyString)) with true. cbv iota.
    rewrite bind_run, subTest_assertEqual, failure_of_no_fail_msg.
    cbn [propagate ret VOptStr].
    destruct (decide (sub = "LS")) as [->|Hs].
    + now rewrite decide_True.
    + rewrite decide_False by congruence. reflexivity.
  - rewrite decide_False by congruence. reflexivity.
Qed.

(** One turn of the loop of [getCapLs] on the message [m]. *)
Lemma caps_loop_step (fuel : nat) (client : name) (as_list : bool)
    (caps : list string) (b : IrcTestCase) (sh : bool)
    (d : list (name * ClientMock)) (c c1 : ClientMock) (m : Message) :
  od_get client d = Some c ->
  registration c = (Ret m, c1) ->
  caps_loop (S fuel) client as_list caps (mkTest b sh d) =
  match check_CAP_LS m b with
  | (Ret _, b') =>
      let s' := mkTest b' sh (od_set client c1 d) in
      match params m !! 2 with
      | Some p2 =>
          if String.eqb p2 "*" then
            match params m !! 3 with
            | Some p3 =>
                caps_loop fuel client as_list (caps ++ PyStr.split p3) s'
            | None => (Exc IndexError, s')
            end
          else (Ret (answer as_list (caps ++ PyStr.split p2)), s')
      | None => (Exc IndexError, s')
      end
  | (Exc e, b') => (Exc e, mkTest b' sh (od_set client c1 d))
  | (Blocked, b') => (Blocked, mkTest b' sh (od_set client c1 d))
  | (OutOfFuel, b') => (OutOfFuel, mkTest b' sh (od_set client c1 d))
  end.
Proof.
  intros Hget Hnext. cbn [getCapLs_loop]. rewrite bind_run.
  unfold getRegistrationMessage.
  rewrite (getMessage_run client _ _ b sh d c c1 (Ret m) Hget Hnext).
  cbn [propagate]. rewrite bind_run. unfold on_base. cbn [base show_io clients].
  destruct (check_CAP_LS m b) as [[[]| | |] b']; cbn [propagate]; try reflexivity.
  rewrite bind_run. unfold getitem.
  destruct (params m !! 2) as [p2|]; cbn [propagate ret raise]; [|reflexivity].
  destruct (String.eqb p2 "*"); [|reflexivity].
  rewrite bind_run.
  destruct (params m !! 3) as [p3|]; reflexivity.
Qed.

Lemma caps_loop_continues (fuel : nat) (client : name) (as_list : bool)
    (caps : list string) (b : IrcTestCase) (sh : bool)
    (d : list (name * ClientMock)) (c c1 : ClientMock) (m : Message)
    (text : string) :
  od_get client d = Some c ->
  registration c = (Ret m, c1) ->
  continues text m ->
  caps_loop (S fuel) client as_list caps (mkTest b sh d) =
  caps_loop fuel client as_list (caps ++ PyStr.split text)
    (mkTest (mkIrcTestCase (subtest_failures b ++ LS_failure m)) sh
       (od_set client c1 d)).
Proof.
  intros Hget Hnext (Hc & t & sub & rest & Hp).
  rewrite (caps_loop_step fuel client as_list caps b sh d c c1 m Hget Hnext).
  rewrite check_CAP_LS_run, decide_True by exact Hc.
  rewrite Hp. reflexivity.
Qed.

Lemma eqb_star (text : string) : text <> "*" -> String.eqb text "*" = false.
Proof. intros H. now apply String.eqb_neq. Qed.

Lemma caps_loop_ends (fuel : nat) (client : name) (as_list : bool)
    (caps : list string) (b : IrcTestCase) (sh : bool)
    (d : list (name * ClientMock)) (c c1 : ClientMock) (m : Message)
    (text : string) :
  od_get client d = Some c ->
  registration c = (Ret m, c1) ->
  ends text m ->
  caps_loop (S fuel) client as_list caps (mkTest b sh d) =
  (Ret (answer as_list (caps ++ PyStr.split text)),
   mkTest (mkIrcTestCase (subtest_failures b ++ LS_failure m)) sh
     (od_set client c1 d)).
Proof.
  intros Hget Hnext (Hc & Hstar & t & sub & rest & Hp).
  rewrite (caps_loop_step fuel client as_list caps b sh d c c1 m Hget Hnext).
  rewrite check_CAP_LS_run, decide_True by exact Hc.
  rewrite Hp. cbn [lookup list_lookup]. cbv zeta.
  now rewrite (eqb_star text Hstar).
Qed.

(** The loop of [getCapLs] over the lines that announce more lines. *)
Lemma caps_loop_prefix (client : name) (as_list : bool) (sh : bool)
    (texts : list string) (ms : list Message) :
  Forall2 continues texts ms ->
  forall (fuel : nat) (caps : list string) (b : IrcTestCase)
         (d : list (name * ClientMock)) (c c1 : ClientMock),
  od_get client d = Some c ->
  yields registration c ms c1 ->
  caps_loop (length ms + fuel) client as_list caps (mkTest b sh d) =
  caps_loop fuel client as_list (caps ++ concat (PyStr.split <$> texts))
    (mkTest (mkIrcTestCase (subtest_failures b ++ concat (LS_failure <$> ms)))
       sh (od_set client c1 d)) /\
  od_get client (od_set client c1 d) = Some c1.
Proof.
  induction 1 as [|text m texts ms Hm _ IH]; intros fuel caps b d c c1 Hget Hy.
  - inversion Hy; subst. cbn. rewrite !app_nil_r, (od_set_id _ _ _ Hget).
    split; [now destruct b | exact Hget].
  - inversion Hy as [|c0 m0 c2 ms0 c3 Hnext Hrest]; subst.
    cbn [length Nat.add fmap list_fmap concat].
    rewrite (caps_loop_continues _ client as_list caps b sh d c c2 m text
               Hget Hnext Hm).
    destruct (IH fuel (caps ++ PyStr.split text)
                (mkIrcTestCase (subtest_failures b ++ LS_failure m))
                (od_set client c2 d) c2 c1
                (od_get_set_eq _ _ _) Hrest) as [Hrun Hlast].
    rewrite od_set_set in Hrun, Hlast.
    rewrite Hrun. cbn [subtest_failures]. rewrite <- !app_assoc.
    split; [reflexivity | exact Hlast].
Qed.

Lemma yields_app {C} (next : C -> outcome Message * C) (c c' : C)
    (ms1 ms2 : list Message) :
  yields next c (ms1 ++ ms2) c' ->
  exists c1, yields next c ms1 c1 /\ yields next c1 ms2 c'.
Proof.
  revert c. induction ms1 as [|m ms1 IH]; intros c Hy.
  - exists c. split; [constructor | exact Hy].
  - inversion Hy as [|c0 m0 c2 ms0 c3 Hnext Hrest]; subst.
    destruct (IH _ Hrest) as (c1 & H1 & H2).
    exists c1. split; [econstructor; eassumption | exact H2].
Qed.

Lemma yields_one {C} (next : C -> outcome Message * C) (c c' : C)
    (m : Message) :
  yields next c [m] c' -> next c = (Ret m, c').
Proof.
  intros Hy. inversion Hy as [|c0 m0 c2 ms0 c3 Hnext Hrest]; subst.
  inversion Hrest; subst. exact Hnext.
Qed.

Lemma LS_failure_LS (ms : list Message) :
  Forall (fun m => params m !! 1 = Some "LS") ms ->
  concat (LS_failure <$> ms) = [].
Proof.
  induction 1 as [|m ms Hm _ IH]; [reflexivity|].
  cbn [fmap list_fmap concat]. unfold LS_failure at 1. rewrite Hm.
  rewrite decide_True by reflexivity. exact IH.
Qed.

(** The whole run of [getCapLs] on a reply. *)
Lemma getCapLs_run (fuel : nat) (client : name) (as_list : bool)
    (s : Test) (c c' : ClientMock) (texts : list string)
    (ms : list Message) (text : string) (last : Message) :
  od_get client (clients ClientMock s) = Some c ->
  yields registration c (ms ++ [last]) c' ->
  Forall2 continues texts ms ->
  ends text last ->
  length ms < fuel ->
  capLs fuel client as_list s =
  (Ret (answer as_list (concat (PyStr.split <$> texts) ++ PyStr.split text)),
   mkTest
     (mkIrcTestCase
        (subtest_failures (base ClientMock s)
         ++ concat (LS_failure <$> (ms ++ [last]))))
     (show_io ClientMock s)
     (od_set client c' (clients ClientMock s))).
Proof.
  intros Hget Hy Hms Hlast Hfuel. destruct s as [b sh d]. cbn in *.
  destruct (yields_app _ _ _ _ _ Hy) as (c1 & Hy1 & Hy2).
  apply yields_one in Hy2.
  replace fuel with (length ms + S (fuel - length ms - 1)) by lia.
  unfold getCapLs.
  destruct (caps_loop_prefix client as_list sh texts ms Hms
              (S (fuel - length ms - 1)) [] b d c c1 Hget Hy1)
    as [Hrun Hc1].
  rewrite Hrun.
  rewrite (caps_loop_ends _ client as_list _ _ sh _ c1 c' last text
             Hc1 Hy2 Hlast).
  rewrite od_set_set. cbn [subtest_failures app].
  rewrite fmap_app, concat_app. cbn [fmap list_fmap concat].
  now rewrite app_nil_r, <- app_assoc.
Qed.

(** [getCapLs] up to the message that follows the lines announcing more
    lines. *)
Lemma getCapLs_reaches (fuel : nat) (client : name) (as_list : bool)
    (s : Test) (c c' : ClientMock) (texts : list string)
    (ms : list Message) (m : Message) :
  od_get client (clients ClientMock s) = Some c ->
  yields registration c (ms ++ [m]) c' ->
  Forall2 continues texts ms ->
  Forall (fun m => params m !! 1 = Some "LS") ms ->
  length ms < fuel ->
  exists (f : nat) (d1 : list (name * ClientMock)) (c1 : ClientMock),
    capLs fuel client as_list s =
    caps_loop (S f) client as_list (concat (PyStr.split <$> texts))
      (mkTest (base ClientMock s) (show_io ClientMock s) d1) /\
    od_get client d1 = Some c1 /\
    registration c1 = (Ret m, c') /\
    od_set client c' d1 = od_set client c' (clients ClientMock s).
Proof.
  intros Hget Hy Hms HLS Hfuel. destruct s as [b sh d]. cbn in *.
  destruct (yields_app _ _ _ _ _ Hy) as (c1 & Hy1 & Hy2).
  apply yields_one in Hy2.
  exists (fuel - length ms - 1), (od_set client c1 d), c1.
  replace fuel with (length ms + S (fuel - length ms - 1)) at 1 by lia.
  unfold getCapLs.
  destruct (caps_loop_prefix client as_list sh texts ms Hms
              (S (fuel - length ms - 1)) [] b d c c1 Hget Hy1)
    as [Hrun Hc1].
  rewrite Hrun, (LS_failure_LS ms HLS), app_nil_r. cbn [app].
  repeat split; [now destruct b | exact Hc1 | exact Hy2 | apply od_set_set].
Qed.

(** X22. [getCapLs] reads a whole reply to [CAP LS]: the lines with [*]
    as third parameter, then the first line without. It returns the
    capabilities of all these lines, in the order received, as a list or
    as the dictionary made of this list; the client has given these
    messages and no other, and no failure is reported. *)
Theorem getCapLs_reads_whole_reply (fuel : nat) (client : name)
    (as_list : bool) (s : Test) (c c' : ClientMock) (texts : list string)
    (ms : list Message) (text : string) (last : Message) :
  od_get client (clients ClientMock s) = Some c ->
  yields registration c (ms ++ [last]) c' ->
  Forall2 continues texts ms ->
  ends text last ->
  Forall (fun m => params m !! 1 = Some "LS") (ms ++ [last]) ->
  length ms < fuel ->
  capLs fuel client as_list s =
  (Ret (answer as_list (concat (PyStr.split <$> texts) ++ PyStr.split text)),
   set_clients ClientMock (od_set client c' (clients ClientMock s)) s).
Proof.
  intros Hget Hy Hms Hlast HLS Hfuel.
  rewrite (getCapLs_run fuel client as_list s c c' texts ms text last
             Hget Hy Hms Hlast Hfuel).
  rewrite (LS_failure_LS _ HLS), app_nil_r.
  destruct s as [[b] sh d]. reflexivity.
Qed.

(** X23. The sub-command of a reply is compared in a sub-test only: on a
    [CAP] message with another sub-command than [LS] (an [ACK], say),
    [getCapLs] reports the failed sub-test and still returns the third
    parameter, split, as the capabilities of the server. *)
Theorem getCapLs_reports_other_subcommand (fuel : nat) (client : name)
    (as_list : bool) (s : Test) (c c' : ClientMock) (last : Message)
    (target sub text : string) (rest : list string) :
  od_get client (clients ClientMock s) = Some c ->
  registration c = (Ret last, c') ->
  command last = "CAP" ->
  params last = target :: sub :: text :: rest ->
  sub <> "LS" -> text <> "*" ->
  capLs (S fuel) client as_list s =
  (Ret (answer as_list (PyStr.split text)),
   mkTest
     (mkIrcTestCase
        (subtest_failures (base ClientMock s)
         ++ [("subcommand",
              AssertionError (NotEqual (VStr sub) (VStr "LS") VNone))]))
     (show_io ClientMock s)
     (od_set client c' (clients ClientMock s))).
Proof.
  intros Hget Hnext Hc Hp Hsub Hstar. destruct s as [b sh d].
  cbn [clients base show_io] in *.
  unfold getCapLs.
  rewrite (caps_loop_ends fuel client as_list [] b sh d c c' last text
             Hget Hnext).
  2:{ split; [exact Hc|]. split; [exact Hstar|]. now exists target, sub, rest. }
  unfold LS_failure. rewrite Hp. cbn [lookup list_lookup].
  now rewrite decide_False.
Qed.

(** X24. A message with another command than [CAP] in the reply makes
    [getCapLs] fail on its comparison of the command; the capabilities
    read from the lines before are not returned. *)
Theorem getCapLs_rejects_other_command (fuel : nat) (client : name)
    (as_list : bool) (s : Test) (c c' : ClientMock) (texts : list string)
    (ms : list Message) (bad : Message) :
  od_get client (clients ClientMock s) = Some c ->
  yields registration c (ms ++ [bad]) c' ->
  Forall2 continues texts ms ->
  Forall (fun m => params m !! 1 = Some "LS") ms ->
  length ms < fuel ->
  command bad <> "CAP" ->
  capLs fuel client as_list s =
  (Exc (AssertionError (NotEqual (VStr (command bad)) (VStr "CAP") VNone)),
   set_clients ClientMock (od_set client c' (clients ClientMock s)) s).
Proof.
  intros Hget Hy Hms HLS Hfuel Hbad.
  destruct (getCapLs_reaches fuel client as_list s c c' texts ms bad
              Hget Hy Hms HLS Hfuel) as (f & d1 & c1 & -> & Hc1 & Hnext & Hd).
  rewrite (caps_loop_step f client as_list _ _ _ d1 c1 c' bad Hc1 Hnext).
  rewrite check_CAP_LS_run, decide_False by exact Hbad.
  now rewrite Hd.
Qed.

(** X25. A [CAP] message of fewer than three parameters in the reply makes
    [getCapLs] fail on the count of the parameters. *)
Theorem getCapLs_rejects_short_line (fuel : nat) (client : name)
    (as_list : bool) (s : Test) (c c' : ClientMock) (texts : list string)
    (ms : list Message) (bad : Message) :
  od_get client (clients ClientMock s) = Some c ->
  yields registration c (ms ++ [bad]) c' ->
  Forall2 continues texts ms ->
  Forall (fun m => params m !! 1 = Some "LS") ms ->
  length ms < fuel ->
  command bad = "CAP" ->
  length (params bad) <= 2 ->
  capLs fuel client as_list s =
  (Exc (AssertionError (NotGreater (len (params bad)) 2 VNone)),
   set_clients ClientMock (od_set client c' (clients ClientMock s)) s).
Proof.
  intros Hget Hy Hms HLS Hfuel Hbad Hlen.
  destruct (getCapLs_reaches fuel client as_list s c c' texts ms bad
              Hget Hy Hms HLS Hfuel) as (f & d1 & c1 & -> & Hc1 & Hnext & Hd).
  rewrite (caps_loop_step f client as_list _ _ _ d1 c1 c' bad Hc1 Hnext).
  rewrite check_CAP_LS_run, decide_True by exact Hbad.
  destruct (params bad) as [|t [|sub [|p2 rest]]];
    [now rewrite Hd .. | cbn in Hlen; lia].
Qed.

(** X26. A line [CAP target LS *] that announces more lines without
    giving capabilities makes [getCapLs] end with [IndexError], not with a
    failed assertion. *)
Theorem getCapLs_star_without_capabilities (fuel : nat) (client : name)
    (as_list : bool) (s : Test) (c c' : ClientMock) (texts : list string)
    (ms : list Message) (bad : Message) (target : string) :
  od_get client (clients ClientMock s) = Some c ->
  yields registration c (ms ++ [bad]) c' ->
  Forall2 continues texts ms ->
  Forall (fun m => params m !! 1 = Some "LS") ms ->
  length ms < fuel ->
  command bad = "CAP" ->
  params bad = [target; "LS"; "*"] ->
  capLs fuel client as_list s =
  (Exc IndexError,
   set_clients ClientMock (od_set client c' (clients ClientMock s)) s).
Proof.
  intros Hget Hy Hms HLS Hfuel Hbad Hp.
  destruct (getCapLs_reaches fuel client as_list s c c' texts ms bad
              Hget Hy Hms HLS Hfuel) as (f & d1 & c1 & -> & Hc1 & Hnext & Hd).
  rewrite (caps_loop_step f client as_list _ _ _ d1 c1 c' bad Hc1 Hnext).
  rewrite check_CAP_LS_run, decide_True by exact Hbad.
  unfold LS_failure. rewrite Hp. cbn [lookup list_lookup].
  rewrite decide_True by reflexivity. cbv zeta.
  change (String.eqb "*" "*") with true. cbv iota.
  rewrite app_nil_r, Hd. now destruct s as [[b] sh d].
Qed.

(** One turn of the loop of [_parseChanList] on the message [m]. *)
Lemma chan_loop_step (fuel : nat) (client : name) (channels : gset string)
    (b : IrcTestCase) (sh : bool) (d : list (name * ClientMock))
    (c c1 : ClientMock) (m : Message) :
  od_get client d = Some c ->
  mock_getMessage None None c = (Ret m, c1) ->
  chan_loop (S fuel) client channels (mkTest b sh d) =
  let s' := mkTest b sh (od_set client c1 d) in
  if String.eqb (command m) RPL_LISTEND then (Ret channels, s')
  else if String.eqb (command m) RPL_LIST then
    match params m !! 1 with
    | Some p1 =>
        chan_loop fuel client
          (if PyStr.startswith p1 "&" then channels else channels ∪ {[p1]}) s'
    | None => (Exc IndexError, s')
    end
  else chan_loop fuel client channels s'.
Proof.
  intros Hget Hnext. cbn [parseChanList_loop]. rewrite bind_run.
  rewrite (getMessage_run client _ _ b sh d c c1 (Ret m) Hget Hnext).
  cbn [propagate]. cbv zeta.
  destruct (String.eqb (command m) RPL_LISTEND); [reflexivity|].
  destruct (String.eqb (command m) RPL_LIST); [|reflexivity].
  rewrite bind_run. unfold getitem.
  destruct (params m !! 1) as [p1|]; cbn [propagate ret raise]; [|reflexivity].
  now destruct (PyStr.startswith p1 "&").
Qed.

(** The loop of [_parseChanList] over the messages before the end of the
    list. *)
Lemma chan_loop_prefix (client : name) (b : IrcTestCase) (sh : bool)
    (ms : list Message) :
  Forall (fun m => command m <> RPL_LISTEND) ms ->
  Forall (fun m => command m = RPL_LIST -> is_Some (params m !! 1)) ms ->
  forall (fuel : nat) (channels : gset string)
         (d : list (name * ClientMock)) (c c1 : ClientMock),
  od_get client d = Some c ->
  yields (mock_getMessage None None) c ms c1 ->
  chan_loop (length ms + fuel) client channels (mkTest b sh d) =
  chan_loop fuel client (channels ∪ list_to_set (omap (listed RPL_LIST) ms))
    (mkTest b sh (od_set client c1 d)) /\
  od_get client (od_set client c1 d) = Some c1.
Proof.
  induction ms as [|m ms IH]; intros Hend Hlen fuel channels d c c1 Hget Hy.
  - inversion Hy; subst. cbn. rewrite (od_set_id _ _ _ Hget).
    now rewrite (right_id_L ∅ (∪)).
  - inversion Hy as [|c0 m0 c2 ms0 c3 Hnext Hrest]; subst.
    apply Forall_cons in Hend as [Hm Hend].
    apply Forall_cons in Hlen as [Hl Hlen].
    cbn [length Nat.add].
    rewrite (chan_loop_step _ client channels b sh d c c2 m Hget Hnext).
    cbv zeta.
    rewrite (proj2 (String.eqb_neq _ _) Hm).
    assert (Hstep : forall chs,
      chan_loop (length ms + fuel) client chs (mkTest b sh (od_set client c2 d))
      = chan_loop fuel client
          (chs ∪ list_to_set (omap (listed RPL_LIST) ms))
          (mkTest b sh (od_set client c1 d)) /\
        od_get client (od_set client c1 d) = Some c1).
    { intros chs.
      destruct (IH Hend Hlen fuel chs (od_set client c2 d) c2 c1
                  (od_get_set_eq _ _ _) Hrest) as [Hrun Hlast].
      rewrite od_set_set in Hrun, Hlast. now split. }
    cbn [omap list_omap]. unfold listed at 1.
    destruct (String.eqb (command m) RPL_LIST) eqn:Hlist.
    + destruct (Hl (proj1 (String.eqb_eq _ _) Hlist)) as [p1 Hp1].
      rewrite Hp1.
      destruct (PyStr.startswith p1 "&"); [apply Hstep|].
      destruct (Hstep (channels ∪ {[p1]})) as [Hrun Hlast].
      rewrite Hrun. cbn [list_to_set foldr].
      now rewrite (assoc_L (∪)).
    + apply Hstep.
Qed.

(** X27. [_parseChanList] reads the messages of the client up to the
    first [RPL_LISTEND] and returns the set of the channels listed before
    it: the second parameter of each [RPL_LIST] message, unless it starts
    with [&]. Messages with other commands are passed over. *)
Theorem parseChanList_collects_channels (fuel : nat) (client : name)
    (s : Test) (c c' : ClientMock) (ms : list Message) (last : Message) :
  od_get client (clients ClientMock s) = Some c ->
  yields (mock_getMessage None None) c (ms ++ [last]) c' ->
  Forall (fun m => command m <> RPL_LISTEND) ms ->
  Forall (fun m => command m = RPL_LIST -> is_Some (params m !! 1)) ms ->
  command last = RPL_LISTEND ->
  length ms < fuel ->
  chanList fuel client s =
  (Ret (list_to_set (omap (listed RPL_LIST) ms)),
   set_clients ClientMock (od_set client c' (clients ClientMock s)) s).
Proof.
  intros Hget Hy Hms Hlen Hlast Hfuel. destruct s as [b sh d].
  cbn [clients base show_io] in *.
  destruct (yields_app _ _ _ _ _ Hy) as (c1 & Hy1 & Hy2).
  apply yields_one in Hy2.
  replace fuel with (length ms + S (fuel - length ms - 1)) by lia.
  unfold _parseChanList.
  destruct (chan_loop_prefix client b sh ms Hms Hlen
              (S (fuel - length ms - 1)) ∅ d c c1 Hget Hy1) as [Hrun Hc1].
  rewrite Hrun.
  rewrite (chan_loop_step _ client _ b sh _ c1 c' last Hc1 Hy2).
  cbv zeta. rewrite Hlast, String.eqb_refl, od_set_set.
  now rewrite (left_id_L ∅ (∪)).
Qed.

(** The channels of the loop never start with [&] when the ones it was
    entered with do not. *)
Lemma chan_loop_no_local (fuel : nat) (client : name) :
  forall (channels r : gset string) (s s' : Test),
  (forall ch, ch ∈ channels -> PyStr.startswith ch "&" = false) ->
  chan_loop fuel client channels s = (Ret r, s') ->
  forall ch, ch ∈ r -> PyStr.startswith ch "&" = false.
Proof.
  induction fuel as [|fuel IH]; intros channels r s s' Hinv Hrun;
    [discriminate|].
  cbn [parseChanList_loop] in Hrun. rewrite bind_run in Hrun.
  destruct (getMessage ClientMock mock_getMessage client None None s)
    as [[m| | |] s1]; cbn [propagate] in Hrun; try discriminate.
  destruct (String.eqb (command m) RPL_LISTEND).
  { injection Hrun as <- _. exact Hinv. }
  destruct (String.eqb (command m) RPL_LIST); [|exact (IH _ _ _ _ Hinv Hrun)].
  rewrite bind_run in Hrun. unfold getitem in Hrun.
  destruct (params m !! 1) as [p1|]; cbn [propagate ret raise] in Hrun;
    [|discriminate].
  destruct (PyStr.startswith p1 "&") eqn:Hp1; [exact (IH _ _ _ _ Hinv Hrun)|].
  refine (IH _ _ _ _ _ Hrun).
  intros ch [Hch| ->%elem_of_singleton]%elem_of_union; auto.
Qed.

(** X28. Whatever the client receives, [_parseChanList] never returns a
    channel whose name starts with [&]. *)
Theorem parseChanList_never_lists_local_channels (fuel : nat)
    (client : name) (s s' : Test) (r : gset string) (ch : string) :
  chanList fuel client s = (Ret r, s') ->
  ch ∈ r ->
  PyStr.startswith ch "&" = false.
Proof.
  intros Hrun Hch.
  refine (chan_loop_no_local fuel client ∅ r s s' _ Hrun ch Hch).
  intros x Hx. now apply not_elem_of_empty in Hx.
Qed.

(** X29. A [RPL_LIST] message without a second parameter, before the end
    of the list, makes [_parseChanList] end with [IndexError]; the
    channels read so far are not returned. *)
Theorem parseChanList_short_RPL_LIST (fuel : nat) (client : name)
    (s : Test) (c c' : ClientMock) (ms : list Message) (bad : Message) :
  od_get client (clients ClientMock s) = Some c ->
  yields (mock_getMessage None None) c (ms ++ [bad]) c' ->
  Forall (fun m => command m <> RPL_LISTEND) ms ->
  Forall (fun m => command m = RPL_LIST -> is_Some (params m !! 1)) ms ->
  length ms < fuel ->
  command bad = RPL_LIST ->
  RPL_LIST <> RPL_LISTEND ->
  length (params bad) <= 1 ->
  chanList fuel client s =
  (Exc IndexError,
   set_clients ClientMock (od_set client c' (clients ClientMock s)) s).
Proof.
  intros Hget Hy Hms Hlen Hfuel Hbad Hne Hshort. destruct s as [b sh d].
  cbn [clients base show_io] in *.
  destruct (yields_app _ _ _ _ _ Hy) as (c1 & Hy1 & Hy2).
  apply yields_one in Hy2.
  replace fuel with (length ms + S (fuel - length ms - 1)) by lia.
  unfold _parseChanList.
  destruct (chan_loop_prefix client b sh ms Hms Hlen
              (S (fuel - length ms - 1)) ∅ d c c1 Hget Hy1) as [Hrun Hc1].
  rewrite Hrun.
  rewrite (chan_loop_step _ client _ b sh _ c1 c' bad Hc1 Hy2).
  cbv zeta. rewrite Hbad, (proj2 (String.eqb_neq _ _) Hne), String.eqb_refl.
  rewrite od_set_set.
  destruct (params bad) as [|t [|p1 rest]]; [reflexivity .. |].
  cbn in Hshort. lia.
Qed.

End Replies.

(** ** Examples

    The clients of the examples are the lists of the messages they have
    still to return; connecting and disconnecting them succeeds unless
    said otherwise. *)

Abbreviation ex_new := (fun (_ : name) (_ : bool) => @nil Message).
Abbreviation ex_ok := (fun c : list Message => (@Ret unit tt, c)).
Abbreviation ex_int :=
  (fun t : string => if String.eqb t "7" then Some 7%Z else None).
Abbreviation ex_test d := (mkServerTest (list Message) (mkIrcTestCase []) false d).
Abbreviation ex_msg c ps := (mkMessage ∅ None c ps).

Lemma addClient_chooses_fresh_name_witness :
  addClient (list Message) ex_new ex_ok ex_int None None
    (ex_test [(NInt 1, []); (NStr "7", []); (NInt 4, [])])
  = (Ret (NInt 8),
     ex_test [(NInt 1, []); (NStr "7", []); (NInt 4, []); (NInt 8, [])]).
Proof.
  exact (proj1 (addClient_chooses_fresh_name (list Message) ex_new ex_ok
    ex_int None None (ex_test [(NInt 1, []); (NStr "7", []); (NInt 4, [])])
    [1; 7; 4]%Z [] eq_refl eq_refl eq_refl)).
Defined.

Lemma addClient_refuses_string_names_witness :
  addClient (list Message) ex_new ex_ok ex_int None None
    (ex_test [(NInt 1, []); (NStr "mallory", [])])
  = (Exc ValueError, ex_test [(NInt 1, []); (NStr "mallory", [])]).
Proof.
  refine (addClient_refuses_string_names (list Message) ex_new ex_ok ex_int
    None None (ex_test [(NInt 1, []); (NStr "mallory", [])]) "mallory"
    eq_refl _ eq_refl).
  apply (bool_decide_unpack _). vm_compute. exact I.
Defined.

Lemma addClient_keeps_unconnected_client_witness :
  addClient (list Message) ex_new
    (fun c => (Exc SocketError, c)) ex_int (Some (NStr "bar")) None
    (ex_test [(NStr "foo", [])])
  = (Exc SocketError, ex_test [(NStr "foo", []); (NStr "bar", [])]).
Proof.
  exact (proj1 (addClient_keeps_unconnected_client (list Message) ex_new
    (fun c => (Exc SocketError, c)) ex_int (NStr "bar") None
    (ex_test [(NStr "foo", [])]) SocketError [] eq_refl eq_refl)).
Defined.

Lemma removeClient_forgets_client_witness :
  removeClient (list Message) ex_ok (NInt 1)
    (ex_test [(NInt 1, []); (NInt 2, [])])
  = (Ret tt, ex_test [(NInt 2, [])]).
Proof.
  refine (proj1 (removeClient_forgets_client (list Message) ex_ok (NInt 1)
    (ex_test [(NInt 1, []); (NInt 2, [])]) [] [] _ eq_refl eq_refl)).
  apply (bool_decide_unpack _). vm_compute. exact I.
Defined.

Lemma tearDown_removes_every_client_witness :
  tearDown (list Message) ex_ok (inr tt)
    (ex_test [(NInt 1, []); (NStr "foo", [])])
  = (Ret tt, ex_test []).
Proof.
  refine (tearDown_removes_every_client (list Message) ex_ok (inr tt)
    (ex_test [(NInt 1, []); (NStr "foo", [])]) eq_refl _).
  repeat constructor; now exists [].
Defined.

Lemma tearDown_stops_at_failed_disconnect_witness :
  tearDown (list Message)
    (fun c => match c with
              | [] => (Ret tt, [])
              | _ :: c' => (Exc SocketError, c')
              end)
    (inr tt)
    (ex_test [(NInt 1, []); (NInt 2, [ex_msg "PING" []]); (NInt 3, [])])
  = (Exc SocketError, ex_test [(NInt 2, []); (NInt 3, [])]).
Proof.
  refine (tearDown_stops_at_failed_disconnect (list Message) _ (inr tt)
    (ex_test [(NInt 1, []); (NInt 2, [ex_msg "PING" []]); (NInt 3, [])])
    [(NInt 1, [])] [(NInt 3, [])] (NInt 2) [ex_msg "PING" []] []
    SocketError eq_refl eq_refl _ eq_refl).
  repeat constructor; now exists [].
Defined.

Abbreviation ex_capLs :=
  (getCapLs (list Message) next_message format_plain cap_dict).
Abbreviation ex_chanList :=
  (_parseChanList (list Message) next_message "322" "323").

Ltac yields_run :=
  repeat (eapply yields_cons; [reflexivity|]); apply yields_nil.

Lemma getCapLs_reads_whole_reply_witness :
  ex_capLs 2 (NInt 1) true
    (ex_test [(NInt 1, [ex_msg "NOTICE" ["*"; "hello"];
                        ex_msg "CAP" ["*"; "LS"; "*"; "sasl multi-prefix"];
                        ex_msg "CAP" ["*"; "LS"; "away-notify"];
                        ex_msg "001" ["*"; "welcome"]])])
  = (Ret (CapList ["sasl"; "multi-prefix"; "away-notify"]),
     ex_test [(NInt 1, [ex_msg "001" ["*"; "welcome"]])]).
Proof.
  refine (getCapLs_reads_whole_reply (list Message) next_message
    format_plain cap_dict 2 (NInt 1) true
    (ex_test [(NInt 1, [ex_msg "NOTICE" ["*"; "hello"];
                        ex_msg "CAP" ["*"; "LS"; "*"; "sasl multi-prefix"];
                        ex_msg "CAP" ["*"; "LS"; "away-notify"];
                        ex_msg "001" ["*"; "welcome"]])])
    [ex_msg "NOTICE" ["*"; "hello"];
     ex_msg "CAP" ["*"; "LS"; "*"; "sasl multi-prefix"];
     ex_msg "CAP" ["*"; "LS"; "away-notify"];
     ex_msg "001" ["*"; "welcome"]]
    [ex_msg "001" ["*"; "welcome"]]
    ["sasl multi-prefix"]
    [ex_msg "CAP" ["*"; "LS"; "*"; "sasl multi-prefix"]]
    "away-notify" (ex_msg "CAP" ["*"; "LS"; "away-notify"])
    eq_refl _ _ _ _ _).
  - yields_run.
  - repeat constructor. now exists "*", "LS", [].
  - split; [reflexivity|]. split; [discriminate|]. now exists "*", "LS", [].
  - repeat constructor.
  - cbn. lia.
Defined.

Lemma getCapLs_reports_other_subcommand_witness :
  ex_capLs 1 (NInt 1) true
    (ex_test [(NInt 1, [ex_msg "CAP" ["*"; "ACK"; "sasl"]])])
  = (Ret (CapList ["sasl"]),
     mkServerTest (list Message)
       (mkIrcTestCase
          [("subcommand",
            AssertionError (NotEqual (VStr "ACK") (VStr "LS") VNone))])
       false [(NInt 1, [])]).
Proof.
  refine (getCapLs_reports_other_subcommand (list Message) next_message
    format_plain cap_dict 0 (NInt 1) true
    (ex_test [(NInt 1, [ex_msg "CAP" ["*"; "ACK"; "sasl"]])])
    [ex_msg "CAP" ["*"; "ACK"; "sasl"]] []
    (ex_msg "CAP" ["*"; "ACK"; "sasl"]) "*" "ACK" "sasl" []
    eq_refl eq_refl eq_refl eq_refl _ _); discriminate.
Defined.

Lemma getCapLs_rejects_other_command_witness :
  ex_capLs 2 (NInt 1) false
    (ex_test [(NInt 1, [ex_msg "CAP" ["*"; "LS"; "*"; "sasl"];
                        ex_msg "PING" ["abc"]])])
  = (Exc (AssertionError (NotEqual (VStr "PING") (VStr "CAP") VNone)),
     ex_test [(NInt 1, [])]).
Proof.
  refine (getCapLs_rejects_other_command (list Message) next_message
    format_plain cap_dict 2 (NInt 1) false
    (ex_test [(NInt 1, [ex_msg "CAP" ["*"; "LS"; "*"; "sasl"];
                        ex_msg "PING" ["abc"]])])
    [ex_msg "CAP" ["*"; "LS"; "*"; "sasl"]; ex_msg "PING" ["abc"]]
    [] ["sasl"]
    [ex_msg "CAP" ["*"; "LS"; "*"; "sasl"]] (ex_msg "PING" ["abc"])
    eq_refl _ _ _ _ _).
  - yields_run.
  - repeat constructor. now exists "*", "LS", [].
  - repeat constructor.
  - cbn. lia.
  - discriminate.
Defined.

Lemma getCapLs_rejects_short_line_witness :
  ex_capLs 1 (NInt 1) false
    (ex_test [(NInt 1, [ex_msg "CAP" ["*"; "LS"]])])
  = (Exc (AssertionError (NotGreater 2 2 VNone)), ex_test [(NInt 1, [])]).
Proof.
  refine (getCapLs_rejects_short_line (list Message) next_message
    format_plain cap_dict 1 (NInt 1) false
    (ex_test [(NInt 1, [ex_msg "CAP" ["*"; "LS"]])])
    [ex_msg "CAP" ["*"; "LS"]] [] [] []
    (ex_msg "CAP" ["*"; "LS"]) eq_refl _ _ _ _ eq_refl _).
  - yields_run.
  - constructor.
  - constructor.
  - cbn. lia.
  - cbn. lia.
Defined.

Lemma getCapLs_star_without_capabilities_witness :
  ex_capLs 1 (NInt 1) false
    (ex_test [(NInt 1, [ex_msg "CAP" ["*"; "LS"; "*"]])])
  = (Exc IndexError, ex_test [(NInt 1, [])]).
Proof.
  refine (getCapLs_star_without_capabilities (list Message) next_message
    format_plain cap_dict 1 (NInt 1) false
    (ex_test [(NInt 1, [ex_msg "CAP" ["*"; "LS"; "*"]])])
    [ex_msg "CAP" ["*"; "LS"; "*"]] [] [] []
    (ex_msg "CAP" ["*"; "LS"; "*"]) "*" eq_refl _ _ _ _ eq_refl eq_refl).
  - yields_run.
  - constructor.
  - constructor.
  - cbn. lia.
Defined.

Lemma parseChanList_collects_channels_witness :
  ex_chanList 5 (NInt 1)
    (ex_test [(NInt 1, [ex_msg "321" ["foo"; "Channel"];
                        ex_msg "322" ["foo"; "#chan1"; "1"; "topic"];
                        ex_msg "322" ["foo"; "&SERVER"; "1"; "x"];
                        ex_msg "322" ["foo"; "#chan2"; "2"; "y"];
                        ex_msg "323" ["foo"; "End of LIST"];
                        ex_msg "PING" ["x"]])])
  = (Ret {["#chan1"; "#chan2"]}, ex_test [(NInt 1, [ex_msg "PING" ["x"]])]).
Proof.
  refine (eq_trans (parseChanList_collects_channels (list Message)
    next_message "322" "323" 5 (NInt 1)
    (ex_test [(NInt 1, [ex_msg "321" ["foo"; "Channel"];
                        ex_msg "322" ["foo"; "#chan1"; "1"; "topic"];
                        ex_msg "322" ["foo"; "&SERVER"; "1"; "x"];
                        ex_msg "322" ["foo"; "#chan2"; "2"; "y"];
                        ex_msg "323" ["foo"; "End of LIST"];
                        ex_msg "PING" ["x"]])])
    [ex_msg "321" ["foo"; "Channel"];
     ex_msg "322" ["foo"; "#chan1"; "1"; "topic"];
     ex_msg "322" ["foo"; "&SERVER"; "1"; "x"];
     ex_msg "322" ["foo"; "#chan2"; "2"; "y"];
     ex_msg "323" ["foo"; "End of LIST"];
     ex_msg "PING" ["x"]]
    [ex_msg "PING" ["x"]]
    [ex_msg "321" ["foo"; "Channel"];
     ex_msg "322" ["foo"; "#chan1"; "1"; "topic"];
     ex_msg "322" ["foo"; "&SERVER"; "1"; "x"];
     ex_msg "322" ["foo"; "#chan2"; "2"; "y"]]
    (ex_msg "323" ["foo"; "End of LIST"])
    eq_refl _ _ _ eq_refl _) _).
  - yields_run.
  - repeat constructor; discriminate.
  - repeat constructor; cbn; eauto.
  - cbn. lia.
  - reflexivity.
Defined.

Lemma parseChanList_never_lists_local_channels_witness :
  PyStr.startswith "#chan" "&" = false.
Proof.
  refine (parseChanList_never_lists_local_channels (list Message)
    next_message "322" "323" 3 (NInt 1)
    (ex_test [(NInt 1, [ex_msg "322" ["foo"; "&SERVER"; "1"; "x"];
                        ex_msg "322" ["foo"; "#chan"; "2"; "y"];
                        ex_msg "323" ["foo"; "End of LIST"]])])
    (ex_test [(NInt 1, [])]) (∅ ∪ {["#chan"]}) "#chan" eq_refl _).
  apply elem_of_union_r, elem_of_singleton. reflexivity.
Defined.

Lemma parseChanList_short_RPL_LIST_witness :
  ex_chanList 2 (NInt 1)
    (ex_test [(NInt 1, [ex_msg "322" ["foo"; "#chan1"];
                        ex_msg "322" ["foo"]])])
  = (Exc IndexError, ex_test [(NInt 1, [])]).
Proof.
  refine (parseChanList_short_RPL_LIST (list Message) next_message
    "322" "323" 2 (NInt 1)
    (ex_test [(NInt 1, [ex_msg "322" ["foo"; "#chan1"];
                        ex_msg "322" ["foo"]])])
    [ex_msg "322" ["foo"; "#chan1"]; ex_msg "322" ["foo"]] []
    [ex_msg "322" ["foo"; "#chan1"]] (ex_msg "322" ["foo"])
    eq_refl _ _ _ _ eq_refl _ _).
  - yields_run.
  - repeat constructor; discriminate.
  - repeat constructor; cbn; eauto.
  - cbn. lia.
  - discriminate.
  - cbn. lia.
Defined.

End BaseServerFacts.
